(** * ErrorCache bundle: a shallow embedding of the hook and tool modules

    The development follows the two Python modules of the bundle:

    - [modules/hooks-errorcache]: configuration resolution ([_resolve_env]),
      the error extractor ([ERROR_PATTERNS], [_extract_error_text],
      [_get_output_text]), the HTTP client ([ErrorCacheClient]) and the
      passive watcher ([ErrorCacheHook]).
    - [modules/tool-errorcache]: the HTTP wrapper ([ErrorCacheAPI]) and the
      operation-multiplexed tool ([ErrorCacheTool]).

    Modelling decisions, all of them local to the definitions they concern:

    - Python [str] is a list of characters; a character is a code point in
      U+0000..U+00FF (the 8-bit [ascii] type read as Latin-1).  The character
      classes of [re] and of [str.strip], [str.splitlines] and [str.lower]
      are the ones Python uses on that range.
    - Decoded JSON is the type [json]; floating-point numbers are not part of
      the model, and a statement about a value read from the input or from
      a response covers the kinds of values [json] has.
    - [HookResult] and [ToolResult] are classes of [amplifier_core], which
      is not among the sources: a result is the record of the arguments its
      constructor call is given, as the modules write the call.
    - The network is an oracle: a program of type [io A] issues requests and
      continues with whatever outcome the oracle returns.  Percent-encoding
      of URLs is not modelled, a request carries its endpoint and its query
      parameters as values.
    - Python exceptions are results of type [res]; [try]/[except Exception]
      is [catch]. *)

From Stdlib Require Import List Ascii ZArith NArith Lia Bool.
From stdpp Require Import base option list gmap strings.
Import ListNotations.

Set Warnings "-via-type-mismatch,-via-type-remapping,-register-all".

(** ** Text *)

Definition str := list ascii.

Inductive lit_chars := LNil | LCons (c : ascii) (l : lit_chars).

Fixpoint lit_of_bytes (l : list Byte.byte) : lit_chars :=
  match l with
  | [] => LNil
  | b :: l => LCons (ascii_of_byte b) (lit_of_bytes l)
  end.

Fixpoint bytes_of_lit (l : lit_chars) : list Byte.byte :=
  match l with
  | LNil => []
  | LCons c l => byte_of_ascii c :: bytes_of_lit l
  end.

Declare Scope str_scope.
Delimit Scope str_scope with str.
String Notation str lit_of_bytes bytes_of_lit
  (via lit_chars mapping [[nil] => LNil, [cons] => LCons]) : str_scope.
Open Scope str_scope.

Module Text.

Definition code (c : ascii) : N := N_of_ascii c.

Definition between (lo hi : N) (c : ascii) : bool :=
  ((lo <=? code c) && (code c <=? hi))%N.

Definition is_char (x : ascii) (c : ascii) : bool := Ascii.eqb c x.

(** [\d] on code points below 256: the decimal digits. *)
Definition is_digit (c : ascii) : bool := between 48 57 c.

Definition is_ascii_upper (c : ascii) : bool := between 65 90 c.
Definition is_ascii_lower (c : ascii) : bool := between 97 122 c.

(** Alphanumeric code points of Latin-1 above U+007F:
    U+00AA, U+00B2, U+00B3, U+00B5, U+00B9, U+00BA, U+00BC..U+00BE,
    U+00C0..U+00D6, U+00D8..U+00F6, U+00F8..U+00FF. *)
Definition is_latin1_alnum (c : ascii) : bool :=
  is_char "170" c || between 178 179 c || is_char "181" c || between 185 186 c
  || between 188 190 c || between 192 214 c || between 216 246 c
  || between 248 255 c.

(** [\w]: alphanumeric or underscore. *)
Definition is_word (c : ascii) : bool :=
  is_digit c || is_ascii_upper c || is_ascii_lower c || is_char "_" c
  || is_latin1_alnum c.

(** [str.isspace]: U+0009..U+000D, U+001C..U+001F, space, U+0085, U+00A0. *)
Definition is_space (c : ascii) : bool :=
  between 9 13 c || between 28 31 c || is_char " " c || is_char "133" c || is_char "160" c.

(** Line boundaries of [str.splitlines]: LF, VT, FF, CR, FS, GS, RS, NEL. *)
Definition is_linebreak (c : ascii) : bool :=
  between 10 13 c || between 28 30 c || is_char "133" c.

(** [str.lower] on one code point. *)
Definition lower_char (c : ascii) : ascii :=
  if is_ascii_upper c || between 192 214 c || between 216 222 c
  then ascii_of_N (code c + 32) else c.

Definition lower (s : str) : str := map lower_char s.

Fixpoint drop_while (p : ascii -> bool) (s : str) : str :=
  match s with
  | [] => []
  | c :: s' => if p c then drop_while p s' else s
  end.

Definition lstrip (s : str) : str := drop_while is_space s.
Definition rstrip (s : str) : str := rev (drop_while is_space (rev s)).
Definition strip (s : str) : str := rstrip (lstrip s).

(** [s.splitlines()]; [cur] holds the current line, reversed. *)
Fixpoint splitlines_from (cur : str) (s : str) : list str :=
  match s with
  | [] => match cur with [] => [] | _ => [rev cur] end
  | c :: s' =>
      if is_linebreak c then
        rev cur ::
          match s' with
          | c' :: s'' =>
              if is_char "013" c && is_char "010" c' then splitlines_from [] s''
              else splitlines_from [] s'
          | [] => splitlines_from [] s'
          end
      else splitlines_from (c :: cur) s'
  end.

Definition splitlines (s : str) : list str := splitlines_from [] s.

(** [sep.join(parts)] *)
Fixpoint join (sep : str) (parts : list str) : str :=
  match parts with
  | [] => []
  | [p] => p
  | p :: rest => p ++ sep ++ join sep rest
  end.

(** [s[i:j]] for [0 <= i] and [0 <= j]. *)
Definition slice (i j : nat) (s : str) : str := firstn (j - i) (skipn i s).

(** [needle in s] *)
Definition contains (s needle : str) : Prop :=
  exists before after, s = before ++ needle ++ after.

(** [s.startswith(prefix)] *)
Fixpoint starts_with (s prefix : str) {struct prefix} : bool :=
  match prefix with
  | [] => true
  | p :: prefix' =>
      match s with
      | c :: s' => Ascii.eqb c p && starts_with s' prefix'
      | [] => false
      end
  end.

(** [needle in s], computed. *)
Fixpoint contains_b (s needle : str) : bool :=
  starts_with s needle
  || match s with
     | [] => false
     | _ :: s' => contains_b s' needle
     end.

End Text.

(** ** Regular expressions

    The fragment of [re] the two modules use: literals, character classes,
    sequencing, ordered alternation, the greedy quantifiers [*] and [+] on a
    character class and greedy [?].  Matching is by backtracking in
    priority order, as in [sre]: the first alternative that lets the rest of
    the pattern succeed wins, a greedy quantifier gives characters back one
    at a time. *)

Module Re.

Inductive regex :=
| Eps
| Cls (p : ascii -> bool)
| Seq (r1 r2 : regex)
| Alt (r1 r2 : regex)
| Star (p : ascii -> bool)
| Plus (p : ascii -> bool)
| Opt (r : regex).

Section Exec.
Context {A : Type}.

(** Greedy [[p]*] followed by the continuation [k]. *)
Fixpoint star (p : ascii -> bool) (s : str) (k : str -> option A)
  : option A :=
  match s with
  | c :: s' =>
      if p c then
        match star p s' k with
        | Some r => Some r
        | None => k s
        end
      else k s
  | [] => k s
  end.

(** [exec r s k]: match [r] at the start of [s], then run [k] on the
    rest of the input; on failure of [k] backtrack into [r]. *)
Fixpoint exec (r : regex) (s : str) (k : str -> option A) : option A :=
  match r with
  | Eps => k s
  | Cls p =>
      match s with
      | c :: s' => if p c then k s' else None
      | [] => None
      end
  | Seq r1 r2 => exec r1 s (fun s' => exec r2 s' k)
  | Alt r1 r2 =>
      match exec r1 s k with
      | Some x => Some x
      | None => exec r2 s k
      end
  | Star p => star p s k
  | Plus p =>
      match s with
      | c :: s' => if p c then star p s' k else None
      | [] => None
      end
  | Opt r1 =>
      match exec r1 s k with
      | Some x => Some x
      | None => k s
      end
  end.
End Exec.

(** [pattern.match(s)]: the input left after the match. *)
Definition match_at (r : regex) (s : str) : option str := exec r s Some.

(** Length of the match at the start of [s]. *)
Definition match_len (r : regex) (s : str) : option nat :=
  match match_at r s with
  | Some rest => Some (length s - length rest)
  | None => None
  end.

(** [pattern.search(s)]: [(m.start(), m.end())] of the leftmost match,
    [i] being the offset of [s] in the whole input. *)
Fixpoint search_from (r : regex) (i : nat) (s : str) : option (nat * nat) :=
  match match_len r s with
  | Some n => Some (i, i + n)
  | None =>
      match s with
      | [] => None
      | _ :: s' => search_from r (S i) s'
      end
  end.

Definition search (r : regex) (s : str) : option (nat * nat) :=
  search_from r 0 s.

Definition found (r : regex) (s : str) : bool :=
  match search r s with Some _ => true | None => false end.

(** [re.sub(r, repl, s)] for a pattern that matches at least one
    character and a replacement without group references: scan from the
    left, replace the match found at the current position and resume
    after it, otherwise copy one character.  [skip] counts the characters
    of the current match that are still to be passed over. *)
Fixpoint sub_from (r : regex) (repl : str) (skip : nat) (s : str) : str :=
  match s with
  | [] => []
  | c :: s' =>
      match skip with
      | S n => sub_from r repl n s'
      | O =>
          match match_len r s with
          | Some (S n) => repl ++ sub_from r repl n s'
          | _ => c :: sub_from r repl 0 s'
          end
      end
  end.

Definition sub (r : regex) (repl : str) (s : str) : str :=
  sub_from r repl 0 s.

(** *** Pattern builders *)

Definition chr (c : ascii) : regex := Cls (Text.is_char c).

(** A letter under [re.IGNORECASE]. *)
Definition chr_i (c : ascii) : regex :=
  Cls (fun x => Ascii.eqb (Text.lower_char x) (Text.lower_char c)).

Fixpoint lit (s : str) : regex :=
  match s with
  | [] => Eps
  | [c] => chr c
  | c :: s' => Seq (chr c) (lit s')
  end.

Fixpoint lit_i (s : str) : regex :=
  match s with
  | [] => Eps
  | [c] => chr_i c
  | c :: s' => Seq (chr_i c) (lit_i s')
  end.

Fixpoint alts (rs : list regex) : regex :=
  match rs with
  | [] => Cls (fun _ => false)
  | [r] => r
  | r :: rs' => Alt r (alts rs')
  end.

Fixpoint seqs (rs : list regex) : regex :=
  match rs with
  | [] => Eps
  | [r] => r
  | r :: rs' => Seq r (seqs rs')
  end.

(** [.] without [re.DOTALL]. *)
Definition dot (c : ascii) : bool := negb (Text.is_char "010" c).

End Re.

(** ** Python values *)

Module Py.

(** Values decoded by [json.loads], and the arguments the host hands to
    the modules.  A [JDict] is an association list read by its first
    entry for a key.  The numbers are the integers: a [float] is no value
    of this type, so that nothing stated over [json] speaks of an input or
    a response that holds one. *)
Inductive json :=
| JNull
| JBool (b : bool)
| JInt (z : Z)
| JStr (s : str)
| JList (l : list json)
| JDict (d : list (str * json)).

Definition dict := list (str * json).

Definition str_eqb (a b : str) : bool := bool_decide (a = b).

(** [d.get(key)] on a [dict], absent keys giving [None] of [option]. *)
Fixpoint lookup (d : dict) (key : str) : option json :=
  match d with
  | [] => None
  | (k, v) :: d' => if str_eqb k key then Some v else lookup d' key
  end.

(** [d.get(key, default)] *)
Definition get (d : dict) (key : str) (default : json) : json :=
  match lookup d key with
  | Some v => v
  | None => default
  end.

(** Truth value of [if v:] *)
Definition truthy (v : json) : bool :=
  match v with
  | JNull => false
  | JBool b => b
  | JInt z => negb (z =? 0)%Z
  | JStr s => match s with [] => false | _ => true end
  | JList l => match l with [] => false | _ => true end
  | JDict d => match d with [] => false | _ => true end
  end.

(** [bool] is a subclass of [int]. *)
Definition as_int (v : json) : option Z :=
  match v with
  | JInt z => Some z
  | JBool true => Some 1%Z
  | JBool false => Some 0%Z
  | _ => None
  end.

(** [a == b]; two dicts are equal when they have the same keys with equal
    values, each key being held once. *)
Fixpoint py_eq (a b : json) : bool :=
  match a, b with
  | JNull, JNull => true
  | JStr s, JStr t => str_eqb s t
  | JList l, JList m =>
      (fix all2 (l : list json) (m : list json) : bool :=
         match l, m with
         | [], [] => true
         | x :: l', y :: m' => py_eq x y && all2 l' m'
         | _, _ => false
         end) l m
  | JDict d, JDict e =>
      (length d =? length e)%nat
      && (fix all_in (d : dict) : bool :=
            match d with
            | [] => true
            | (k, v) :: d' =>
                match lookup e k with
                | Some w => py_eq v w && all_in d'
                | None => false
                end
            end) d
  | (JBool _ | JInt _), (JBool _ | JInt _) =>
      match as_int a, as_int b with
      | Some x, Some y => (x =? y)%Z
      | _, _ => false
      end
  | _, _ => false
  end.

(** [v in (s1, s2, ...)] for a tuple of string literals. *)
Definition in_strs (v : json) (choices : list str) : bool :=
  existsb (fun s => py_eq v (JStr s)) choices.

Inductive exn :=
| TypeError
| AttributeError
| KeyError
| RequestError (msg : str).   (* raised by urlopen, read or json.loads *)

Inductive res (A : Type) :=
| Ok (a : A)
| Raise (e : exn).
Arguments Ok {A} a.
Arguments Raise {A} e.

Definition res_bind {A B} (x : res A) (f : A -> res B) : res B :=
  match x with
  | Ok a => f a
  | Raise e => Raise e
  end.

(** [v.get(key, default)]: only a [dict] has the method. *)
Definition get_of (v : json) (key : str) (default : json) : res json :=
  match v with
  | JDict d => Ok (get d key default)
  | _ => Raise AttributeError
  end.

(** [len(v)] *)
Definition len (v : json) : res Z :=
  match v with
  | JStr s => Ok (Z.of_nat (length s))
  | JList l => Ok (Z.of_nat (length l))
  | JDict d => Ok (Z.of_nat (length d))
  | _ => Raise TypeError
  end.

(** [hash(v)] succeeds on [None], numbers and strings only. *)
Definition hashable (v : json) : bool :=
  match v with
  | JList _ | JDict _ => false
  | _ => true
  end.

(** [l[:n]] for a list [l] and an integer [n] of either sign. *)
Definition take_upto {A} (n : Z) (l : list A) : list A :=
  if (0 <=? n)%Z then firstn (Z.to_nat n) l
  else firstn (Z.to_nat (Z.of_nat (length l) + n)) l.

End Py.

(** ** The network *)

Module Net.
Import Py.

Inductive endpoint :=
| SearchSimilar                 (* /search/similar *)
| Search                        (* /search *)
| Questions                     (* /questions *)
| QuestionAnswers (id : json)   (* /questions/{id}/answers *)
| AnswerVerify (id : json).     (* /answers/{id}/verify *)

Inductive method := GET | POST.

(** One [urllib.request.urlopen] call on [api_url] + path. *)
Record request := Request {
  meth : method;
  base : str;                    (* api_url *)
  path : endpoint;
  query : list (str * json);
  headers : list (str * str);
  body : option json;
  timeout : Z
}.

(** What the call gives back: an exception raised by the transport or by
    [json.loads], with its [str(e)], or the decoded body. *)
Inductive outcome :=
| Failed (msg : str)
| Replied (v : json).

(** A computation that talks to the network. *)
Inductive io (A : Type) :=
| Ret (a : A)
| Call (rq : request) (k : outcome -> io A).
Arguments Ret {A} a.
Arguments Call {A} rq k.

Fixpoint bind {A B} (m : io A) (f : A -> io B) : io B :=
  match m with
  | Ret a => f a
  | Call rq k => Call rq (fun o => bind (k o) f)
  end.

(** The remote service: its answer may depend on the requests so far. *)
Definition server := list request -> request -> outcome.

(** Run a computation against a service; [log] is the list of requests
    issued so far, oldest first. *)
Fixpoint run_from {A} (srv : server) (log : list request) (m : io A)
  : A * list request :=
  match m with
  | Ret a => (a, log)
  | Call rq k => run_from srv (log ++ [rq]) (k (srv log rq))
  end.

Definition run {A} (srv : server) (m : io A) : A * list request :=
  run_from srv [] m.

(** Computations that may also raise. *)
Definition M (A : Type) := io (res A).

Definition ret {A} (a : A) : M A := Ret (Ok a).
Definition raise {A} (e : exn) : M A := Ret (Raise e).
Definition lift {A} (r : res A) : M A := Ret r.

Definition mbind {A B} (m : M A) (f : A -> M B) : M B :=
  bind m (fun r => match r with Ok a => f a | Raise e => Ret (Raise e) end).

(** [try: m except Exception: h] *)
Definition catch {A} (m : M A) (h : exn -> M A) : M A :=
  bind m (fun r => match r with Ok a => Ret (Ok a) | Raise e => h e end).

End Net.

Notation "x <- m ;; f" := (Net.mbind m (fun x => f))
  (at level 100, m at next level, right associativity, only parsing).

(** ** modules/hooks-errorcache *)

Module Hook.
Import Py Net.

Definition NL : str := ["010"%char].

(** [_UNRESOLVED_VAR = re.compile(r"\$\{.+\}")] *)
Definition _UNRESOLVED_VAR : Re.regex :=
  Re.seqs [Re.chr "$"; Re.chr "{"; Re.Plus Re.dot; Re.chr "}"].

(** [os.environ] *)
Definition environ := gmap str str.

(** [_resolve_env(value, env_var, default)]; searching a pattern in a
    value that is not a string raises [TypeError]. *)
Definition _resolve_env (env : environ) (value : json) (env_var dflt : str)
  : res str :=
  let from_env := Ok (default dflt (env !! env_var)) in
  if truthy value then
    match value with
    | JStr s => if Re.found _UNRESOLVED_VAR s then from_env else Ok s
    | _ => Raise TypeError
    end
  else from_env.

(** *** Error extraction *)

Definition upper_or_underscore (c : ascii) : bool :=
  Text.is_ascii_upper c || Text.is_char "_" c.

Definition ERROR_PATTERNS : list Re.regex := [
  (* Traceback \(most recent call last\), IGNORECASE *)
  Re.lit_i "Traceback (most recent call last)";
  (* (?:Error|Exception|FAILED|FATAL):, IGNORECASE *)
  Re.Seq (Re.alts [Re.lit_i "Error"; Re.lit_i "Exception";
                   Re.lit_i "FAILED"; Re.lit_i "FATAL"])
         (Re.chr_i ":");
  (* error\[E\d+\], IGNORECASE *)
  Re.seqs [Re.lit_i "error[E"; Re.Plus Text.is_digit; Re.chr_i "]"];
  (* ERR_[A-Z_]+ *)
  Re.seqs [Re.lit "ERR_"; Re.Plus upper_or_underscore];
  (* ECONNREFUSED|ENOENT|EACCES|EPERM *)
  Re.alts [Re.lit "ECONNREFUSED"; Re.lit "ENOENT"; Re.lit "EACCES";
           Re.lit "EPERM"];
  (* ModuleNotFoundError|ImportError|SyntaxError|TypeError|ValueError *)
  Re.alts [Re.lit "ModuleNotFoundError"; Re.lit "ImportError";
           Re.lit "SyntaxError"; Re.lit "TypeError"; Re.lit "ValueError"];
  (* error TS\d+: *)
  Re.seqs [Re.lit "error TS"; Re.Plus Text.is_digit; Re.chr ":"];
  (* FAILED.*tests?|tests? FAILED, IGNORECASE *)
  Re.Alt (Re.seqs [Re.lit_i "FAILED"; Re.Star Re.dot; Re.lit_i "test";
                   Re.Opt (Re.chr_i "s")])
         (Re.seqs [Re.lit_i "test"; Re.Opt (Re.chr_i "s");
                   Re.lit_i " FAILED"]);
  (* Build failed|Compilation failed|Cannot find module, IGNORECASE *)
  Re.alts [Re.lit_i "Build failed"; Re.lit_i "Compilation failed";
           Re.lit_i "Cannot find module"]
].

(** [any(p.search(line) for p in ERROR_PATTERNS)] *)
Definition is_error_line (line : str) : bool :=
  existsb (fun p => Re.found p line) ERROR_PATTERNS.

(** The [for line in lines] loop of [_extract_error_text]; it returns
    [error_lines] as the loop leaves it. *)
Fixpoint capture_lines (lines : list str) (capture : bool)
  (error_lines : list str) : list str :=
  match lines with
  | [] => error_lines
  | line :: rest =>
      let capture := if is_error_line line then true else capture in
      if capture then
        let error_lines := error_lines ++ [line] in
        if (10 <=? length error_lines)%nat then error_lines
        else capture_lines rest capture error_lines
      else capture_lines rest capture error_lines
  end.

(** The fallback loop: the window around the first match of the first
    pattern that matches anywhere. *)
Fixpoint match_window (patterns : list Re.regex) (output : str)
  : option str :=
  match patterns with
  | [] => None
  | p :: rest =>
      match Re.search p output with
      | Some (m_start, m_end) =>
          let start := Z.max 0 (Z.of_nat m_start - 200) in
          let stop := Z.min (Z.of_nat (length output))
                            (Z.of_nat m_end + 500) in
          Some (Text.strip
                  (Text.slice (Z.to_nat start) (Z.to_nat stop) output))
      | None => match_window rest output
      end
  end.

Definition _extract_error_text (output : str) : option str :=
  let lines := Text.splitlines (Text.strip output) in
  let error_lines := capture_lines lines false [] in
  match error_lines with
  | _ :: _ => Some (Text.join NL error_lines)
  | [] => match_window ERROR_PATTERNS output
  end.

(** *** Dedup key *)

(** The class [[\w./\\-]]. *)
Definition path_char (c : ascii) : bool :=
  Text.is_word c || Text.is_char "." c || Text.is_char "/" c
  || Text.is_char "\" c || Text.is_char "-" c.

(** [/[\w./\\-]+\.(py|js|ts|rs|go|rb|java|c|cpp|h)] *)
Definition FILE_PATH : Re.regex :=
  Re.seqs [Re.chr "/"; Re.Plus path_char; Re.chr ".";
           Re.alts [Re.lit "py"; Re.lit "js"; Re.lit "ts"; Re.lit "rs";
                    Re.lit "go"; Re.lit "rb"; Re.lit "java"; Re.lit "c";
                    Re.lit "cpp"; Re.lit "h"]].

(** [:\d+:\d+] *)
Definition LINE_COL : Re.regex :=
  Re.seqs [Re.chr ":"; Re.Plus Text.is_digit; Re.chr ":";
           Re.Plus Text.is_digit].

(** [line \d+], IGNORECASE *)
Definition LINE_N : Re.regex :=
  Re.seqs [Re.lit_i "line "; Re.Plus Text.is_digit].

(** [ErrorCacheHook._error_key] *)
Definition _error_key (text : str) : str :=
  let cleaned := Re.sub FILE_PATH "<FILE>" text in
  let cleaned := Re.sub LINE_COL ":<N>" cleaned in
  let cleaned := Re.sub LINE_N "line <N>" cleaned in
  Text.lower (Text.strip (firstn 200 cleaned)).

(** *** Text of a tool result *)

Section Formatting.

(** [str(v)] for a value that is not a string: Python's rendering of
    [None], numbers, lists and dicts is left open. *)
Variable py_str : json -> str.

(** [str(v)], also the value of [{v}] in an f-string. *)
Definition str_of (v : json) : str :=
  match v with
  | JStr s => s
  | _ => py_str v
  end.

(** [_get_output_text(result)] *)
Definition _get_output_text (result : json) : str :=
  match result with
  | JStr s => s
  | JDict d =>
      let output := get d "output" (JStr "") in
      match output with
      | JStr s => s
      | JDict o =>
          let parts := [] in
          let parts :=
            if truthy (get o "stdout" JNull)
            then parts ++ [str_of (get o "stdout" JNull)] else parts in
          let parts :=
            if truthy (get o "stderr" JNull)
            then parts ++ [str_of (get o "stderr" JNull)] else parts in
          Text.join NL parts
      | _ => str_of output
      end
  | _ => str_of result
  end.

(** *** ErrorCacheClient *)

Record client := Client { api_url : str; api_key : str }.

(** [ErrorCacheClient.__init__]: [api_url.rstrip("/")] *)
Definition new_client (url key : str) : client :=
  {| api_url := rev (Text.drop_while (Text.is_char "/") (rev url));
     api_key := key |}.

Definition _headers (self : client) : list (str * str) :=
  let h := [("Content-Type", "application/json");
            ("Accept", "application/json")] in
  match api_key self with
  | [] => h
  | _ => h ++ [("Authorization", "Bearer " ++ api_key self)]
  end.

(** [urlopen] followed by [json.loads(resp.read())]; any exception of
    the two surfaces as [RequestError]. *)
Definition fetch (rq : request) : M json :=
  Call rq (fun o =>
    match o with
    | Replied v => ret v
    | Failed msg => raise (RequestError msg)
    end).

(** [ErrorCacheClient.search] *)
Definition search (self : client) (error_text : str) (limit : Z)
  : M (list json) :=
  catch
    (data <- fetch {| meth := GET; base := api_url self;
                      path := SearchSimilar;
                      query := [("error_signature",
                                 JStr (firstn 500 error_text));
                                ("limit", JInt limit)];
                      headers := _headers self;
                      body := None; timeout := 5 |} ;;
     results <- lift (match data with
                      | JList _ => Ok data
                      | _ => get_of data "data" (JList [])
                      end) ;;
     ret (match results with JList l => l | _ => [] end))
    (fun _ => ret []).

(** [ErrorCacheClient.submit]; [environment] is [None] or a dict. *)
Definition submit (self : client) (title error_signature : str)
  (root_cause fix_approach : str) (environment : option dict) : M bool :=
  catch
    (let q_body :=
       JDict [("title", JStr (firstn 300 title));
              ("error_signature", JStr error_signature);
              ("error_category", JStr "other");
              ("environment",
               match environment with
               | Some ((_ :: _) as e) => JDict e
               | _ => JDict []
               end)] in
     q_data <- fetch {| meth := POST; base := api_url self;
                        path := Questions; query := [];
                        headers := _headers self;
                        body := Some q_body; timeout := 10 |} ;;
     q_inner <- lift (get_of q_data "data" (JDict [])) ;;
     question_id <- lift (get_of q_inner "id" JNull) ;;
     if negb (truthy question_id) then ret false
     else
       let a_body := JDict [("root_cause", JStr root_cause);
                            ("fix_approach", JStr fix_approach)] in
       Call {| meth := POST; base := api_url self;
               path := QuestionAnswers question_id; query := [];
               headers := _headers self;
               body := Some a_body; timeout := 10 |}
            (fun o =>
               match o with
               | Replied _ => ret true
               | Failed msg => raise (RequestError msg)
               end))
    (fun _ => ret false).

(** *** ErrorCacheHook *)

(** Modelled from the spec: the class [HookResult] is imported from
    [amplifier_core], which is not among the sources; the spec speaks of
    the action of a result and of the context it injects.  The record
    holds the arguments of the constructor call; [None] stands for an
    argument the call leaves to its default. *)
Record HookResult := {
  action : str;
  context_injection : option str;
  context_injection_role : option str;
  ephemeral : option bool;
  user_message : option str;
  user_message_level : option str
}.

(** [HookResult(action="continue")] *)
Definition continue : HookResult :=
  {| action := "continue"; context_injection := None;
     context_injection_role := None; ephemeral := None;
     user_message := None; user_message_level := None |}.

(** A value of [tracked_errors]: [{"error_text": .., "tool_name": ..}] *)
Record tracked := Tracked { error_text : str; tool_name : json }.

Record hook := {
  hook_client : client;
  auto_search : json;
  auto_submit : json;
  tracked_errors : gmap str tracked;
  applied_solutions : gmap str json
}.

(** [ErrorCacheHook.__init__] *)
Definition new_hook (c : client) (search_on submit_on : json) : hook :=
  {| hook_client := c; auto_search := search_on;
     auto_submit := submit_on; tracked_errors := ∅;
     applied_solutions := ∅ |}.

Definition with_tracked (self : hook) (t : gmap str tracked) : hook :=
  {| hook_client := hook_client self; auto_search := auto_search self;
     auto_submit := auto_submit self; tracked_errors := t;
     applied_solutions := applied_solutions self |}.

(** [' && '.join(cmds)]: every item has to be a string. *)
Fixpoint join_commands (cmds : list json) : res str :=
  match cmds with
  | [] => Ok []
  | [JStr c] => Ok c
  | JStr c :: rest =>
      res_bind (join_commands rest) (fun r => Ok (c ++ " && " ++ r))
  | _ => Raise TypeError
  end.

(** [v.get(key)] followed by a truth test and [v[key]]. *)
Definition field_if_set (v : json) (key : str) : res (option json) :=
  res_bind (get_of v key JNull) (fun x =>
    Ok (if truthy x then Some x else None)).

(** The lines one solution adds in [_search_and_inject]. *)
Definition solution_lines (i : Z) (q : json) : res (list str) :=
  res_bind (get_of q "title" (JStr "Untitled")) (fun title =>
  res_bind (get_of q "verification_count" (JInt 0)) (fun verifications =>
  res_bind (get_of q "status" (JStr "open")) (fun status =>
  res_bind (get_of q "answer_count" (JInt 0)) (fun answer_count =>
  res_bind (get_of q "id" (JStr "")) (fun q_id =>
  let lines :=
    [ "### [" ++ str_of (JInt i) ++ "] " ++ str_of title;
      "Status: " ++ str_of status ++ " | Answers: "
        ++ str_of answer_count ++ " | Verifications: "
        ++ str_of verifications ] in
  res_bind (field_if_set q "best_answer") (fun best =>
  res_bind
    match best with
    | None => Ok lines
    | Some ba =>
        res_bind (field_if_set ba "root_cause") (fun rc =>
        let lines :=
          match rc with
          | Some v => lines ++ ["Root cause: " ++ str_of v]
          | None => lines
          end in
        res_bind (field_if_set ba "fix_approach") (fun fa =>
        let lines :=
          match fa with
          | Some v => lines ++ ["Fix: " ++ str_of v]
          | None => lines
          end in
        res_bind (field_if_set ba "patch_or_commands") (fun pc =>
        match pc with
        | Some (JList cmds) =>
            res_bind (join_commands cmds) (fun joined =>
              Ok (lines ++ ["Commands: " ++ joined]))
        | _ => Ok lines
        end)))
    end (fun lines =>
  let lines :=
    if truthy q_id
    then lines ++ ["Link: https://errorcache.com/questions/"
                     ++ str_of q_id]
    else lines in
  Ok (lines ++ [""])))))))).

(** [for i, q in enumerate(solutions, i): ...] *)
Fixpoint all_solution_lines (i : Z) (solutions : list json)
  : res (list str) :=
  match solutions with
  | [] => Ok []
  | q :: rest =>
      res_bind (solution_lines i q) (fun ls =>
      res_bind (all_solution_lines (i + 1) rest) (fun more =>
      Ok (ls ++ more)))
  end.

(** The part of [_search_and_inject] that follows a non-empty search. *)
Definition inject (solutions : list json) : res HookResult :=
  let found := str_of (JInt (Z.of_nat (length solutions))) in
  let lines :=
    [ "## ErrorCache: Verified Solutions Found";
      "";
      "Found " ++ found ++ " solution(s) for this error.";
      "Review these before debugging independently:";
      "" ] in
  res_bind (all_solution_lines 1 (firstn 3 solutions)) (fun ls =>
  let lines := lines ++ ls in
  let lines :=
    lines ++ ["If you apply one of these fixes, use `errorcache "
                ++ "verify_solution` to confirm it worked."] in
  Ok {| action := "inject_context";
        context_injection := Some (Text.join NL lines);
        context_injection_role := Some "system";
        ephemeral := Some true;
        user_message :=
          Some ("ErrorCache: Found " ++ found
                  ++ " verified solution(s)");
        user_message_level := Some "info" |}).

(** A handler returns its result, or raises, and leaves the hook in a
    new state either way. *)
Definition handler := io (res HookResult * hook).

(** [ErrorCacheHook._search_and_inject] *)
Definition _search_and_inject (self : hook) (text : str) (tool : json)
  : handler :=
  let key := _error_key text in
  if decide (is_Some (tracked_errors self !! key)) then
    Ret (Ok continue, self)
  else
    let self :=
      with_tracked self
        (<[key := {| error_text := text; tool_name := tool |}]>
           (tracked_errors self)) in
    bind (search (hook_client self) text 3) (fun r =>
      match r with
      | Raise e => Ret (Raise e, self)
      | Ok [] => Ret (Ok continue, self)
      | Ok solutions => Ret (inject solutions, self)
      end).

(** [ErrorCacheHook.handle_tool_error] *)
Definition handle_tool_error (self : hook) (data : dict) : handler :=
  if negb (truthy (auto_search self)) then Ret (Ok continue, self)
  else
    let error_info := get data "error" (JDict []) in
    match res_bind (get_of error_info "type" (JStr "Error")) (fun ty =>
          res_bind (get_of error_info "msg" (JStr "")) (fun msg =>
          Ok (str_of ty ++ ": " ++ str_of msg))) with
    | Raise e => Ret (Raise e, self)
    | Ok text =>
        _search_and_inject self text (get data "tool_name" (JStr "unknown"))
    end.

(** The first block of [handle_tool_post]: drop the tracked errors of
    the tool that has just completed successfully. *)
Definition drop_resolved (self : hook) (tool : json) (result : json)
  : hook :=
  if truthy (auto_submit self)
     && negb (bool_decide (tracked_errors self = ∅))
  then
    let success :=
      match result with
      | JDict d => get d "success" (JBool true)
      | _ => JBool true
      end in
    if truthy success then
      let resolved :=
        filter (fun entry => py_eq (tool_name entry.2) tool = true)
               (map_to_list (tracked_errors self)) in
      with_tracked self
        (foldl (fun t entry => delete entry.1 t)
               (tracked_errors self) resolved)
    else self
  else self.

(** [ErrorCacheHook.handle_tool_post] *)
Definition handle_tool_post (self : hook) (data : dict) : handler :=
  let tool := get data "tool_name" (JStr "") in
  let result := get data "result" (JDict []) in
  let output_text := _get_output_text result in
  let self := drop_resolved self tool result in
  if negb (truthy (auto_search self)) then Ret (Ok continue, self)
  else if negb (in_strs tool ["bash"; "Bash"; "shell"; "run_command"])
  then Ret (Ok continue, self)
  else if (length output_text <? 20)%nat then Ret (Ok continue, self)
  else
    match _extract_error_text output_text with
    | None | Some [] => Ret (Ok continue, self)
    | Some text => _search_and_inject self text tool
    end.

(** The configuration part of [mount]: the hook as it is registered. *)
Definition mount (env : environ) (config : option dict) : res hook :=
  let config := match config with Some c => c | None => [] end in
  res_bind (_resolve_env env (get config "api_url" JNull)
              "ERRORCACHE_API_URL"
              "https://api.errorcache.com/api/v1") (fun url =>
  res_bind (_resolve_env env (get config "api_key" JNull)
              "ERRORCACHE_API_KEY" "") (fun key =>
  Ok (new_hook (new_client url key)
        (get config "auto_search" (JBool true))
        (get config "auto_submit" (JBool true))))).

End Formatting.

End Hook.

(** ** modules/tool-errorcache *)

Module Tool.
Import Py Net.

Section Tool.

(** [str(v)] for a value that is not a string. *)
Variable py_str : json -> str.

(** [_detect_environment()]: the platform the process runs on. *)
Variable environment : json.

(** [str(e)] for an exception that reaches [execute]. *)
Variable exn_str : exn -> str.

Definition str_of (v : json) : str :=
  match v with
  | JStr s => s
  | _ => py_str v
  end.

(** [type(e).__name__]; a [RequestError] does not reach [execute],
    [_get] and [_post] turn it into a response. *)
Definition exn_name (e : exn) : str :=
  match e with
  | TypeError => "TypeError"
  | AttributeError => "AttributeError"
  | KeyError => "KeyError"
  | RequestError _ => "URLError"
  end.

(** Modelled from the spec: the class [ToolResult] is imported from
    [amplifier_core], which is not among the sources; the spec calls it
    a structured result, a success or a failure.  The record holds the
    arguments of the constructor call as the tool writes it: [output]
    and [error] are [None] when the call does not give them.  What the
    class makes of its arguments, a default it fills in for a field the
    call leaves out, is not part of the model. *)
Record ToolResult := {
  success : bool;
  output : option json;
  error : option json
}.

(** [ToolResult(success=False, error={"message": msg})] *)
Definition failure (msg : str) : ToolResult :=
  {| success := false; output := None;
     error := Some (JDict [("message", JStr msg)]) |}.

(** [ToolResult(success=True, output=out)] *)
Definition succeed (out : json) : ToolResult :=
  {| success := true; output := Some out; error := None |}.

(** *** ErrorCacheAPI *)

Record api := Api { api_url : str; api_key : json }.

(** [ErrorCacheAPI.__init__]; [rstrip] is a method of strings only. *)
Definition new_api (url key : json) : res api :=
  match url with
  | JStr u =>
      Ok {| api_url := rev (Text.drop_while (Text.is_char "/") (rev u));
            api_key := key |}
  | _ => Raise AttributeError
  end.

Definition _headers (self : api) : list (str * str) :=
  let h := [("Content-Type", "application/json");
            ("Accept", "application/json")] in
  if truthy (api_key self)
  then h ++ [("Authorization", "Bearer " ++ str_of (api_key self))]
  else h.

(** What [_get] and [_post] return: the decoded body, or
    [{"error": str(e)}]. *)
Definition decoded (o : outcome) : json :=
  match o with
  | Replied v => v
  | Failed msg => JDict [("error", JStr msg)]
  end.

(** [ErrorCacheAPI._get] *)
Definition _get (self : api) (p : endpoint) (q : list (str * json))
  : M json :=
  Call {| meth := GET; base := api_url self; path := p; query := q;
          headers := _headers self; body := None; timeout := 10 |}
       (fun o => ret (decoded o)).

(** [ErrorCacheAPI._post] *)
Definition _post (self : api) (p : endpoint) (b : json) : M json :=
  Call {| meth := POST; base := api_url self; path := p; query := [];
          headers := _headers self; body := Some b; timeout := 10 |}
       (fun o => ret (decoded o)).

(** *** ErrorCacheTool *)

(** [not v or len(v) < n] *)
Definition missing_or_short (v : json) (n : Z) : res bool :=
  if negb (truthy v) then Ok true
  else res_bind (len v) (fun l => Ok (l <? n)%Z).

(** The text of [v] where [urllib.parse.quote(v[:500])] succeeds:
    slicing needs a sequence and quoting a string (for a dict the
    exception is a [KeyError] from Python 3.12 on). *)
Definition quotable (v : json) : res str :=
  match v with
  | JStr s => Ok s
  | _ => Raise TypeError
  end.

(** [v[:n]] *)
Definition prefix (n : nat) (v : json) : res json :=
  match v with
  | JStr s => Ok (JStr (firstn n s))
  | JList l => Ok (JList (firstn n l))
  | _ => Raise TypeError
  end.

(** [not resp or resp.get("error")] *)
Definition failed_response (resp : json) : res bool :=
  if negb (truthy resp) then Ok true
  else res_bind (get_of resp "error" JNull) (fun e => Ok (truthy e)).

(** The questions of the phase-1 response. *)
Definition signature_questions (results : json) : list json :=
  match results with
  | JDict d =>
      if negb (truthy (get d "error" JNull)) then
        match get d "data" results with
        | JList l => l
        | _ => []
        end
      else []
  | _ => []
  end.

(** [{q.get("id") for q in questions}] *)
Fixpoint seen_ids (questions : list json) : res (list json) :=
  match questions with
  | [] => Ok []
  | q :: rest =>
      res_bind (get_of q "id" JNull) (fun i =>
      if hashable i
      then res_bind (seen_ids rest) (fun s => Ok (i :: s))
      else Raise TypeError)
  end.

(** [for q in fts_qs: if q.get("id") not in seen: questions.append(q)] *)
Fixpoint append_unseen (seen : list json) (fts_qs : list json)
  (questions : list json) : res (list json) :=
  match fts_qs with
  | [] => Ok questions
  | q :: rest =>
      res_bind (get_of q "id" JNull) (fun i =>
      if hashable i then
        if existsb (py_eq i) seen
        then append_unseen seen rest questions
        else append_unseen seen rest (questions ++ [q])
      else Raise TypeError)
  end.

(** The list the merge loop runs over, when the phase-2 response
    [fts] holds one. *)
Definition fts_entries (fts : json) : option (list json) :=
  match fts with
  | JDict d =>
      if negb (truthy (get d "error" JNull)) then
        let fts_data := get d "data" fts in
        let fts_qs :=
          match fts_data with
          | JDict dd => get dd "questions" fts_data
          | _ => fts_data
          end in
        match fts_qs with
        | JList l => Some l
        | _ => None
        end
      else None
  | _ => None
  end.

(** The merge of the phase-2 response [fts] into [questions]. *)
Definition merge_fts (questions : list json) (fts : json)
  : res (list json) :=
  match fts_entries fts with
  | Some fts_qs =>
      res_bind (seen_ids questions) (fun seen =>
      append_unseen seen fts_qs questions)
  | None => Ok questions
  end.

(** Query of the phase-2 request. *)
Definition fts_query (error_msg : str) (remaining : Z)
  (language framework : json) : list (str * json) :=
  [("q", JStr (firstn 200 error_msg)); ("type", JStr "questions");
   ("limit", JInt remaining)]
  ++ (if truthy language then [("language", language)] else [])
  ++ (if truthy framework then [("framework", framework)] else []).

(** One entry of [formatted]. *)
Definition format_entry (q : json) : res json :=
  res_bind (get_of q "id" JNull) (fun q_id =>
  res_bind (get_of q "title" JNull) (fun title =>
  res_bind (get_of q "status" JNull) (fun status =>
  res_bind (get_of q "answer_count" (JInt 0)) (fun answer_count =>
  res_bind (get_of q "verification_count" (JInt 0)) (fun verifications =>
  res_bind (get_of q "id" (JStr "")) (fun link_id =>
  let entry :=
    [("id", q_id); ("title", title); ("status", status);
     ("answer_count", answer_count);
     ("verification_count", verifications);
     ("link", JStr ("https://errorcache.com/questions/"
                      ++ str_of link_id))] in
  res_bind (get_of q "best_answer" JNull) (fun ba =>
  if truthy ba then
    res_bind (get_of ba "id" JNull) (fun ba_id =>
    res_bind (get_of ba "root_cause" JNull) (fun rc =>
    res_bind (get_of ba "fix_approach" JNull) (fun fa =>
    res_bind (get_of ba "patch_or_commands" JNull) (fun cmds =>
    res_bind (get_of ba "verification_count" (JInt 0)) (fun vc =>
    res_bind (get_of ba "success_rate" JNull) (fun sr =>
    Ok (JDict (entry ++
          [("best_answer",
            JDict [("id", ba_id); ("root_cause", rc);
                   ("fix_approach", fa); ("commands", cmds);
                   ("verification_count", vc);
                   ("success_rate", sr)])]))))))))
  else Ok (JDict entry)))))))).

(** [for q in qs: formatted.append(entry)] *)
Fixpoint format_all (qs : list json) : res (list json) :=
  match qs with
  | [] => Ok []
  | q :: rest =>
      res_bind (format_entry q) (fun e =>
      res_bind (format_all rest) (fun es => Ok (e :: es)))
  end.

(** The merged question list of [_search], once phase 1 has answered
    [results]: phase 2 runs when the list is shorter than [limit]. *)
Definition merged_questions (self : api) (error_msg : str) (limit : Z)
  (language framework : json) (results : json) : M (list json) :=
  let questions := signature_questions results in
  if (Z.of_nat (length questions) <? limit)%Z then
    let remaining := (limit - Z.of_nat (length questions))%Z in
    fts <- _get self Search
             (fts_query error_msg remaining language framework) ;;
    lift (merge_fts questions fts)
  else ret questions.

(** The result [_search] builds from the merged list. *)
Definition search_output (results : json) (limit : Z)
  (questions : list json) : res ToolResult :=
  let search_method :=
    match results with
    | JDict d =>
        if truthy results && truthy (get d "search_method" JNull)
        then "hybrid" else "signature+fts"
    | _ => "signature+fts"
    end in
  match questions with
  | [] =>
      Ok (succeed
            (JDict [("message", JStr "No solutions found");
                    ("search_method", JStr search_method);
                    ("suggestion",
                     JStr ("Use submit_solution to share if you "
                             ++ "solve this error"))]))
  | _ =>
      res_bind (format_all (take_upto limit questions)) (fun formatted =>
      Ok (succeed
            (JDict [("results", JList formatted);
                    ("count", JInt (Z.of_nat (length formatted)));
                    ("search_method", JStr search_method)])))
  end.

(** [ErrorCacheTool._search] *)
Definition _search (self : api) (input : dict) : M ToolResult :=
  let error_msg := get input "error_message" (JStr "") in
  short <- lift (missing_or_short error_msg 3) ;;
  if short : bool
  then ret (failure "error_message is required (min 3 chars)")
  else
    let limit := get input "limit" (JInt 5) in
    let language := get input "language" (JStr "") in
    let framework := get input "framework" (JStr "") in
    msg <- lift (quotable error_msg) ;;
    results <- _get self SearchSimilar
                 [("error_signature", JStr (firstn 500 msg));
                  ("limit", limit)] ;;
    (* [len(questions) < limit] raises unless [limit] is a number *)
    lim <- lift (match as_int limit with
                 | Some z => Ok z
                 | None => Raise TypeError
                 end) ;;
    questions <- merged_questions self msg lim language framework
                   results ;;
    lift (search_output results lim questions).

(** The second half of [_submit]: post the answer under
    [question_id]. *)
Definition submit_answer (self : api) (input : dict)
  (root_cause fix_approach question_id : json) : M ToolResult :=
  let answer_body :=
    [("root_cause", root_cause); ("fix_approach", fix_approach)] in
  let answer_body :=
    if truthy (get input "commands" JNull)
    then answer_body ++ [("patch_or_commands", get input "commands" JNull)]
    else answer_body in
  a_resp <- _post self (QuestionAnswers question_id) (JDict answer_body) ;;
  bad <- lift (failed_response a_resp) ;;
  if bad : bool
  then ret (failure ("Failed to submit answer: " ++ str_of a_resp))
  else
    a_data <- lift (get_of a_resp "data" (JDict [])) ;;
    answer_id <- lift (get_of a_data "id" (JStr "unknown")) ;;
    ret (succeed
           (JDict [("message", JStr "Solution submitted to ErrorCache");
                   ("question_id", question_id);
                   ("answer_id", answer_id);
                   ("link", JStr ("https://errorcache.com/questions/"
                                    ++ str_of question_id))])).

(** [ErrorCacheTool._submit] *)
Definition _submit (self : api) (input : dict) : M ToolResult :=
  let title := get input "title" (JStr "") in
  let error_sig := get input "error_signature" (JStr "") in
  let root_cause := get input "root_cause" (JStr "") in
  let fix_approach := get input "fix_approach" (JStr "") in
  let question_id := get input "question_id" JNull in
  short <- lift (missing_or_short root_cause 20) ;;
  if short : bool
  then ret (failure "root_cause required (min 20 chars)")
  else
    short <- lift (missing_or_short fix_approach 20) ;;
    if short : bool
    then ret (failure "fix_approach required (min 20 chars)")
    else if negb (truthy question_id) then
      if negb (truthy title) || negb (truthy error_sig)
      then ret (failure ("title and error_signature required when "
                           ++ "not providing question_id"))
      else
        short_title <- lift (prefix 300 title) ;;
        q_resp <- _post self Questions
                    (JDict [("title", short_title);
                            ("error_signature", error_sig);
                            ("error_category",
                             get input "error_category" (JStr "other"));
                            ("environment", environment)]) ;;
        bad <- lift (failed_response q_resp) ;;
        if bad : bool
        then ret (failure ("Failed to create question: "
                             ++ str_of q_resp))
        else
          q_data <- lift (get_of q_resp "data" (JDict [])) ;;
          question_id <- lift (get_of q_data "id" JNull) ;;
          if negb (truthy question_id)
          then ret (failure "No question ID returned")
          else submit_answer self input root_cause fix_approach
                 question_id
    else submit_answer self input root_cause fix_approach question_id.

(** [ErrorCacheTool._verify] *)
Definition _verify (self : api) (input : dict) : M ToolResult :=
  let answer_id := get input "answer_id" (JStr "") in
  let result := get input "result" (JStr "") in
  if negb (truthy answer_id)
  then ret (failure "answer_id is required")
  else if negb (in_strs result ["pass"; "fail"; "partial"])
  then ret (failure "result must be pass, fail, or partial")
  else
    let body := [("result", result); ("environment", environment)] in
    let body :=
      if truthy (get input "evidence" JNull)
      then body ++ [("evidence", get input "evidence" JNull)]
      else body in
    resp <- _post self (AnswerVerify answer_id) (JDict body) ;;
    bad <- lift (failed_response resp) ;;
    if bad : bool
    then ret (failure ("Verification failed: " ++ str_of resp))
    else
      ret (succeed
             (JDict [("message",
                      JStr ("Verification recorded: " ++ str_of result));
                     ("answer_id", answer_id)])).

(** [ErrorCacheTool.execute]: the operation, with every exception
    turned into a failure result. *)
Definition execute (self : api) (input : dict) : M ToolResult :=
  let op := get input "operation" JNull in
  catch
    (if py_eq op (JStr "search_errors") then _search self input
     else if py_eq op (JStr "submit_solution") then _submit self input
     else if py_eq op (JStr "verify_solution") then _verify self input
     else ret (failure ("Unknown operation: " ++ str_of op)))
    (fun e =>
       ret {| success := false; output := None;
              error := Some (JDict [("message", JStr (exn_str e));
                                    ("type", JStr (exn_name e))]) |}).

(** The configuration part of [mount]: the API client the tool is
    mounted with. *)
Definition mount (config : option dict) : res api :=
  let config := match config with Some c => c | None => [] end in
  let url := get config "api_url"
               (JStr "https://api.errorcache.com/api/v1") in
  let key := get config "api_key" (JStr "") in
  new_api url key.

End Tool.

End Tool.

(** * Vocabulary of the statements

    The definitions below are not part of the program: they name the
    inputs, requests and shapes the statements of the second part speak
    about. *)

(** ** Properties of a pattern *)

Module Pattern.
Import Re.

(** [r] has no atom that accepts [c]. *)
Fixpoint rejects (r : regex) (c : ascii) : bool :=
  match r with
  | Eps => true
  | Cls p | Star p | Plus p => negb (p c)
  | Seq r1 r2 | Alt r1 r2 => rejects r1 c && rejects r2 c
  | Opt r1 => rejects r1 c
  end.

(** [r] can match the empty string. *)
Fixpoint nullable (r : regex) : bool :=
  match r with
  | Eps | Star _ | Opt _ => true
  | Cls _ | Plus _ => false
  | Seq r1 r2 => nullable r1 && nullable r2
  | Alt r1 r2 => nullable r1 || nullable r2
  end.

(** No match of [r] starts with [c]. *)
Fixpoint cannot_start (r : regex) (c : ascii) : bool :=
  match r with
  | Cls p | Plus p => negb (p c)
  | Seq r1 _ => cannot_start r1 c
  | Alt r1 r2 => cannot_start r1 c && cannot_start r2 c
  | Eps | Star _ | Opt _ => false
  end.

End Pattern.

(** ** Volatile parts of an error text *)

Module Shape.
Import Re Hook.

(** The extensions after which [FILE_PATH] stops exactly. *)
Definition extensions : list str :=
  ["py"; "js"; "ts"; "rs"; "go"; "rb"; "java"; "c"; "h"].

(** A rooted source path: [/], at least one path character, [.] and an
    extension. *)
Definition source_path (p : str) : Prop :=
  exists body ext,
    p = "/" ++ body ++ "." ++ ext
    /\ body <> []
    /\ Forall (fun c => path_char c = true) body
    /\ In ext extensions.

(** Any path-like token that ends in a recognised extension, rooted or
    not. *)
Definition path_like (p : str) : Prop :=
  exists stem ext,
    p = stem ++ "." ++ ext
    /\ stem <> []
    /\ Forall (fun c => path_char c = true) stem
    /\ In ext (extensions ++ ["cpp"]).

Definition digits (d : str) : Prop :=
  d <> [] /\ Forall (fun c => Text.is_digit c = true) d.

(** [:<line>:<col>] *)
Definition line_col (t : str) : Prop :=
  exists d1 d2, t = ":" ++ d1 ++ ":" ++ d2 /\ digits d1 /\ digits d2.

(** [line <n>], in any letter case. *)
Definition line_phrase (t : str) : Prop :=
  exists w d, t = w ++ " " ++ d /\ Text.lower w = "line" /\ digits d.

(** The text before a token does not end in a digit or a colon. *)
Definition not_after_number (pre : str) : Prop :=
  forall pre0 c, pre = pre0 ++ [c] ->
    Text.is_digit c = false /\ Text.is_char ":" c = false.

(** [a] and [b] are two volatile tokens of the same shape, [pre] being
    the text before them. *)
Definition same_shape (pre a b : str) : Prop :=
  (source_path a /\ source_path b)
  \/ (line_col a /\ line_col b /\ not_after_number pre)
  \/ (line_phrase a /\ line_phrase b).

(** The same, with paths as the key normalization is described: any
    path-like token, any context. *)
Definition same_shape_as_claimed (a b : str) : Prop :=
  (path_like a /\ path_like b)
  \/ (line_col a /\ line_col b)
  \/ (line_phrase a /\ line_phrase b).

(** *** The parts of [FILE_PATH], [LINE_COL] and [LINE_N] *)

(** The alternation that ends [FILE_PATH]. *)
Definition ext_alts : regex :=
  alts [lit "py"; lit "js"; lit "ts"; lit "rs"; lit "go"; lit "rb";
        lit "java"; lit "c"; lit "cpp"; lit "h"].

Definition after_ext (t : str) : option str := exec ext_alts t Some.

Definition after_dot (t : str) : option str :=
  match t with
  | c :: t' => if Text.is_char "." c then after_ext t' else None
  | [] => None
  end.

(** The run of path characters, then [\.(py|...)]. *)
Definition path_tail (s : str) : option str := star path_char s after_dot.

(** Past a path, the match ends where a later extension ends, or at the
    end of the path. *)
Definition path_end (post : str) : str :=
  match path_tail post with
  | Some r => r
  | None => post
  end.

(** How a match that starts in [x], before a path [p], relates to the
    same match with [p'] in the place of [p]. *)
Inductive same_match (x p p' post : str)
  : option str -> option str -> Prop :=
| same_none : same_match x p p' post None None
| same_before r :
    length r < length x ->
    same_match x p p' post (Some (r ++ p ++ post)) (Some (r ++ p' ++ post))
| same_after t : same_match x p p' post (Some t) (Some t).

(** [:\d+], the second half of [LINE_COL]. *)
Definition col_part (s : str) : option str :=
  exec (Seq (chr ":") (Plus Text.is_digit)) s Some.

(** [LINE_N] after its first letter. *)
Definition line_rest : regex := Seq (lit_i "ine ") (Plus Text.is_digit).

End Shape.

(** ** Requests and responses of the hook *)

Module Wire.
Import Py Net Hook.

(** The request [ErrorCacheClient.search] issues. *)
Definition search_request (c : client) (text : str) (limit : Z) : request :=
  {| meth := GET; base := api_url c; path := SearchSimilar;
     query := [("error_signature", JStr (firstn 500 text));
               ("limit", JInt limit)];
     headers := _headers c; body := None; timeout := 5 |}.

(** The list of questions a response carries: the response is a list, or
    a dict whose ["data"] is one. *)
Definition question_list (o : outcome) : option (list json) :=
  match o with
  | Replied (JList l) => Some l
  | Replied (JDict d) =>
      match lookup d "data" with
      | Some (JList l) => Some l
      | _ => None
      end
  | _ => None
  end.

(** The two requests of [ErrorCacheClient.submit]. *)
Definition question_request (c : client) (title signature : str)
  (environment : option dict) : request :=
  {| meth := POST; base := api_url c; path := Questions; query := [];
     headers := _headers c;
     body := Some (JDict [("title", JStr (firstn 300 title));
                          ("error_signature", JStr signature);
                          ("error_category", JStr "other");
                          ("environment",
                           match environment with
                           | Some ((_ :: _) as e) => JDict e
                           | _ => JDict []
                           end)]);
     timeout := 10 |}.

Definition answer_request (c : client) (question_id : json)
  (root_cause fix_approach : str) : request :=
  {| meth := POST; base := api_url c; path := QuestionAnswers question_id;
     query := []; headers := _headers c;
     body := Some (JDict [("root_cause", JStr root_cause);
                          ("fix_approach", JStr fix_approach)]);
     timeout := 10 |}.

(** The ID a question-creation response yields: [data.id] of a decoded
    dict, provided it is truthy. *)
Definition created_id (o : outcome) : option json :=
  match o with
  | Replied (JDict d) =>
      match get d "data" (JDict []) with
      | JDict dd =>
          if truthy (get dd "id" JNull) then Some (get dd "id" JNull)
          else None
      | _ => None
      end
  | _ => None
  end.

Definition succeeded (o : outcome) : bool :=
  match o with
  | Replied _ => true
  | Failed _ => false
  end.

(** Two calls of the shared procedure in one session. *)
Definition twice (py_str : json -> str) (self : hook)
  (text1 : str) (tool1 : json) (text2 : str) (tool2 : json)
  : io ((res HookResult * res HookResult) * hook) :=
  bind (_search_and_inject py_str self text1 tool1) (fun first =>
  bind (_search_and_inject py_str first.2 text2 tool2) (fun second =>
  Ret ((first.1, second.1), second.2))).

(** What the resolution step leaves of a tracked entry. *)
Definition after_resolution (tool : json) (old : option tracked)
  : option tracked :=
  match old with
  | Some e => if py_eq (tool_name e) tool then None else Some e
  | None => None
  end.

(** Renderings of values and of exceptions for the examples. *)
Definition no_text (v : json) : str := "".
Definition no_text_of_exn (e : exn) : str := "".

(** A service that cannot be reached. *)
Definition unreachable : server := fun _ _ => Failed "unreachable".

End Wire.

(** ** Requests and responses of the tool *)

Module ToolWire.
Import Py Net Tool.

Section Wire.
Variable py_str : json -> str.

(** The two requests of [_search]. *)
Definition signature_request (self : api) (msg : str) (limit : json)
  : request :=
  {| meth := GET; base := api_url self; path := SearchSimilar;
     query := [("error_signature", JStr (firstn 500 msg));
               ("limit", limit)];
     headers := _headers py_str self; body := None; timeout := 10 |}.

Definition fts_request (self : api) (msg : str) (remaining : Z)
  (language framework : json) : request :=
  {| meth := GET; base := api_url self; path := Search;
     query := fts_query msg remaining language framework;
     headers := _headers py_str self; body := None; timeout := 10 |}.

(** The phase-1 request of [_search] on [input], [msg] being its error
    message, and the questions the service answers it with. *)
Definition first_request (self : api) (input : dict) (msg : str)
  : request :=
  signature_request self msg (get input "limit" (JInt 5)).

Definition first_response (srv : server) (self : api) (input : dict)
  (msg : str) : json :=
  decoded (srv [] (first_request self input msg)).

Definition first_questions (srv : server) (self : api) (input : dict)
  (msg : str) : list json :=
  signature_questions (first_response srv self input msg).

(** The phase-2 request, for the limit [limit], and its response. *)
Definition second_request (srv : server) (self : api) (input : dict)
  (msg : str) (limit : Z) : request :=
  fts_request self msg
    (limit - Z.of_nat (length (first_questions srv self input msg)))
    (get input "language" (JStr "")) (get input "framework" (JStr "")).

Definition second_response (srv : server) (self : api) (input : dict)
  (msg : str) (limit : Z) : json :=
  decoded (srv [first_request self input msg]
               (second_request srv self input msg limit)).

(** What [_search] does, step by step. *)
Definition search_steps (srv : server) (self : api) (input : dict)
  : res ToolResult * list request :=
  let error_msg := get input "error_message" (JStr "") in
  let limit := get input "limit" (JInt 5) in
  match missing_or_short error_msg 3 with
  | Raise e => (Raise e, [])
  | Ok true => (Ok (failure "error_message is required (min 3 chars)"), [])
  | Ok false =>
      match quotable error_msg with
      | Raise e => (Raise e, [])
      | Ok msg =>
          let rq1 := signature_request self msg limit in
          let results := decoded (srv [] rq1) in
          let questions := signature_questions results in
          match as_int limit with
          | None => (Raise TypeError, [rq1])
          | Some lim =>
              if (Z.of_nat (length questions) <? lim)%Z then
                let rq2 :=
                  fts_request self msg
                    (lim - Z.of_nat (length questions))
                    (get input "language" (JStr ""))
                    (get input "framework" (JStr "")) in
                (res_bind (merge_fts questions (decoded (srv [rq1] rq2)))
                   (search_output py_str results lim),
                 [rq1; rq2])
              else (search_output py_str results lim questions, [rq1])
          end
      end
  end.
End Wire.






(** The field is absent, or a text of fewer than [n] characters. *)
Definition shorter_than (n : nat) (v : option json) : Prop :=
  match v with
  | None => True
  | Some (JStr s) => length s < n
  | Some _ => False
  end.

Definition operation_is (input : dict) (name : str) : Prop :=
  lookup input "operation" = Some (JStr name).

(** A constraint of the operation does not hold. *)
Definition violates (input : dict) : Prop :=
  (operation_is input "search_errors"
   /\ shorter_than 3 (lookup input "error_message"))
  \/ (operation_is input "submit_solution"
      /\ (shorter_than 20 (lookup input "root_cause")
          \/ shorter_than 20 (lookup input "fix_approach")))
  \/ (operation_is input "verify_solution"
      /\ ~ In (lookup input "result")
             [Some (JStr "pass"); Some (JStr "fail");
              Some (JStr "partial")]).

(** A structured failure: no output, an error record. *)
Definition is_failure (t : ToolResult) : Prop :=
  success t = false /\ output t = None /\ is_Some (error t).

(** The ID a question-creation response yields for [_submit]:
    [data.id] of a decoded dict, provided it is truthy. *)
Definition new_question_id (q_resp : json) : option json :=
  match q_resp with
  | JDict d =>
      match get d "data" (JDict []) with
      | JDict dd =>
          if truthy (get dd "id" JNull) then Some (get dd "id" JNull)
          else None
      | _ => None
      end
  | _ => None
  end.

(** The answer request [rq], issued after [before], was accepted if the
    result [t] reports success. *)
Definition accepted (srv : server) (before : list request) (rq : request)
  (t : ToolResult) : Prop :=
  success t = true -> failed_response (decoded (srv before rq)) = Ok false.

(** The ways a [submit_solution] can go: the requests issued, in order,
    and what the result [t] may report. *)
Definition submission (srv : server) (input : dict) (t : ToolResult)
  (log : list request) : Prop :=
  (log = [] /\ success t = false)
  \/ (exists rq, log = [rq] /\ path rq = Questions /\ success t = false)
  \/ (exists rq id,
        log = [rq] /\ lookup input "question_id" = Some id
        /\ truthy id = true /\ path rq = QuestionAnswers id
        /\ accepted srv [] rq t)
  \/ (exists rq1 rq2 id,
        log = [rq1; rq2] /\ path rq1 = Questions
        /\ new_question_id (decoded (srv [] rq1)) = Some id
        /\ path rq2 = QuestionAnswers id
        /\ accepted srv [rq1] rq2 t).

End ToolWire.

(** ** Inputs of the examples *)

Module Examples.
Import Py Net.

(** Eleven lines, the first and the last of which report an error. *)
Definition eleven_lines : str :=
  Text.join Hook.NL
    ["Error: first"; "1"; "2"; "3"; "4"; "5"; "6"; "7"; "8"; "9";
     "Error: last"].

Definition the_client : Hook.client :=
  Hook.new_client "https://api.errorcache.com/api/v1" "".

(** A hook as [mount] creates it by default. *)
Definition fresh_hook : Hook.hook :=
  Hook.new_hook the_client (JBool true) (JBool true).

(** A hook with one tracked error of the tool [bash]; [submit_on] is its
    [auto_submit]. *)
Definition tracking_hook (submit_on : bool) : Hook.hook :=
  Hook.with_tracked
    (Hook.new_hook the_client (JBool true) (JBool submit_on))
    {[ "error: broken" :=
         {| Hook.error_text := "Error: broken";
            Hook.tool_name := JStr "bash" |} ]}.

(** [tool:post] of [bash] with a plain string as result. *)
Definition bash_done : dict :=
  [("tool_name", JStr "bash"); ("result", JStr "done")].

Definition the_api : Tool.api :=
  {| Tool.api_url := "https://api.errorcache.com/api/v1";
     Tool.api_key := JStr "" |}.

Definition question (id : Z) (title : str) : json :=
  JDict [("id", JInt id); ("title", JStr title)].

(** A service that answers phase 1 with [first] and phase 2 with
    [second]. *)
Definition two_phase_server (first second : list json) : server :=
  fun _ rq =>
    match path rq with
    | SearchSimilar => Replied (JDict [("data", JList first)])
    | Search => Replied (JDict [("data", JList second)])
    | _ => Failed "not found"
    end.

(** Phase 1 knows one question; phase 2 repeats it and adds another. *)
Definition known_then_new : server :=
  two_phase_server [question 1 "known"]
    [question 1 "known"; question 2 "new"].


(** Phase 1 finds two questions, phase 2 none. *)
Definition two_found : server :=
  two_phase_server [question 1 "a"; question 2 "b"] [].

Definition import_error : str := "ImportError: no module named x".

Definition search_input (limit : Z) : dict :=
  [("operation", JStr "search_errors");
   ("error_message", JStr import_error);
   ("limit", JInt limit)].

(** Scenario 2 of the specification: a root cause of 10 characters. *)
Definition short_root_cause : dict :=
  [("operation", JStr "submit_solution");
   ("title", JStr "ImportError");
   ("error_signature", JStr "ImportError: no module named x");
   ("root_cause", JStr "not found.");
   ("fix_approach", JStr "install the missing module first")].

(** A configuration value the loader passed through literally. *)
Definition placeholder : str :=
  "${ERRORCACHE_API_URL:-https://api.errorcache.com/api/v1}".

Definition unresolved_config : dict := [("api_url", JStr placeholder)].

End Examples.

(** ** The claims of the specification that the program does not meet

    Each is stated here as the specification words it; the second part
    refutes it on an input and proves the amended statement. *)

Module AsClaimed.
Import Py Net.

(** Any two path-like tokens, [:line:col] tokens or [line <n>] phrases,
    in any context, give the same key. *)
Definition key_insensitive (pre a b post : str) : Prop :=
  Shape.same_shape_as_claimed a b ->
  Hook._error_key (pre ++ a ++ post) = Hook._error_key (pre ++ b ++ post).

(** For two such texts, neither tracked, the shared procedure searches
    at most once. *)
Definition one_search (py_str : json -> str) (srv : server)
  (self : Hook.hook) (pre a b post : str) (tool1 tool2 : json) : Prop :=
  Shape.same_shape_as_claimed a b ->
  Hook.tracked_errors self !! Hook._error_key (pre ++ a ++ post) = None ->
  Hook.tracked_errors self !! Hook._error_key (pre ++ b ++ post) = None ->
  length (run srv (Wire.twice py_str self (pre ++ a ++ post) tool1
                     (pre ++ b ++ post) tool2)).2 <= 1.

(** The signature contains every line that matches a pattern. *)
Definition extract_complete (output : str) : Prop :=
  (exists line, In line (Text.splitlines (Text.strip output))
                /\ Hook.is_error_line line = true) ->
  exists sig, Hook._extract_error_text output = Some sig
    /\ forall line, In line (Text.splitlines (Text.strip output)) ->
         Hook.is_error_line line = true -> Text.contains sig line.


(** The formatted results are as many as the reported count and never
    more than the requested limit. *)
Definition count_within_limit (py_str : json -> str) (environment : json)
  (exn_str : exn -> str) (srv : server) (self : Tool.api) (input : dict)
  : Prop :=
  forall limit t out formatted,
    ToolWire.operation_is input "search_errors" ->
    as_int (get input "limit" (JInt 5)) = Some limit ->
    (run srv (Tool.execute py_str environment exn_str self input)).1
    = Ok t ->
    Tool.output t = Some (JDict out) ->
    lookup out "results" = Some (JList formatted) ->
    lookup out "count" = Some (JInt (Z.of_nat (length formatted)))
    /\ (Z.of_nat (length formatted) <= limit)%Z.


End AsClaimed.

(** ** Vocabulary of the further properties *)

Module Config.

(** [b] holds no newline: every character is one [.] matches. *)
Definition newline_free (b : str) : Prop :=
  Forall (fun c => Re.dot c = true) b.

(** [s] holds a placeholder: [${], at least one character and no
    newline, then [}]. *)
Definition unresolved (s : str) : Prop :=
  exists a b c,
    s = a ++ "${" ++ b ++ "}" ++ c /\ b <> [] /\ newline_free b.

(** [url] is [stored] followed by slashes only, and [stored] does not
    end in one. *)
Definition without_trailing_slashes (url stored : str) : Prop :=
  (exists n, url = stored ++ repeat "/"%char n)
  /\ forall pre, stored <> pre ++ "/".

End Config.

Module Match.
Import Re.

(** [matches r m]: the pattern [r] matches the whole of [m]. *)
Inductive matches : regex -> str -> Prop :=
| matches_eps : matches Eps []
| matches_cls p c : p c = true -> matches (Cls p) [c]
| matches_seq r1 r2 m1 m2 :
    matches r1 m1 -> matches r2 m2 -> matches (Seq r1 r2) (m1 ++ m2)
| matches_alt_l r1 r2 m : matches r1 m -> matches (Alt r1 r2) m
| matches_alt_r r1 r2 m : matches r2 m -> matches (Alt r1 r2) m
| matches_star p m :
    Forall (fun c => p c = true) m -> matches (Star p) m
| matches_plus p c m :
    p c = true -> Forall (fun c => p c = true) m ->
    matches (Plus p) (c :: m)
| matches_opt_none r : matches (Opt r) []
| matches_opt_some r m : matches r m -> matches (Opt r) m.

(** No match of [r] ends with [c]. *)
Fixpoint cannot_end (r : regex) (c : ascii) : bool :=
  match r with
  | Eps => true
  | Cls p | Star p | Plus p => negb (p c)
  | Seq r1 r2 =>
      cannot_end r2 c && (negb (Pattern.nullable r2) || cannot_end r1 c)
  | Alt r1 r2 => cannot_end r1 c && cannot_end r2 c
  | Opt r1 => cannot_end r1 c
  end.

End Match.

Module Watch.
Import Py Net Hook.

(** Every tracked key is the dedup key of the text recorded under it. *)
Definition keyed (self : hook) : Prop :=
  forall k e,
    tracked_errors self !! k = Some e -> k = _error_key (error_text e).

(** The completion counts as successful: the result is no mapping, or
    its ["success"] is absent or true. *)
Definition completed_ok (result : json) : bool :=
  match result with
  | JDict d => truthy (get d "success" (JBool true))
  | _ => true
  end.

(** The handler changed nothing but the tracked errors. *)
Definition same_settings (self after : hook) : Prop :=
  hook_client after = hook_client self
  /\ auto_search after = auto_search self
  /\ auto_submit after = auto_submit self
  /\ applied_solutions after = applied_solutions self.

(** The requests are none, or one search of the hook's client with
    limit 3. *)
Definition one_search_at_most (self : hook) (log : list request) : Prop :=
  log = []
  \/ exists text, log = [Wire.search_request (hook_client self) text 3].

(** The tool, the result and the text of the output a [tool:post]
    event reports. *)
Definition completed_tool (data : dict) : json :=
  get data "tool_name" (JStr "").

Definition reported (data : dict) : json := get data "result" (JDict []).

Definition output_text (py_str : json -> str) (data : dict) : str :=
  _get_output_text py_str (reported data).

Definition shell_tools : list str := ["bash"; "Bash"; "shell"; "run_command"].

(** The hook after the resolution step of [tool:post]. *)
Definition resolved (self : hook) (data : dict) : hook :=
  drop_resolved self (completed_tool data) (reported data).

(** What lets [tool:post] look the signature [text] up. *)
Definition looked_up (py_str : json -> str) (self : hook) (data : dict)
  (text : str) : Prop :=
  truthy (auto_search self) = true
  /\ in_strs (completed_tool data) shell_tools = true
  /\ 20 <= length (output_text py_str data)
  /\ _extract_error_text (output_text py_str data) = Some text
  /\ tracked_errors (resolved self data) !! _error_key text = None.

(** A configuration value is usable or left out: a text, or a value
    that counts as false. *)
Definition text_or_unset (v : json) : Prop :=
  truthy v = false \/ exists s, v = JStr s.

(** The text [tool:error] looks up for the error information
    [info]. *)
Definition error_text_of (py_str : json -> str) (info : dict) : str :=
  str_of py_str (get info "type" (JStr "Error")) ++ ": "
  ++ str_of py_str (get info "msg" (JStr "")).

(** A [tool:error] event whose error is a plain text. *)
Definition plain_error : dict :=
  [("tool_name", JStr "bash"); ("error", JStr "boom")].

(** [bash] reports the tracked error of the examples once more. *)
Definition bash_failed_again : dict :=
  [("tool_name", JStr "bash");
   ("result", JStr "Error: broken          ")].

(** A service that answers with a list of plain strings. *)
Definition garbled : server := fun _ _ => Replied (JList [JStr "oops"]).

End Watch.

Module Trace.
Import Py Net.

(** Whatever the service answers, [m] issues [n] requests at most, each
    of them satisfies [P], and its result satisfies [Q]. *)
Fixpoint within {A} (n : nat) (P : request -> Prop) (Q : A -> Prop)
  (m : io A) {struct m} : Prop :=
  match m with
  | Ret a => Q a
  | Call rq k =>
      match n with
      | O => False
      | S n' => P rq /\ forall o, within n' P Q (k o)
      end
  end.

(** The result of a computation that may raise: [R] holds of the value
    it returns. *)
Definition returning {A} (R : A -> Prop) (r : res A) : Prop :=
  match r with
  | Ok a => R a
  | Raise _ => True
  end.

End Trace.

Module Conduct.
Import Py Net Tool ToolWire.

(** A request goes where its path belongs: the two searches are GETs
    without a body, the others POSTs with one and without a query. *)
Definition routed (rq : request) : Prop :=
  match path rq with
  | SearchSimilar | Search => meth rq = GET /\ body rq = None
  | _ => meth rq = POST /\ is_Some (body rq) /\ query rq = []
  end.

(** A request as the tool's client sends it. *)
Definition sent_by (py_str : json -> str) (self : api) (rq : request)
  : Prop :=
  base rq = api_url self /\ headers rq = _headers py_str self
  /\ timeout rq = 10%Z /\ routed rq.

(** A result is built as a success, with an output and without an
    error, or as a failure with an error. *)
Definition settled (t : ToolResult) : Prop :=
  (success t = true /\ is_Some (output t) /\ error t = None)
  \/ (success t = false /\ is_Some (error t)).


(** The operation is none of the three the tool knows. *)
Definition unknown_operation (input : dict) : Prop :=
  forall name,
    In name ["search_errors"; "submit_solution"; "verify_solution"] ->
    lookup input "operation" <> Some (JStr name).


(** A required field is missing: the answer of a verification, or the
    title or the error signature of a solution for a new question. *)
Definition lacks_required (input : dict) : Prop :=
  (operation_is input "verify_solution"
   /\ truthy (get input "answer_id" (JStr "")) = false)
  \/ (operation_is input "submit_solution"
      /\ truthy (get input "question_id" JNull) = false
      /\ (truthy (get input "title" (JStr "")) = false
          \/ truthy (get input "error_signature" (JStr "")) = false)).

(** The field is a text of [n] characters or more. *)
Definition long_text (n : nat) (input : dict) (key : str) : Prop :=
  exists s, lookup input key = Some (JStr s) /\ n <= length s.

(** The request of [_verify]. *)
Definition verify_request (py_str : json -> str) (environment : json)
  (self : api) (input : dict) : request :=
  {| meth := POST; base := api_url self;
     path := AnswerVerify (get input "answer_id" (JStr ""));
     query := []; headers := _headers py_str self;
     body :=
       Some (JDict ([("result", get input "result" (JStr ""));
                     ("environment", environment)]
                    ++ if truthy (get input "evidence" JNull)
                       then [("evidence", get input "evidence" JNull)]
                       else []));
     timeout := 10 |}.

(** The answer request of [_submit] for the question [question_id]. *)
Definition answer_request (py_str : json -> str) (self : api)
  (input : dict) (question_id : json) : request :=
  {| meth := POST; base := api_url self;
     path := QuestionAnswers question_id;
     query := []; headers := _headers py_str self;
     body :=
       Some (JDict ([("root_cause", get input "root_cause" (JStr ""));
                     ("fix_approach", get input "fix_approach" (JStr ""))]
                    ++ if truthy (get input "commands" JNull)
                       then [("patch_or_commands",
                              get input "commands" JNull)]
                       else []));
     timeout := 10 |}.

(** The response counts as an answer of the service: a mapping that is
    not empty and has no ["error"]. *)
Definition acknowledged (resp : json) : Prop :=
  failed_response resp = Ok false.

(** The formatted entry [e] carries the id and the title of the
    question [q]. *)
Definition entry_of (q e : json) : Prop :=
  exists d o,
    q = JDict d /\ e = JDict o
    /\ lookup o "id" = Some (get d "id" JNull)
    /\ lookup o "title" = Some (get d "title" JNull).


(** The failure [execute] makes of an exception. *)
Definition raised (exn_str : exn -> str) (e : exn) (name : str)
  : ToolResult :=
  {| success := false; output := None;
     error := Some (JDict [("message", JStr (exn_str e));
                           ("type", JStr name)]) |}.

(** The question request of [_submit], [title] being the title of the
    input. *)
Definition question_request (py_str : json -> str) (environment : json)
  (self : api) (input : dict) (title : str) : request :=
  {| meth := POST; base := api_url self; path := Questions;
     query := []; headers := _headers py_str self;
     body :=
       Some (JDict [("title", JStr (firstn 300 title));
                    ("error_signature",
                     get input "error_signature" (JStr ""));
                    ("error_category",
                     get input "error_category" (JStr "other"));
                    ("environment", environment)]);
     timeout := 10 |}.

(** The id of the question a response has created: the response is
    acknowledged and its [data.id] is truthy. *)
Definition question_created (q_resp : json) : option json :=
  match failed_response q_resp with
  | Ok false => new_question_id q_resp
  | _ => None
  end.

(** A solution for a new question. *)
Definition new_question : dict :=
  [("operation", JStr "submit_solution");
   ("title", JStr "ImportError");
   ("error_signature", JStr Examples.import_error);
   ("root_cause", JStr "the module is not installed");
   ("fix_approach", JStr "install the missing module first")].

(** A solution for the existing question [q1]. *)
Definition existing_question : dict :=
  [("operation", JStr "submit_solution");
   ("question_id", JStr "q1");
   ("root_cause", JStr "the module is not installed");
   ("fix_approach", JStr "install the missing module first")].


End Conduct.

(** * Properties

    The second part proves what the program does: first the general facts
    about matching and substitution, then one module per component. *)

(** ** Matching and substitution *)

Module ReFacts.
Import Re Pattern.


Section Generic.
Context {A : Type}.
Implicit Types (k : str -> option A) (s : str).

Lemma star_ext p s k1 k2 :
  (forall t, k1 t = k2 t) -> star p s k1 = star p s k2.
Proof.
  intros E. induction s as [|c s IH]; simpl; [apply E|].
  rewrite IH, E. reflexivity.
Qed.

Lemma exec_ext r : forall s k1 k2,
  (forall t, k1 t = k2 t) -> exec r s k1 = exec r s k2.
Proof.
  induction r as [|p|r1 IH1 r2 IH2|r1 IH1 r2 IH2|p|p|r1 IH1];
    intros s k1 k2 E; simpl.
  - apply E.
  - destruct s as [|c s]; [reflexivity|]. rewrite E. reflexivity.
  - apply IH1. intros t. apply IH2. exact E.
  - rewrite (IH1 s k1 k2 E), (IH2 s k1 k2 E). reflexivity.
  - apply star_ext, E.
  - destruct s as [|c s]; [reflexivity|].
    rewrite (star_ext p s k1 k2 E). reflexivity.
  - rewrite (IH1 s k1 k2 E), E. reflexivity.
Qed.

(** A successful run consumed a prefix [m] of the input. *)
Lemma star_inv p s k x :
  star p s k = Some x ->
  exists m rest, s = m ++ rest /\ k rest = Some x.
Proof.
  induction s as [|c s IH]; simpl.
  - intros H. exists [], []. auto.
  - destruct (p c).
    + destruct (star p s k) as [y|] eqn:E.
      * intros [= ->]. destruct (IH eq_refl) as (m & rest & -> & Hk).
        exists (c :: m), rest. auto.
      * intros H. exists [], (c :: s). auto.
    + intros H. exists [], (c :: s). auto.
Qed.

Lemma exec_inv r : forall s k x,
  exec r s k = Some x ->
  exists m rest, s = m ++ rest /\ k rest = Some x
                 /\ (nullable r = false -> m <> []).
Proof.
  induction r as [|p|r1 IH1 r2 IH2|r1 IH1 r2 IH2|p|p|r1 IH1];
    intros s k x; simpl.
  - intros H. exists [], s. auto.
  - destruct s as [|c s]; [discriminate|]. destruct (p c); [|discriminate].
    intros H. exists [c], s. auto.
  - intros H. apply IH1 in H. destruct H as (m1 & rest1 & -> & H & N1).
    apply IH2 in H. destruct H as (m2 & rest2 & -> & H & N2).
    exists (m1 ++ m2), rest2. rewrite <- app_assoc.
    repeat split; [exact H|]. intros N.
    apply andb_false_iff in N. destruct N as [N|N].
    + specialize (N1 N). destruct m1; [congruence | discriminate].
    + specialize (N2 N). destruct m2; [congruence|].
      destruct m1; discriminate.
  - destruct (exec r1 s k) as [y|] eqn:E.
    + intros [= ->]. apply IH1 in E.
      destruct E as (m & rest & -> & H & N). exists m, rest.
      repeat split; [exact H|]. intros N'.
      apply orb_false_iff in N'. apply N, N'.
    + intros H. apply IH2 in H.
      destruct H as (m & rest & -> & H & N). exists m, rest.
      repeat split; [exact H|]. intros N'.
      apply orb_false_iff in N'. apply N, N'.
  - intros H. apply star_inv in H. destruct H as (m & rest & -> & H).
    exists m, rest. repeat split; [exact H | discriminate].
  - destruct s as [|c s]; [discriminate|]. destruct (p c); [|discriminate].
    intros H. apply star_inv in H. destruct H as (m & rest & -> & H).
    exists (c :: m), rest. auto.
  - destruct (exec r1 s k) as [y|] eqn:E.
    + intros [= ->]. apply IH1 in E.
      destruct E as (m & rest & -> & H & N). exists m, rest.
      repeat split; [exact H | discriminate].
    + intros H. exists [], s. repeat split; [exact H | discriminate].
Qed.

(** A character the pattern rejects stops every match before it. *)
Lemma star_separator p c : p c = false -> forall x y k,
  star p (x ++ c :: y) k = star p x (fun t => k (t ++ c :: y)).
Proof.
  intros Hc x y k. induction x as [|a x IH]; simpl.
  - rewrite Hc. reflexivity.
  - rewrite IH. reflexivity.
Qed.

Lemma exec_separator r c : rejects r c = true -> forall x y k,
  exec r (x ++ c :: y) k = exec r x (fun t => k (t ++ c :: y)).
Proof.
  induction r as [|p|r1 IH1 r2 IH2|r1 IH1 r2 IH2|p|p|r1 IH1];
    simpl; intros Hc x y k.
  - reflexivity.
  - apply negb_true_iff in Hc.
    destruct x as [|a x]; simpl; [rewrite Hc|]; reflexivity.
  - apply andb_true_iff in Hc. destruct Hc as [H1 H2].
    rewrite IH1 by exact H1. apply exec_ext. intros t.
    apply IH2. exact H2.
  - apply andb_true_iff in Hc. destruct Hc as [H1 H2].
    rewrite IH1, IH2 by assumption. reflexivity.
  - apply negb_true_iff in Hc. apply star_separator. exact Hc.
  - apply negb_true_iff in Hc.
    destruct x as [|a x]; simpl; [rewrite Hc; reflexivity|].
    rewrite star_separator by exact Hc. reflexivity.
  - rewrite IH1 by exact Hc. reflexivity.
Qed.

Lemma exec_nil r k : nullable r = false -> exec r [] k = None.
Proof.
  revert k.
  induction r as [|p|r1 IH1 r2 IH2|r1 IH1 r2 IH2|p|p|r1 IH1];
    simpl; intros k N; try discriminate; try reflexivity.
  - apply andb_false_iff in N. destruct N as [N|N].
    + apply IH1, N.
    + destruct (exec r1 [] (fun s' => exec r2 s' k)) as [x|] eqn:E;
        [|reflexivity].
      apply exec_inv in E. destruct E as (m & rest & E & H & _).
      destruct m; [|discriminate]. destruct rest; [|discriminate].
      rewrite IH2 in H by exact N. discriminate.
  - apply orb_false_iff in N. destruct N as [N1 N2].
    rewrite IH1, IH2 by assumption. reflexivity.
Qed.
End Generic.

Lemma star_map {A B} (f : A -> B) p s (k : str -> option A) :
  star p s (fun t => f <$> k t) = f <$> star p s k.
Proof.
  induction s as [|c s IH]; simpl; [reflexivity|].
  destruct (p c); [|reflexivity]. rewrite IH.
  destruct (star p s k); reflexivity.
Qed.

Lemma exec_map {A B} (f : A -> B) r : forall s (k : str -> option A),
  exec r s (fun t => f <$> k t) = f <$> exec r s k.
Proof.
  induction r as [|p|r1 IH1 r2 IH2|r1 IH1 r2 IH2|p|p|r1 IH1];
    intros s k; simpl.
  - reflexivity.
  - destruct s as [|c s]; [reflexivity|]. destruct (p c); reflexivity.
  - rewrite <- IH1. apply exec_ext. intros t. apply IH2.
  - rewrite IH1, IH2. destruct (exec r1 s k); reflexivity.
  - apply star_map.
  - destruct s as [|c s]; [reflexivity|]. destruct (p c); [|reflexivity].
    apply star_map.
  - rewrite IH1. destruct (exec r1 s k); reflexivity.
Qed.

(** *** [match_at] *)

Lemma match_at_inv r s rest :
  match_at r s = Some rest ->
  exists m, s = m ++ rest /\ (nullable r = false -> m <> []).
Proof.
  intros H. apply exec_inv in H.
  destruct H as (m & rest' & -> & [= ->] & N). exists m. auto.
Qed.

Lemma match_at_shorter r s rest :
  nullable r = false -> match_at r s = Some rest ->
  length rest < length s.
Proof.
  intros N H. apply match_at_inv in H. destruct H as (m & -> & Hm).
  specialize (Hm N). rewrite length_app. destruct m; [congruence|].
  simpl. lia.
Qed.

Lemma match_at_separator r c x y :
  rejects r c = true ->
  match_at r (x ++ c :: y) = (fun t => t ++ c :: y) <$> match_at r x.
Proof.
  intros Hc. unfold match_at. rewrite exec_separator by exact Hc.
  apply (exec_map (fun t => t ++ c :: y) r x Some).
Qed.

Lemma match_at_rejected r c y :
  rejects r c = true -> nullable r = false -> match_at r (c :: y) = None.
Proof.
  intros Hc N. change (c :: y) with ([] ++ c :: y).
  rewrite (match_at_separator r c [] y Hc).
  unfold match_at. rewrite exec_nil by exact N. reflexivity.
Qed.

(** *** [sub] *)

Lemma sub_from_skip r repl : forall s n,
  sub_from r repl n s = sub r repl (skipn n s).
Proof.
  induction s as [|c s IH]; intros n.
  - destruct n; reflexivity.
  - destruct n as [|n]; [reflexivity|]. simpl. apply IH.
Qed.

Lemma sub_nil r repl : sub r repl [] = [].
Proof. reflexivity. Qed.

Lemma sub_cons r repl c s :
  sub r repl (c :: s)
  = match match_len r (c :: s) with
    | Some (S n) => repl ++ sub_from r repl n s
    | _ => c :: sub r repl s
    end.
Proof. reflexivity. Qed.

Lemma sub_no_match r repl c s :
  match_at r (c :: s) = None ->
  sub r repl (c :: s) = c :: sub r repl s.
Proof.
  intros H. rewrite sub_cons. unfold match_len. rewrite H. reflexivity.
Qed.

Lemma sub_match r repl s rest :
  nullable r = false -> match_at r s = Some rest ->
  sub r repl s = repl ++ sub r repl rest.
Proof.
  intros N H. pose proof (match_at_inv _ _ _ H) as (m & E & Hm).
  specialize (Hm N). destruct m as [|c m]; [congruence|].
  subst s. change ((c :: m) ++ rest) with (c :: m ++ rest) in *.
  rewrite sub_cons. unfold match_len. rewrite H.
  replace (length (c :: m ++ rest) - length rest) with (S (length m))
    by (simpl; rewrite length_app; lia).
  rewrite sub_from_skip. rewrite skipn_app.
  rewrite skipn_all, Nat.sub_diag. reflexivity.
Qed.

Lemma sub_separator r repl c :
  rejects r c = true -> nullable r = false -> forall x y,
  sub r repl (x ++ c :: y) = sub r repl x ++ c :: sub r repl y.
Proof.
  intros Hc N x y. remember (length x) as n eqn:En.
  revert x En. induction n as [n IH] using lt_wf_ind. intros x En.
  destruct x as [|a x]; simpl.
  - rewrite sub_no_match by (apply match_at_rejected; assumption).
    reflexivity.
  - change (a :: x ++ c :: y) with ((a :: x) ++ c :: y).
    destruct (match_at r (a :: x)) as [rest|] eqn:E.
    + pose proof (match_at_shorter _ _ _ N E) as Hlen.
      rewrite (sub_match r repl (a :: x) rest N E).
      rewrite (sub_match r repl ((a :: x) ++ c :: y) (rest ++ c :: y) N)
        by (rewrite match_at_separator, E by exact Hc; reflexivity).
      rewrite (IH (length rest)) by (subst n; auto).
      rewrite <- app_assoc. reflexivity.
    + rewrite (sub_no_match r repl a x E).
      simpl. rewrite sub_no_match
        by (change (a :: x ++ c :: y) with ((a :: x) ++ c :: y);
            rewrite match_at_separator, E by exact Hc; reflexivity).
      rewrite (IH (length x)) by (subst n; simpl; auto).
      reflexivity.
Qed.


Lemma exec_cannot_start {A} r c : cannot_start r c = true ->
  forall s (k : str -> option A), exec r (c :: s) k = None.
Proof.
  induction r as [|p|r1 IH1 r2 IH2|r1 IH1 r2 IH2|p|p|r1 IH1];
    simpl; intros H s k; try discriminate.
  - apply negb_true_iff in H. rewrite H. reflexivity.
  - apply IH1, H.
  - apply andb_true_iff in H. destruct H as [H1 H2].
    rewrite IH1, IH2 by assumption. reflexivity.
  - apply negb_true_iff in H. rewrite H. reflexivity.
Qed.

Lemma sub_skip r repl d s :
  Forall (fun c => cannot_start r c = true) d ->
  sub r repl (d ++ s) = d ++ sub r repl s.
Proof.
  induction 1 as [|c d Hc _ IH]; [reflexivity|].
  simpl. rewrite sub_no_match by (apply exec_cannot_start, Hc).
  rewrite IH. reflexivity.
Qed.

Lemma sub_untouched r repl d :
  Forall (fun c => cannot_start r c = true) d -> sub r repl d = d.
Proof.
  intros H. rewrite <- (app_nil_r d) at 1.
  rewrite sub_skip by exact H. rewrite app_nil_r. reflexivity.
Qed.

(** A greedy run whose continuation succeeds at its end. *)
Lemma star_through {A} p d s (k : str -> option A) v :
  Forall (fun c => p c = true) d ->
  star p s k = Some v -> star p (d ++ s) k = Some v.
Proof.
  intros Hd Hs. induction Hd as [|c d Hc _ IH]; [exact Hs|].
  simpl. rewrite Hc, IH. reflexivity.
Qed.

Lemma star_greedy p s : star p s Some = Some (Text.drop_while p s).
Proof.
  induction s as [|c s IH]; simpl; [reflexivity|].
  destruct (p c); [rewrite IH|]; reflexivity.
Qed.

Lemma drop_while_app p d s :
  Forall (fun c => p c = true) d ->
  Text.drop_while p (d ++ s) = Text.drop_while p s.
Proof.
  induction 1 as [|c d Hc _ IH]; [reflexivity|]. simpl. rewrite Hc. exact IH.
Qed.

(** The output of [sub] ends as the input does, or with the replacement. *)
Lemma sub_last r repl z s c :
  nullable r = false ->
  exists u c', sub r (repl ++ [z]) (s ++ [c]) = u ++ [c']
               /\ (c' = c \/ c' = z).
Proof.
  intros N. remember (length s) as n eqn:En.
  revert s En. induction n as [n IH] using lt_wf_ind. intros s En.
  destruct (match_at r (s ++ [c])) as [rest|] eqn:E.
  - rewrite (sub_match r _ _ _ N E).
    destruct (match_at_inv _ _ _ E) as (m & Em & Hm). specialize (Hm N).
    destruct rest as [|x0 rest0].
    + exists repl, z. rewrite sub_nil, app_nil_r. auto.
    + destruct (exists_last (l := x0 :: rest0)) as (rest1 & x & Er);
        [discriminate|].
      rewrite Er in *. rewrite app_assoc in Em.
      apply app_inj_tail in Em. destruct Em as [-> <-].
      assert (Hlt : length rest1 < n).
      { subst n. rewrite length_app. destruct m; [congruence|]. simpl. lia. }
      destruct (IH _ Hlt rest1 eq_refl) as (u & c' & Eu & Hc').
      exists ((repl ++ [z]) ++ u), c'. rewrite Eu.
      split; [rewrite <- !app_assoc; reflexivity | exact Hc'].
  - destruct s as [|a s]; simpl in *.
    + exists [], c. rewrite sub_no_match by exact E. auto.
    + rewrite sub_no_match by exact E.
      assert (Hlt : length s < n) by (subst n; simpl; lia).
      destruct (IH _ Hlt s eq_refl) as (u & c' & Eu & Hc').
      exists (a :: u), c'. rewrite Eu. auto.
Qed.

Lemma sub_app r repl z :
  nullable r = false ->
  (forall a x, match_at r ((a :: x) ++ z)
               = (fun t => t ++ z) <$> match_at r (a :: x)) ->
  forall x, sub r repl (x ++ z) = sub r repl x ++ sub r repl z.
Proof.
  intros N H x. remember (length x) as n eqn:En.
  revert x En. induction n as [n IH] using lt_wf_ind. intros x En.
  destruct x as [|a x]; [reflexivity|].
  specialize (H a x). cbn [app] in *.
  destruct (match_at r (a :: x)) as [rest|] eqn:E; cbn in H.
  - rewrite (sub_match r repl _ _ N E), (sub_match r repl _ _ N H).
    apply match_at_shorter in E; [|exact N].
    rewrite (IH (length rest)) by (subst n; auto).
    rewrite <- app_assoc. reflexivity.
  - rewrite (sub_no_match r repl a x E).
    rewrite (sub_no_match r repl _ _ H).
    rewrite (IH (length x)) by (subst n; simpl; auto). reflexivity.
Qed.

End ReFacts.

(** ** The dedup key *)

Module KeyFacts.
Import Re Pattern Shape Hook ReFacts.


Lemma match_at_FILE_PATH s :
  match_at FILE_PATH s
  = match s with
    | c0 :: c :: s' =>
        if Text.is_char "/" c0 then
          if path_char c then path_tail s' else None
        else None
    | _ => None
    end.
Proof.
  destruct s as [|c0 [|c s']]; try reflexivity.
  unfold match_at, FILE_PATH. simpl.
  destruct (Text.is_char "/" c0); reflexivity.
Qed.

Lemma after_ext_good ext post :
  In ext extensions -> after_ext (ext ++ post) = Some post.
Proof.
  unfold extensions. simpl.
  intros [<-|[<-|[<-|[<-|[<-|[<-|[<-|[<-|[<-|[]]]]]]]]]]; reflexivity.
Qed.

Lemma after_ext_shorter t r : after_ext t = Some r -> length r < length t.
Proof.
  intros H. apply (match_at_shorter ext_alts); [reflexivity | exact H].
Qed.

Lemma path_tail_nil : path_tail [] = None.
Proof. reflexivity. Qed.

Lemma path_tail_cons c s :
  path_tail (c :: s)
  = if path_char c then
      match path_tail s with
      | Some r => Some r
      | None => after_dot (c :: s)
      end
    else after_dot (c :: s).
Proof. reflexivity. Qed.

Lemma path_tail_stop c s : path_char c = false -> path_tail (c :: s) = None.
Proof.
  intros H. rewrite path_tail_cons, H. simpl.
  destruct (Text.is_char "." c) eqn:E; [|reflexivity].
  apply Ascii.eqb_eq in E. subst c. discriminate.
Qed.

Lemma path_tail_pass c s :
  path_char c = true -> Text.is_char "." c = false ->
  path_tail (c :: s) = path_tail s.
Proof.
  intros H D. rewrite path_tail_cons, H. simpl. rewrite D.
  destruct (path_tail s); reflexivity.
Qed.

Lemma path_tail_dot s :
  path_tail ("." ++ s)
  = match path_tail s with
    | Some r => Some r
    | None => after_ext s
    end.
Proof. reflexivity. Qed.

Lemma path_tail_shorter s r : path_tail s = Some r -> length r < length s.
Proof.
  intros H. apply star_inv in H. destruct H as (m & rest & -> & H).
  destruct rest as [|c t]; [discriminate|]. simpl in H.
  destruct (Text.is_char "." c); [|discriminate].
  apply after_ext_shorter in H. rewrite length_app. simpl. lia.
Qed.

Lemma path_tail_ext ext post :
  In ext extensions -> path_tail (ext ++ post) = path_tail post.
Proof.
  unfold extensions. simpl.
  intros [<-|[<-|[<-|[<-|[<-|[<-|[<-|[<-|[<-|[]]]]]]]]]]; simpl;
    rewrite ?path_tail_pass by reflexivity; reflexivity.
Qed.

Lemma path_end_length post : length (path_end post) <= length post.
Proof.
  unfold path_end. destruct (path_tail post) as [r|] eqn:E; [|lia].
  apply path_tail_shorter in E. lia.
Qed.

Lemma path_tail_body w ext post :
  Forall (fun c => path_char c = true) w -> In ext extensions ->
  path_tail (w ++ "." ++ ext ++ post) = Some (path_end post).
Proof.
  intros Hw He. induction Hw as [|c w Hc _ IH].
  - simpl app. change ("."%char :: ext ++ post) with ("." ++ ext ++ post).
    rewrite path_tail_dot, path_tail_ext, after_ext_good by exact He.
    unfold path_end. destruct (path_tail post); reflexivity.
  - simpl app in *. rewrite path_tail_cons, Hc, IH. reflexivity.
Qed.

Lemma match_at_source_path p post :
  source_path p -> match_at FILE_PATH (p ++ post) = Some (path_end post).
Proof.
  intros (body & ext & -> & Hne & Hbody & Hext).
  destruct body as [|b body]; [congruence|].
  inversion Hbody as [|? ? Hb Hrest]; subst.
  rewrite match_at_FILE_PATH. simpl. rewrite Hb.
  rewrite <- !app_assoc.
  apply (path_tail_body body ext post Hrest Hext).
Qed.

Lemma path_tail_source_path p post :
  source_path p -> path_tail (p ++ post) = Some (path_end post).
Proof.
  intros (body & ext & -> & Hne & Hbody & Hext).
  simpl app. rewrite path_tail_pass by reflexivity.
  rewrite <- !app_assoc.
  apply (path_tail_body body ext post Hbody Hext).
Qed.

Lemma source_path_slash p :
  source_path p -> exists q, p = "/" ++ q.
Proof. intros (body & ext & -> & _). eexists. reflexivity. Qed.

Lemma after_ext_before_slash x rest :
  after_ext (x ++ "/"%char :: rest)
  = (fun t => t ++ "/"%char :: rest) <$> after_ext x.
Proof. apply (match_at_separator ext_alts "/" x rest). reflexivity. Qed.

Lemma path_tail_context x p p' post :
  source_path p -> source_path p' ->
  same_match ("."%char :: x) p p' post
    (path_tail (x ++ p ++ post)) (path_tail (x ++ p' ++ post)).
Proof.
  intros Hp Hp'. induction x as [|c x IH].
  - simpl. rewrite !path_tail_source_path by assumption. constructor.
  - simpl app. rewrite !path_tail_cons.
    assert (Hdot : same_match ("."%char :: c :: x) p p' post
                     (after_dot (c :: x ++ p ++ post))
                     (after_dot (c :: x ++ p' ++ post))).
    { simpl. destruct (Text.is_char "." c); [|constructor].
      destruct (source_path_slash p Hp) as (q & ->).
      destruct (source_path_slash p' Hp') as (q' & ->).
      change (x ++ ("/" ++ q) ++ post) with (x ++ "/"%char :: q ++ post).
      change (x ++ ("/" ++ q') ++ post) with (x ++ "/"%char :: q' ++ post).
      rewrite !after_ext_before_slash.
      destruct (after_ext x) as [t|] eqn:E; simpl; [|constructor].
      apply after_ext_shorter in E.
      apply (same_before _ ("/" ++ q) ("/" ++ q') post t). simpl. lia. }
    destruct (path_char c); [|exact Hdot].
    inversion IH as [Ha Hb | r Hr Ha Hb | t Ha Hb].
    + exact Hdot.
    + constructor. simpl in *. lia.
    + constructor.
Qed.

Lemma match_at_path_context x p p' post :
  source_path p -> source_path p' ->
  same_match x p p' post
    (match_at FILE_PATH (x ++ p ++ post))
    (match_at FILE_PATH (x ++ p' ++ post)).
Proof.
  intros Hp Hp'. destruct x as [|c0 [|c x]].
  - simpl. rewrite !match_at_source_path by assumption. constructor.
  - destruct (source_path_slash p Hp) as (q & ->).
    destruct (source_path_slash p' Hp') as (q' & ->).
    rewrite !match_at_FILE_PATH. simpl.
    destruct (Text.is_char "/" c0); [|constructor].
    pose proof (path_tail_source_path _ post Hp) as E.
    pose proof (path_tail_source_path _ post Hp') as E'.
    simpl in E, E'. rewrite path_tail_pass in E, E' by reflexivity.
    rewrite E, E'. constructor.
  - rewrite !match_at_FILE_PATH. simpl.
    destruct (Text.is_char "/" c0); [|constructor].
    destruct (path_char c); [|constructor].
    pose proof (path_tail_context x p p' post Hp Hp') as H.
    inversion H as [Ha Hb | r Hr Ha Hb | t Ha Hb]; constructor.
    simpl in *. lia.
Qed.

Lemma sub_path_context repl pre p p' post :
  source_path p -> source_path p' ->
  sub FILE_PATH repl (pre ++ p ++ post)
  = sub FILE_PATH repl (pre ++ p' ++ post).
Proof.
  intros Hp Hp'. remember (length pre) as n eqn:En.
  revert pre En. induction n as [n IH] using lt_wf_ind. intros pre En.
  pose proof (match_at_path_context pre p p' post Hp Hp') as H.
  inversion H as [Ha Hb | r Hr Ha Hb | t Ha Hb].
  - destruct pre as [|a pre].
    + simpl in Ha. rewrite match_at_source_path in Ha by exact Hp.
      discriminate.
    + simpl app in *. rewrite !sub_no_match by (symmetry; assumption).
      f_equal. apply (IH (length pre)); [subst n; simpl; lia | reflexivity].
  - rewrite (sub_match FILE_PATH _ _ _ eq_refl (eq_sym Ha)).
    rewrite (sub_match FILE_PATH _ _ _ eq_refl (eq_sym Hb)).
    f_equal. apply (IH (length r)); [subst n; lia | reflexivity].
  - rewrite (sub_match FILE_PATH _ _ _ eq_refl (eq_sym Ha)).
    rewrite (sub_match FILE_PATH _ _ _ eq_refl (eq_sym Hb)).
    reflexivity.
Qed.

Lemma error_key_path_context pre p p' post :
  source_path p -> source_path p' ->
  _error_key (pre ++ p ++ post) = _error_key (pre ++ p' ++ post).
Proof.
  intros Hp Hp'. unfold _error_key.
  rewrite (sub_path_context _ pre p p' post Hp Hp'). reflexivity.
Qed.


Lemma lower_char_cases c x :
  In x ["l"; "i"; "n"; "e"]%char -> Text.lower_char c = x ->
  c = x \/ c = ascii_of_N (Text.code x - 32).
Proof.
  intros Hx.
  destruct c as [[] [] [] [] [] [] [] []];
    simpl in Hx; destruct Hx as [<-|[<-|[<-|[<-|[]]]]];
    vm_compute; intros H; first [discriminate H | auto].
Qed.

Lemma word_cases w :
  Text.lower w = "line" ->
  exists l i n e, w = [l; i; n; e]
    /\ (l = "l" \/ l = "L")%char /\ (i = "i" \/ i = "I")%char
    /\ (n = "n" \/ n = "N")%char /\ (e = "e" \/ e = "E")%char.
Proof.
  destruct w as [|l [|i [|n [|e [|? ?]]]]]; try discriminate.
  intros [= Hl Hi Hn He]. exists l, i, n, e.
  split; [reflexivity|].
  repeat split; eapply lower_char_cases; try eassumption; simpl; auto.
Qed.

Lemma digit_facts c :
  Text.is_digit c = true ->
  cannot_start FILE_PATH c = true /\ cannot_start LINE_COL c = true
  /\ cannot_start LINE_N c = true.
Proof.
  destruct c as [[] [] [] [] [] [] [] []]; vm_compute;
    intros H; first [discriminate H | auto].
Qed.

Lemma digits_cannot_start d :
  Forall (fun c => Text.is_digit c = true) d ->
  Forall (fun c => cannot_start FILE_PATH c = true) d
  /\ Forall (fun c => cannot_start LINE_COL c = true) d.
Proof.
  intros H. split; eapply Forall_impl; try exact H;
    intros c Hc; apply digit_facts in Hc; tauto.
Qed.

Lemma match_at_LINE_COL s :
  match_at LINE_COL s
  = match s with
    | c :: a :: s' =>
        if Text.is_char ":" c then
          if Text.is_digit a then star Text.is_digit s' col_part else None
        else None
    | _ => None
    end.
Proof.
  destruct s as [|c [|a s']]; try reflexivity;
    unfold match_at, LINE_COL; simpl;
    destruct (Text.is_char ":" c); reflexivity.
Qed.

Lemma col_part_digits d rest :
  digits d ->
  col_part (":" ++ d ++ rest) = Some (Text.drop_while Text.is_digit rest).
Proof.
  intros [Hne Hd]. destruct d as [|b d]; [congruence|].
  inversion Hd as [|? ? Hb Hd']; subst.
  unfold col_part. simpl. rewrite Hb, star_greedy.
  rewrite drop_while_app by exact Hd'. reflexivity.
Qed.

Lemma match_at_line_col t rest :
  line_col t ->
  match_at LINE_COL (t ++ rest)
  = Some (Text.drop_while Text.is_digit rest).
Proof.
  intros (d1 & d2 & -> & [Hne1 Hd1] & H2).
  destruct d1 as [|a d1]; [congruence|].
  inversion Hd1 as [|? ? Ha Hd1']; subst.
  rewrite match_at_LINE_COL. simpl. rewrite Ha.
  rewrite <- !app_assoc.
  apply star_through; [exact Hd1'|].
  change (":"%char :: d2 ++ rest) with (":" ++ d2 ++ rest).
  simpl star. apply col_part_digits. exact H2.
Qed.

Lemma sub_FILE_PATH_line_col pre t post :
  line_col t ->
  sub FILE_PATH "<FILE>" (pre ++ t ++ post)
  = sub FILE_PATH "<FILE>" pre ++ t ++ sub FILE_PATH "<FILE>" post.
Proof.
  intros (d1 & d2 & -> & [_ Hd1] & [_ Hd2]).
  apply digits_cannot_start in Hd1, Hd2.
  rewrite <- !app_assoc.
  change (pre ++ ":" ++ d1 ++ ":" ++ d2 ++ post)
    with (pre ++ ":"%char :: d1 ++ ":"%char :: d2 ++ post).
  rewrite (sub_separator FILE_PATH _ ":") by reflexivity.
  rewrite (sub_separator FILE_PATH _ ":") by reflexivity.
  rewrite (sub_untouched FILE_PATH _ d1) by apply Hd1.
  rewrite (sub_skip FILE_PATH _ d2) by apply Hd2. reflexivity.
Qed.

Lemma not_after_number_sub pre :
  not_after_number pre ->
  not_after_number (sub FILE_PATH "<FILE>" pre).
Proof.
  intros H X0 x E.
  destruct (exists_last (l := pre)) as (pre0 & c & ->).
  { intros ->. destruct X0; discriminate. }
  destruct (sub_last FILE_PATH "<FILE" ">" pre0 c eq_refl)
    as (u & c' & Eu & Hc').
  change ("<FILE" ++ [">"%char]) with "<FILE>" in Eu.
  rewrite Eu in E. apply app_inj_tail in E. destruct E as [_ <-].
  destruct Hc' as [->| ->]; [eapply H; reflexivity | split; reflexivity].
Qed.

Lemma rejects_LINE_COL c :
  Text.is_digit c = false -> Text.is_char ":" c = false ->
  rejects LINE_COL c = true.
Proof.
  intros Hd Hc.
  change (rejects LINE_COL c)
    with (negb (Text.is_char ":" c)
          && (negb (Text.is_digit c)
              && (negb (Text.is_char ":" c) && negb (Text.is_digit c)))).
  rewrite Hd, Hc. reflexivity.
Qed.

Lemma sub_LINE_COL_line_col X t Y :
  not_after_number X -> line_col t ->
  sub LINE_COL ":<N>" (X ++ t ++ Y)
  = sub LINE_COL ":<N>" X ++ ":<N>"
      ++ sub LINE_COL ":<N>" (Text.drop_while Text.is_digit Y).
Proof.
  intros HX Ht.
  assert (Htok : sub LINE_COL ":<N>" (t ++ Y)
                 = ":<N>" ++ sub LINE_COL ":<N>"
                               (Text.drop_while Text.is_digit Y)).
  { apply sub_match; [reflexivity | apply match_at_line_col, Ht]. }
  destruct X as [|x0 X0]; [exact Htok|].
  destruct (exists_last (l := x0 :: X0)) as (u & c & E); [discriminate|].
  rewrite E. destruct (HX u c E) as [Hd Hc].
  pose proof (rejects_LINE_COL c Hd Hc) as HR.
  replace ((u ++ [c]) ++ t ++ Y) with (u ++ c :: t ++ Y)
    by (rewrite <- app_assoc; reflexivity).
  rewrite (sub_separator LINE_COL ":<N>" c HR eq_refl u (t ++ Y)).
  rewrite (sub_separator LINE_COL ":<N>" c HR eq_refl u []).
  rewrite Htok, sub_nil, <- app_assoc. reflexivity.
Qed.

Lemma error_key_line_col pre t t' post :
  not_after_number pre -> line_col t -> line_col t' ->
  _error_key (pre ++ t ++ post) = _error_key (pre ++ t' ++ post).
Proof.
  intros Hpre Ht Ht'. unfold _error_key.
  rewrite !sub_FILE_PATH_line_col by assumption.
  rewrite !sub_LINE_COL_line_col
    by (try apply not_after_number_sub; assumption).
  reflexivity.
Qed.

(** *** [line <n>] phrases *)

Ltac split_word H :=
  let l := fresh "l" in
  let i := fresh "i" in
  let n := fresh "n" in
  let e := fresh "e" in
  destruct (word_cases _ H)
    as (l & i & n & e & -> & [-> | ->] & [-> | ->] & [-> | ->] & [-> | ->]).

Lemma path_tail_before_word x w :
  Text.lower w = "line" ->
  path_tail (x ++ w) = (fun t => t ++ w) <$> path_tail x.
Proof.
  intros Hw. induction x as [|c x IH].
  - split_word Hw; reflexivity.
  - simpl app. rewrite !path_tail_cons, IH.
    assert (Hdot : after_dot (c :: x ++ w)
                   = (fun t => t ++ w) <$> after_dot (c :: x)).
    { simpl. destruct (Text.is_char "." c); [|reflexivity].
      split_word Hw;
        apply (match_at_separator ext_alts _ x); reflexivity. }
    rewrite Hdot.
    destruct (path_char c); [|reflexivity].
    destruct (path_tail x); reflexivity.
Qed.

Lemma match_at_FILE_PATH_before_word a x w :
  Text.lower w = "line" ->
  match_at FILE_PATH ((a :: x) ++ w)
  = (fun t => t ++ w) <$> match_at FILE_PATH (a :: x).
Proof.
  intros Hw. rewrite !match_at_FILE_PATH.
  destruct x as [|c x].
  - split_word Hw; simpl; destruct (Text.is_char "/" a); reflexivity.
  - cbn [app]. destruct (Text.is_char "/" a); [|reflexivity].
    destruct (path_char c); [|reflexivity].
    apply path_tail_before_word, Hw.
Qed.

Lemma word_cannot_start w :
  Text.lower w = "line" ->
  Forall (fun c => cannot_start FILE_PATH c = true) w
  /\ Forall (fun c => cannot_start LINE_COL c = true) w
  /\ Forall (fun c => rejects LINE_COL c = true) w.
Proof.
  intros Hw. split_word Hw; repeat split; repeat constructor.
Qed.

Lemma sub_FILE_PATH_line_phrase pre t post :
  line_phrase t ->
  sub FILE_PATH "<FILE>" (pre ++ t ++ post)
  = sub FILE_PATH "<FILE>" pre ++ t ++ sub FILE_PATH "<FILE>" post.
Proof.
  intros (w & d & -> & Hw & [_ Hd]).
  apply digits_cannot_start in Hd.
  replace (pre ++ (w ++ " " ++ d) ++ post)
    with ((pre ++ w) ++ " "%char :: d ++ post)
    by (rewrite <- !app_assoc; reflexivity).
  rewrite (sub_separator FILE_PATH _ " ") by reflexivity.
  rewrite (sub_app FILE_PATH _ w eq_refl)
    by (intros; apply match_at_FILE_PATH_before_word, Hw).
  rewrite (sub_untouched FILE_PATH _ w) by apply word_cannot_start, Hw.
  rewrite (sub_skip FILE_PATH _ d) by apply Hd.
  rewrite <- !app_assoc. reflexivity.
Qed.

Lemma sub_LINE_COL_line_phrase X t Y :
  line_phrase t ->
  sub LINE_COL ":<N>" (X ++ t ++ Y)
  = sub LINE_COL ":<N>" X ++ t ++ sub LINE_COL ":<N>" Y.
Proof.
  intros (w & d & -> & Hw & [_ Hd]).
  apply digits_cannot_start in Hd.
  destruct (word_cannot_start w Hw) as (_ & Hstart & Hrej).
  destruct w as [|l w']; [discriminate|].
  inversion Hrej as [|? ? Hl _]; subst.
  inversion Hstart as [|? ? _ Hw']; subst.
  replace (X ++ ((l :: w') ++ " " ++ d) ++ Y)
    with (X ++ l :: (w' ++ " ") ++ d ++ Y)
    by (simpl; rewrite <- !app_assoc; reflexivity).
  rewrite (sub_separator LINE_COL _ l Hl eq_refl).
  rewrite (sub_skip LINE_COL _ (w' ++ " "))
    by (apply Forall_app; split; [exact Hw' | repeat constructor]).
  rewrite (sub_skip LINE_COL _ d) by apply Hd.
  simpl. rewrite <- !app_assoc. reflexivity.
Qed.

Lemma match_at_LINE_N a s :
  match_at LINE_N (a :: s)
  = if Ascii.eqb (Text.lower_char a) "l" then match_at line_rest s
    else None.
Proof. reflexivity. Qed.

Lemma match_at_line_phrase t Y :
  line_phrase t ->
  match_at LINE_N (t ++ Y) = Some (Text.drop_while Text.is_digit Y).
Proof.
  intros (w & d & -> & Hw & [Hne Hd]).
  destruct d as [|b d]; [congruence|].
  inversion Hd as [|? ? Hb Hd']; subst.
  split_word Hw; unfold match_at, LINE_N; simpl; rewrite Hb, star_greedy;
    rewrite drop_while_app by exact Hd'; reflexivity.
Qed.

Lemma match_at_LINE_N_before a x t Y :
  line_phrase t ->
  match_at LINE_N ((a :: x) ++ t ++ Y)
  = (fun r => r ++ t ++ Y) <$> match_at LINE_N (a :: x).
Proof.
  intros (w & d & -> & Hw & _). simpl app. rewrite !match_at_LINE_N.
  destruct (Ascii.eqb (Text.lower_char a) "l"); [|reflexivity].
  split_word Hw;
    apply (match_at_separator line_rest _ x); reflexivity.
Qed.

Lemma sub_LINE_N_line_phrase X t Y :
  line_phrase t ->
  sub LINE_N "line <N>" (X ++ t ++ Y)
  = sub LINE_N "line <N>" X ++ "line <N>"
      ++ sub LINE_N "line <N>" (Text.drop_while Text.is_digit Y).
Proof.
  intros Ht.
  rewrite (sub_app LINE_N _ (t ++ Y) eq_refl)
    by (intros; apply match_at_LINE_N_before, Ht).
  rewrite (sub_match LINE_N _ (t ++ Y) _ eq_refl
             (match_at_line_phrase t Y Ht)).
  reflexivity.
Qed.

Lemma error_key_line_phrase pre t t' post :
  line_phrase t -> line_phrase t' ->
  _error_key (pre ++ t ++ post) = _error_key (pre ++ t' ++ post).
Proof.
  intros Ht Ht'. unfold _error_key.
  rewrite !sub_FILE_PATH_line_phrase by assumption.
  rewrite !sub_LINE_COL_line_phrase by assumption.
  rewrite !sub_LINE_N_line_phrase by assumption.
  reflexivity.
Qed.

(** C2, counterexample: [File x.py, line 3] and [File y.py, line 3]
    differ only in a source-file name, which has no leading [/] and is
    left in place; the two keys differ. *)
Lemma error_key_relative_path :
  ~ AsClaimed.key_insensitive "File " "x.py" "y.py" ", line 3".
Proof.
  intros H.
  assert (Hshape : same_shape_as_claimed "x.py" "y.py").
  { left. split.
    - exists "x", "py". repeat split;
        [discriminate | repeat constructor | simpl; auto].
    - exists "y", "py". repeat split;
        [discriminate | repeat constructor | simpl; auto]. }
  specialize (H Hshape). vm_compute in H. discriminate H.
Qed.

(** A [:line:col] token that follows [:1] is matched together with it:
    of [:1:2:3] and [:1:4:5] the substitution leaves [:3] and [:5]. *)
Lemma error_key_line_col_after_number :
  line_col ":2:3" /\ line_col ":4:5"
  /\ _error_key (":1" ++ ":2:3" ++ "") = ":<n>:3"
  /\ _error_key (":1" ++ ":4:5" ++ "") = ":<n>:5".
Proof.
  repeat split; try reflexivity.
  - exists "2", "3". repeat split; try discriminate; repeat constructor.
  - exists "4", "5". repeat split; try discriminate; repeat constructor.
Qed.

(** A [.cpp] path is cut after [.c], the alternative [c] being tried
    before [cpp]. *)
Lemma error_key_cpp :
  _error_key "in /src/main.cpp" = "in <file>pp"
  /\ _error_key "in /src/main.py" = "in <file>".
Proof. split; reflexivity. Qed.

(** C2 (amended): two error texts that differ only in a rooted source
    path ([/], path characters, [.] and one of the extensions py, js, ts,
    rs, go, rb, java, c, h), in a [:line:col] token that does not follow
    a digit or a colon, or in a [line <n>] phrase, have the same dedup
    key. *)
Theorem error_key_insensitive pre a b post :
  same_shape pre a b ->
  _error_key (pre ++ a ++ post) = _error_key (pre ++ b ++ post).
Proof.
  intros [[Ha Hb]|[(Ha & Hb & Hpre)|[Ha Hb]]].
  - apply error_key_path_context; assumption.
  - apply error_key_line_col; assumption.
  - apply error_key_line_phrase; assumption.
Qed.

Lemma error_key_insensitive_witness :
  same_shape "File " "/srv/app/main.py" "/home/dev/lib/util.js"
  /\ _error_key ("File " ++ "/srv/app/main.py" ++ ", line 3")
     = _error_key ("File " ++ "/home/dev/lib/util.js" ++ ", line 3").
Proof.
  assert (H : same_shape "File " "/srv/app/main.py" "/home/dev/lib/util.js").
  { left. split.
    - exists "srv/app/main", "py". repeat split;
        [discriminate | repeat constructor | simpl; auto].
    - exists "home/dev/lib/util", "js". repeat split;
        [discriminate | repeat constructor | simpl; auto]. }
  split; [exact H | apply (error_key_insensitive _ _ _ _ H)].
Defined.
End KeyFacts.

(** ** The error extractor *)

Module ExtractFacts.
Import Hook.

Lemma capture_lines_skip before rest :
  Forall (fun l => is_error_line l = false) before ->
  capture_lines (before ++ rest) false [] = capture_lines rest false [].
Proof.
  induction 1 as [|l before Hl _ IH]; [reflexivity|].
  simpl. rewrite Hl. exact IH.
Qed.

Lemma capture_lines_capturing lines acc :
  length acc < 10 ->
  capture_lines lines true acc = acc ++ firstn (10 - length acc) lines.
Proof.
  revert acc. induction lines as [|l lines IH]; intros acc Hacc.
  - simpl. rewrite firstn_nil, app_nil_r. reflexivity.
  - cbn [capture_lines].
    replace (if is_error_line l then true else true) with true
      by (destruct (is_error_line l); reflexivity).
    cbv zeta.
    destruct (Nat.leb_spec 10 (length (acc ++ [l]))) as [Hge|Hlt].
    + rewrite length_app in Hge. simpl in Hge.
      replace (10 - length acc) with 1 by lia. reflexivity.
    + rewrite IH by exact Hlt. rewrite length_app in *. simpl in *.
      replace (10 - length acc) with (S (10 - (length acc + 1))) by lia.
      simpl. rewrite <- app_assoc. reflexivity.
Qed.

Lemma capture_lines_first first after :
  is_error_line first = true ->
  capture_lines (first :: after) false [] = firstn 10 (first :: after).
Proof.
  intros Hf. cbn [capture_lines]. rewrite Hf. cbv zeta.
  change (10 <=? length ([] ++ [first])) with false. cbv iota.
  rewrite capture_lines_capturing by (simpl; lia). reflexivity.
Qed.

Lemma join_contains sep (x : str) parts :
  In x parts -> Text.contains (Text.join sep parts) x.
Proof.
  induction parts as [|p parts IH]; [intros []|].
  intros [->|Hin].
  - destruct parts as [|q parts].
    + exists [], []. simpl. rewrite app_nil_r. reflexivity.
    + exists [], (sep ++ Text.join sep (q :: parts)). reflexivity.
  - destruct parts as [|q parts]; [destruct Hin|].
    destruct (IH Hin) as (b & a & E).
    exists (p ++ sep ++ b), a.
    change (Text.join sep (p :: q :: parts))
      with (p ++ sep ++ Text.join sep (q :: parts)).
    rewrite E. rewrite <- !app_assoc. reflexivity.
Qed.

Lemma first_error_line lines :
  (exists line, In line lines /\ is_error_line line = true) ->
  exists before first after,
    lines = before ++ first :: after
    /\ Forall (fun l => is_error_line l = false) before
    /\ is_error_line first = true.
Proof.
  induction lines as [|l lines IH]; intros (line & Hin & Hline).
  - destruct Hin.
  - destruct (is_error_line l) eqn:El.
    + exists [], l, lines. repeat split; [constructor | exact El].
    + destruct Hin as [->|Hin]; [congruence|].
      destruct IH as (before & first & after & -> & Hb & Hf);
        [exists line; split; assumption|].
      exists (l :: before), first, after.
      repeat split; [constructor; assumption | exact Hf].
Qed.

Lemma extract_window output before first after :
  Text.splitlines (Text.strip output) = before ++ first :: after ->
  Forall (fun l => is_error_line l = false) before ->
  is_error_line first = true ->
  _extract_error_text output
  = Some (Text.join NL (firstn 10 (first :: after))).
Proof.
  intros Hlines Hb Hf. unfold _extract_error_text.
  rewrite Hlines, capture_lines_skip by exact Hb.
  rewrite capture_lines_first by exact Hf. reflexivity.
Qed.

Lemma starts_with_spec s prefix :
  Text.starts_with s prefix = true <-> exists rest, s = prefix ++ rest.
Proof.
  revert s. induction prefix as [|p prefix IH]; intros s; simpl.
  - split; [intros _; exists s; reflexivity | reflexivity].
  - destruct s as [|c s]; simpl.
    + split; [discriminate | intros (rest & E); discriminate].
    + rewrite andb_true_iff, IH, Ascii.eqb_eq. split.
      * intros (-> & rest & ->). exists rest. reflexivity.
      * intros (rest & E). injection E as -> ->. split; [reflexivity|].
        exists rest. reflexivity.
Qed.

Lemma contains_spec s needle :
  Text.contains s needle <-> Text.contains_b s needle = true.
Proof.
  split.
  - intros (before & after & ->).
    induction before as [|c before IH]; simpl.
    + destruct (needle ++ after) eqn:E; simpl;
        (replace (Text.starts_with _ needle) with true;
         [reflexivity | symmetry; apply starts_with_spec; exists after;
                        rewrite <- E; reflexivity]).
    + rewrite IH. apply orb_true_r.
  - induction s as [|c s IH]; simpl.
    + rewrite orb_false_r. intros H. apply starts_with_spec in H.
      destruct H as (rest & E). exists [], rest. exact E.
    + intros H. apply orb_true_iff in H. destruct H as [H|H].
      * apply starts_with_spec in H. destruct H as (rest & E).
        exists [], rest. exact E.
      * destruct (IH H) as (b & a & ->). exists (c :: b), a. reflexivity.
Qed.

(** C4, counterexample: of eleven lines whose first and last report an
    error, the signature holds the first ten; the last line matches a
    pattern and is not in it. *)
Lemma extract_misses_late_line :
  ~ AsClaimed.extract_complete Examples.eleven_lines.
Proof.
  intros H. destruct H as (sig & Hsig & Hall).
  - exists "Error: first". split; [vm_compute; auto | vm_compute; reflexivity].
  - assert (Hin : In "Error: last"
                    (Text.splitlines (Text.strip Examples.eleven_lines)))
      by (vm_compute; auto 20).
    specialize (Hall _ Hin eq_refl).
    apply contains_spec in Hall.
    vm_compute in Hsig. injection Hsig as <-.
    vm_compute in Hall. discriminate.
Qed.

(** C4 (amended): for every input with a line that matches a pattern,
    [_extract_error_text] returns a signature; it is made of the first
    matching line and the lines after it, ten lines at most, and contains
    each of these lines. *)
Theorem extract_from_first_match output :
  (exists line, In line (Text.splitlines (Text.strip output))
                /\ is_error_line line = true) ->
  exists before first after,
    Text.splitlines (Text.strip output) = before ++ first :: after
    /\ Forall (fun l => is_error_line l = false) before
    /\ is_error_line first = true
    /\ _extract_error_text output
       = Some (Text.join NL (firstn 10 (first :: after)))
    /\ forall line, In line (firstn 10 (first :: after)) ->
         Text.contains (Text.join NL (firstn 10 (first :: after))) line.
Proof.
  intros H. destruct (first_error_line _ H) as (b & f & a & E & Hb & Hf).
  exists b, f, a. repeat split; try assumption.
  - eapply extract_window; eassumption.
  - intros line Hin. apply join_contains. exact Hin.
Qed.

Lemma extract_from_first_match_witness :
  exists before first after,
    Text.splitlines (Text.strip Examples.eleven_lines)
    = before ++ first :: after
    /\ Forall (fun l => is_error_line l = false) before
    /\ is_error_line first = true
    /\ _extract_error_text Examples.eleven_lines
       = Some (Text.join NL (firstn 10 (first :: after)))
    /\ forall line, In line (firstn 10 (first :: after)) ->
         Text.contains (Text.join NL (firstn 10 (first :: after))) line.
Proof.
  apply (extract_from_first_match Examples.eleven_lines).
  exists "Error: first". split; [vm_compute; auto | vm_compute; reflexivity].
Defined.

End ExtractFacts.

(** ** The client and the watcher *)

Module WatcherFacts.
Import Py Net Hook Wire.

Lemma run_from_bind {A B} (srv : server) (m : io A) (f : A -> io B) :
  forall log,
    run_from srv log (bind m f)
    = run_from srv (run_from srv log m).2 (f (run_from srv log m).1).
Proof.
  induction m as [a|rq k IH]; intros log; simpl; [reflexivity|].
  apply IH.
Qed.

(** *** The client *)

Lemma search_run_from c text limit srv log :
  run_from srv log (search c text limit)
  = (Ok (default []
           (question_list (srv log (search_request c text limit)))),
     log ++ [search_request c text limit]).
Proof.
  unfold search, catch, fetch. simpl.
  fold (search_request c text limit).
  destruct (srv log (search_request c text limit)) as [msg|v]; simpl;
    [reflexivity|].
  destruct v as [| | | |l|d]; simpl; try reflexivity.
  unfold get. destruct (lookup d "data") as [[| | | |l|d']|]; reflexivity.
Qed.

Lemma submit_run c title signature rc fa environment srv :
  run srv (submit c title signature rc fa environment)
  = match created_id
            (srv [] (question_request c title signature environment))
    with
    | None => (Ok false, [question_request c title signature environment])
    | Some id =>
        (Ok (succeeded
               (srv [question_request c title signature environment]
                    (answer_request c id rc fa))),
         [question_request c title signature environment;
          answer_request c id rc fa])
    end.
Proof.
  unfold run, submit, catch, fetch, mbind, lift, ret, raise.
  simpl.
  fold (question_request c title signature environment).
  set (q := question_request c title signature environment).
  destruct (srv [] q) as [msg|v]; simpl; [reflexivity|].
  destruct v as [| | | |l|d]; simpl; try reflexivity.
  destruct (get d "data" (JDict [])) as [| | | |l|dd]; simpl;
    try reflexivity.
  destruct (truthy (get dd "id" JNull)) eqn:T; simpl; [|reflexivity].
  fold (answer_request c (get dd "id" JNull) rc fa).
  destruct (srv [q] (answer_request c (get dd "id" JNull) rc fa));
    reflexivity.
Qed.

(** *** The shared search-and-inject procedure *)

Lemma search_and_inject_run py_str self text tool srv log :
  run_from srv log (_search_and_inject py_str self text tool)
  = if decide (is_Some (tracked_errors self !! _error_key text)) then
      ((Ok continue, self), log)
    else
      ((match default []
               (question_list
                  (srv log (search_request (hook_client self) text 3)))
        with
        | [] => Ok continue
        | solutions => inject py_str solutions
        end,
        with_tracked self
          (<[_error_key text :=
               {| error_text := text; tool_name := tool |}]>
             (tracked_errors self))),
       log ++ [search_request (hook_client self) text 3]).
Proof.
  unfold _search_and_inject.
  destruct (decide (is_Some (tracked_errors self !! _error_key text)));
    [reflexivity|].
  rewrite run_from_bind, search_run_from. simpl.
  destruct (default [] (question_list _)); reflexivity.
Qed.

Lemma search_and_inject_empty py_str self text tool srv :
  question_list (srv [] (search_request (hook_client self) text 3)) = None ->
  (run srv (_search_and_inject py_str self text tool)).1.1 = Ok continue.
Proof.
  intros H. unfold run. rewrite search_and_inject_run.
  destruct (decide _); [reflexivity|]. rewrite H. reflexivity.
Qed.

Lemma twice_same_key py_str self text1 tool1 text2 tool2 srv :
  _error_key text1 = _error_key text2 ->
  tracked_errors self !! _error_key text1 = None ->
  (run srv (twice py_str self text1 tool1 text2 tool2)).2
  = [search_request (hook_client self) text1 3].
Proof.
  intros Hkey Hnew. unfold run, twice.
  rewrite run_from_bind, search_and_inject_run.
  destruct (decide (is_Some (tracked_errors self !! _error_key text1)))
    as [Hs|_]; [rewrite Hnew in Hs; destruct Hs; discriminate|].
  cbn [fst snd]. cbv zeta.
  rewrite run_from_bind, search_and_inject_run.
  cbn [fst snd tracked_errors with_tracked].
  rewrite <- Hkey, lookup_insert_eq.
  destruct (decide (is_Some (Some _))) as [_|Hn];
    [reflexivity | destruct Hn; eauto].
Qed.

(** *** Resolution *)

Lemma lookup_foldl_delete (l : list (str * tracked)) :
  forall (m : gmap str tracked) k,
    foldl (fun t entry => delete entry.1 t) m l !! k
    = if decide (k ∈ l.*1) then None else m !! k.
Proof.
  induction l as [|[k0 e0] l IH]; intros m k.
  - rewrite decide_False by apply not_elem_of_nil. reflexivity.
  - cbn [foldl]. rewrite IH, fmap_cons. cbn [fst].
    destruct (decide (k ∈ l.*1)) as [Hin|Hout].
    + rewrite decide_True by (right; exact Hin). reflexivity.
    + destruct (decide (k = k0)) as [->|Hne].
      * rewrite lookup_delete_eq, decide_True by left. reflexivity.
      * rewrite lookup_delete_ne by congruence.
        rewrite decide_False; [reflexivity|].
        intros H. apply elem_of_cons in H.
        destruct H; [congruence | contradiction].
Qed.




(** *** The claims *)

(** C3, counterexample: [File x.py, line 3] and [File y.py, line 3]
    differ only in a file name; neither key is tracked by a fresh hook,
    and the two calls search twice. *)
Lemma dedup_relative_path_searches_twice :
  ~ AsClaimed.one_search no_text unreachable Examples.fresh_hook
      "File " "x.py" "y.py" ", line 3" (JStr "bash") (JStr "bash").
Proof.
  intros H.
  assert (Hshape : Shape.same_shape_as_claimed "x.py" "y.py").
  { left. split.
    - exists "x", "py". repeat split;
        [discriminate | repeat constructor | simpl; auto].
    - exists "y", "py". repeat split;
        [discriminate | repeat constructor | simpl; auto]. }
  specialize (H Hshape (lookup_empty _) (lookup_empty _)).
  vm_compute in H. lia.
Qed.

(** C3 (amended): for two error texts that differ only in a rooted
    source path, in a [:line:col] token that does not follow a digit or
    a colon, or in a [line <n>] phrase, and whose keys are not tracked,
    the two calls of the search-and-inject procedure, in either order,
    issue one search: the one of the first call. *)
Theorem dedup_single_search py_str self pre a b post tool1 tool2 srv :
  Shape.same_shape pre a b ->
  tracked_errors self !! _error_key (pre ++ a ++ post) = None ->
  tracked_errors self !! _error_key (pre ++ b ++ post) = None ->
  (run srv (twice py_str self (pre ++ a ++ post) tool1
              (pre ++ b ++ post) tool2)).2
  = [search_request (hook_client self) (pre ++ a ++ post) 3]
  /\ (run srv (twice py_str self (pre ++ b ++ post) tool2
                 (pre ++ a ++ post) tool1)).2
     = [search_request (hook_client self) (pre ++ b ++ post) 3].
Proof.
  intros Hshape Ha Hb.
  assert (Hkey : _error_key (pre ++ a ++ post)
                 = _error_key (pre ++ b ++ post)).
  { destruct Hshape as [[Hp Hq]|[(Hp & Hq & Hpre)|[Hp Hq]]].
    - apply KeyFacts.error_key_path_context; assumption.
    - apply KeyFacts.error_key_line_col; assumption.
    - apply KeyFacts.error_key_line_phrase; assumption. }
  split; apply twice_same_key; congruence.
Qed.

Lemma dedup_single_search_witness :
  Shape.same_shape "File " "/srv/app/main.py" "/home/dev/lib/util.js"
  /\ (run unreachable
        (twice no_text Examples.fresh_hook
           ("File " ++ "/srv/app/main.py" ++ ", line 3") (JStr "bash")
           ("File " ++ "/home/dev/lib/util.js" ++ ", line 3")
           (JStr "bash"))).2
     = [search_request Examples.the_client
          ("File " ++ "/srv/app/main.py" ++ ", line 3") 3].
Proof.
  assert (H : Shape.same_shape "File " "/srv/app/main.py"
                "/home/dev/lib/util.js").
  { left. split.
    - exists "srv/app/main", "py". repeat split;
        [discriminate | repeat constructor | simpl; auto].
    - exists "home/dev/lib/util", "js". repeat split;
        [discriminate | repeat constructor | simpl; auto]. }
  split; [exact H|].
  apply (dedup_single_search no_text Examples.fresh_hook "File "
           "/srv/app/main.py" "/home/dev/lib/util.js" ", line 3"
           (JStr "bash") (JStr "bash") unreachable H);
    apply lookup_empty.
Defined.

(** C5: [ErrorCacheClient.search] returns a list whatever the service
    does; when the call fails or the decoded response carries no list
    of questions the list is empty, and [_search_and_inject] then
    returns the [continue] action, which injects no context. *)
Theorem search_degrades_to_continue py_str self text tool limit srv :
  (exists l, (run srv (search (hook_client self) text limit)).1 = Ok l)
  /\ (question_list (srv [] (search_request (hook_client self) text limit))
      = None ->
      (run srv (search (hook_client self) text limit)).1 = Ok [])
  /\ (question_list (srv [] (search_request (hook_client self) text 3))
      = None ->
      exists r,
        (run srv (_search_and_inject py_str self text tool)).1.1 = Ok r
        /\ action r = "continue" /\ context_injection r = None).
Proof.
  unfold run. rewrite search_run_from. cbn [fst]. repeat split.
  - eauto.
  - intros ->. reflexivity.
  - intros H. exists continue. split; [|split; reflexivity].
    apply search_and_inject_empty, H.
Qed.

Lemma search_degrades_to_continue_witness :
  question_list
    (unreachable [] (search_request Examples.the_client "Error: x" 3))
  = None
  /\ exists r,
       (run unreachable
          (_search_and_inject no_text Examples.fresh_hook "Error: x"
             (JStr "bash"))).1.1 = Ok r
       /\ action r = "continue" /\ context_injection r = None.
Proof.
  split; [reflexivity|].
  apply (search_degrades_to_continue no_text Examples.fresh_hook
           "Error: x" (JStr "bash") 3 unreachable).
  reflexivity.
Defined.

(** C6: [ErrorCacheClient.submit] never raises; it posts the question
    first; when the response yields no ID it stops there and returns
    [False]; otherwise it posts the answer under that ID and returns
    [True] exactly when this second call succeeds. *)
Theorem submit_question_then_answer c title signature rc fa environment
  srv :
  (exists b,
     (run srv (submit c title signature rc fa environment)).1 = Ok b)
  /\ match created_id
             (srv [] (question_request c title signature environment))
     with
     | None =>
         run srv (submit c title signature rc fa environment)
         = (Ok false, [question_request c title signature environment])
     | Some id =>
         run srv (submit c title signature rc fa environment)
         = (Ok (succeeded
                  (srv [question_request c title signature environment]
                       (answer_request c id rc fa))),
            [question_request c title signature environment;
             answer_request c id rc fa])
     end.
Proof.
  rewrite submit_run.
  destruct (created_id _); split; eauto.
Qed.




End WatcherFacts.

(** ** The tool *)

Module ToolFacts.
Import Py Net Tool ToolWire.

Section Tool.
Variable py_str : json -> str.
Variable environment : json.
Variable exn_str : exn -> str.

Local Abbreviation execute := (Tool.execute py_str environment exn_str).
Local Abbreviation _search := (Tool._search py_str).
Local Abbreviation signature_request :=
  (ToolWire.signature_request py_str).
Local Abbreviation fts_request := (ToolWire.fts_request py_str).
Local Abbreviation search_steps := (ToolWire.search_steps py_str).
Local Abbreviation first_request := (ToolWire.first_request py_str).
Local Abbreviation first_response := (ToolWire.first_response py_str).
Local Abbreviation first_questions := (ToolWire.first_questions py_str).
Local Abbreviation second_request := (ToolWire.second_request py_str).
Local Abbreviation second_response :=
  (ToolWire.second_response py_str).

(** *** The merge *)









Lemma format_all_length qs formatted :
  format_all py_str qs = Ok formatted -> length formatted = length qs.
Proof.
  revert formatted. induction qs as [|q qs IH]; intros formatted; simpl.
  - intros [= <-]. reflexivity.
  - destruct (format_entry py_str q); simpl; [|discriminate].
    destruct (format_all py_str qs); simpl; [|discriminate].
    intros [= <-]. simpl. f_equal. apply IH. reflexivity.
Qed.

Lemma take_upto_length {A} (n : Z) (l : list A) :
  (0 <= n)%Z -> (Z.of_nat (length (take_upto n l)) <= n)%Z.
Proof.
  intros Hn. unfold take_upto.
  destruct (Z.leb_spec 0 n); [|lia].
  rewrite length_firstn. lia.
Qed.

(** *** Running the tool *)

Lemma run_from_mbind {A B} srv (m : M A) (f : A -> M B) log :
  run_from srv log (mbind m f)
  = match (run_from srv log m).1 with
    | Ok a => run_from srv (run_from srv log m).2 (f a)
    | Raise e => (Raise e, (run_from srv log m).2)
    end.
Proof.
  unfold mbind. rewrite WatcherFacts.run_from_bind.
  destruct (run_from srv log m).1; reflexivity.
Qed.

Lemma run_from_catch {A} srv (m : M A) (h : exn -> M A) log :
  run_from srv log (catch m h)
  = match (run_from srv log m).1 with
    | Ok a => (Ok a, (run_from srv log m).2)
    | Raise e => run_from srv (run_from srv log m).2 (h e)
    end.
Proof.
  unfold catch. rewrite WatcherFacts.run_from_bind.
  destruct (run_from srv log m).1; reflexivity.
Qed.

Lemma run_from_lift {A} srv (r : res A) log :
  run_from srv log (lift r) = (r, log).
Proof. reflexivity. Qed.

Lemma run_from_get srv self p q log :
  run_from srv log (_get py_str self p q)
  = (Ok (decoded
           (srv log {| meth := GET; base := api_url self; path := p;
                       query := q; headers := _headers py_str self;
                       body := None; timeout := 10 |})),
     log ++ [{| meth := GET; base := api_url self; path := p;
                query := q; headers := _headers py_str self;
                body := None; timeout := 10 |}]).
Proof. reflexivity. Qed.

Lemma search_run srv self input :
  run srv (_search self input) = search_steps srv self input.
Proof.
  unfold run, Tool._search, search_steps.
  rewrite run_from_mbind, run_from_lift. cbn [fst snd].
  destruct (missing_or_short _ 3) as [[|]|e]; try reflexivity.
  rewrite run_from_mbind, run_from_lift. cbn [fst snd].
  destruct (quotable _) as [msg|e]; [|reflexivity].
  rewrite run_from_mbind, run_from_get. cbn [fst snd app].
  fold (signature_request self msg (get input "limit" (JInt 5))).
  rewrite run_from_mbind, run_from_lift. cbn [fst snd].
  destruct (as_int _) as [lim|]; [|reflexivity].
  rewrite run_from_mbind. unfold merged_questions.
  destruct (_ <? lim)%Z.
  - rewrite run_from_mbind, run_from_get. cbn [fst snd app].
    rewrite run_from_lift. cbn [fst snd].
    unfold fts_request.
    destruct (merge_fts _ _); reflexivity.
  - reflexivity.
Qed.

(** *** Validation *)

Lemma missing_or_short_short input key n z :
  z = Z.of_nat n ->
  shorter_than n (lookup input key) ->
  missing_or_short (get input key (JStr "")) z = Ok true.
Proof.
  intros ->. unfold shorter_than, get. destruct (lookup input key) as [v|];
    [|reflexivity].
  destruct v as [| | |s| |]; try contradiction.
  intros H. unfold missing_or_short. destruct s as [|c s]; [reflexivity|].
  simpl truthy. cbn [negb len res_bind].
  f_equal. apply Z.ltb_lt. lia.
Qed.

Lemma py_eq_str v s : py_eq v (JStr s) = true -> v = JStr s.
Proof.
  destruct v; simpl; try discriminate.
  unfold str_eqb. intros H. apply bool_decide_eq_true in H. congruence.
Qed.

Lemma in_strs_false input key choices :
  ~ In (lookup input key) (map (fun s => Some (JStr s)) choices) ->
  ~ In [] choices ->
  in_strs (get input key (JStr "")) choices = false.
Proof.
  intros Hv He. unfold in_strs.
  destruct (existsb _ choices) eqn:E; [|reflexivity].
  apply existsb_exists in E. destruct E as (s & Hs & Heq).
  apply py_eq_str in Heq. exfalso. unfold get in Heq.
  destruct (lookup input key) as [v|].
  - subst v. apply Hv. apply in_map_iff. exists s. auto.
  - injection Heq as <-. contradiction.
Qed.

Lemma operation_get input name :
  operation_is input name -> get input "operation" JNull = JStr name.
Proof. unfold operation_is, get. intros ->. reflexivity. Qed.

(** *** The formatted results *)

Lemma search_output_count results lim questions t out formatted :
  search_output py_str results lim questions = Ok t ->
  output t = Some (JDict out) ->
  lookup out "results" = Some (JList formatted) ->
  lookup out "count" = Some (JInt (Z.of_nat (length formatted)))
  /\ length formatted = length (take_upto lim questions).
Proof.
  unfold search_output. destruct questions as [|q qs].
  - intros [= <-] [= <-]. vm_compute. discriminate.
  - destruct (format_all py_str (take_upto lim (q :: qs)))
      as [fs|e] eqn:E; simpl; [|discriminate].
    intros [= <-] [= <-]. cbn. intros [= <-].
    split; [reflexivity|]. eapply format_all_length, E.
Qed.

Lemma search_steps_output srv self input lim t :
  as_int (get input "limit" (JInt 5)) = Some lim ->
  (search_steps srv self input).1 = Ok t ->
  t = failure "error_message is required (min 3 chars)"
  \/ exists results questions,
       search_output py_str results lim questions = Ok t.
Proof.
  intros Hlim. unfold search_steps. rewrite Hlim.
  destruct (missing_or_short _ 3) as [[|]|e]; cbn [fst].
  - intros [= <-]. left. reflexivity.
  - destruct (quotable _) as [msg|e]; cbn [fst]; [|discriminate].
    destruct (_ <? lim)%Z; cbn [fst].
    + destruct (merge_fts _ _) as [merged|e]; simpl; [|discriminate].
      intros H. right. eauto.
    + intros H. right. eauto.
  - discriminate.
Qed.

(** *** Submission *)

Lemma run_from_post srv self p b log :
  run_from srv log (_post py_str self p b)
  = (Ok (decoded
           (srv log {| meth := POST; base := api_url self; path := p;
                       query := []; headers := _headers py_str self;
                       body := Some b; timeout := 10 |})),
     log ++ [{| meth := POST; base := api_url self; path := p;
                query := []; headers := _headers py_str self;
                body := Some b; timeout := 10 |}]).
Proof. reflexivity. Qed.

(** The run of the second half of [_submit]: one request, the answer
    under [id]; a success means the service accepted it. *)
Lemma submit_answer_run srv self input rc fa id log :
  exists rq r,
    run_from srv log (submit_answer py_str self input rc fa id)
    = (r, log ++ [rq])
    /\ path rq = QuestionAnswers id
    /\ forall t, r = Ok t -> accepted srv log rq t.
Proof.
  unfold submit_answer, accepted.
  rewrite run_from_mbind, run_from_post. cbn [fst snd].
  rewrite run_from_mbind, run_from_lift. cbn [fst snd].
  destruct (failed_response _) as [[|]|e] eqn:Ebad.
  - eexists _, _. split; [reflexivity|]. split; [reflexivity|].
    intros t [= <-]. discriminate.
  - rewrite run_from_mbind, run_from_lift. cbn [fst snd].
    destruct (get_of _ "data" _) as [a_data|e].
    + rewrite run_from_mbind, run_from_lift. cbn [fst snd].
      destruct (get_of a_data "id" _) as [answer_id|e];
        eexists _, _; (split; [reflexivity|]); (split; [reflexivity|]);
        intros t _ _; exact Ebad.
    + eexists _, _. split; [reflexivity|]. split; [reflexivity|].
      intros t _ _; exact Ebad.
  - eexists _, _. split; [reflexivity|]. split; [reflexivity|].
    discriminate.
Qed.

(** The run of [_submit]: whether it returns [t] or raises (and
    [execute] reports a failure [t]), the requests are those of a
    submission. *)
Lemma tool_submit_run srv self input :
  forall t,
    match (run srv (_submit py_str environment self input)).1 with
    | Ok t' => t = t'
    | Raise _ => success t = false
    end ->
    submission srv input t
      (run srv (_submit py_str environment self input)).2.
Proof.
  intros t. unfold run, _submit, submission.
  rewrite run_from_mbind, run_from_lift. cbn [fst snd].
  destruct (missing_or_short _ 20) as [[|]|e]; cbn [fst snd];
    [intros ->; left; split; reflexivity | | intros H; left; split;
     [reflexivity | exact H]].
  rewrite run_from_mbind, run_from_lift. cbn [fst snd].
  destruct (missing_or_short _ 20) as [[|]|e]; cbn [fst snd];
    [intros ->; left; split; reflexivity | | intros H; left; split;
     [reflexivity | exact H]].
  destruct (truthy (get input "question_id" JNull)) eqn:Eid; cbn [negb].
  - (* an existing question *)
    destruct (submit_answer_run srv self input
                (get input "root_cause" (JStr ""))
                (get input "fix_approach" (JStr ""))
                (get input "question_id" JNull) [])
      as (rq & r & -> & Hpath & Hacc).
    cbn [fst snd app]. intros Ht. right. right. left.
    exists rq, (get input "question_id" JNull).
    split; [reflexivity|].
    split.
    { unfold get in *. destruct (lookup input "question_id");
        [reflexivity | discriminate Eid]. }
    split; [exact Eid|]. split; [exact Hpath|].
    destruct r as [t'|e]; [subst t'; apply Hacc; reflexivity|].
    intros Hs. congruence.
  - (* a new question *)
    destruct (negb (truthy (get input "title" (JStr "")))
              || negb (truthy (get input "error_signature" (JStr ""))));
      [cbn [fst snd]; intros ->; left; split; reflexivity|].
    rewrite run_from_mbind, run_from_lift. cbn [fst snd].
    destruct (prefix 300 _) as [short_title|e]; cbn [fst snd];
      [|intros H; left; split; [reflexivity | exact H]].
    rewrite run_from_mbind, run_from_post. cbn [fst snd app].
    set (rq1 := {| meth := POST; path := Questions |}).
    rewrite run_from_mbind, run_from_lift. cbn [fst snd].
    assert (Hstop : forall t, success t = false ->
              (exists rq, [rq1] = [rq] /\ path rq = Questions
                          /\ success t = false)).
    { intros t' H. exists rq1. repeat split. exact H. }
    unfold failed_response.
    destruct (decoded (srv [] rq1)) as [|b|z|s|l|d] eqn:Eresp;
      try (destruct (negb (truthy _)); cbn; intros H; right; left;
           apply Hstop; first [subst t; reflexivity | exact H]).
      destruct (negb (truthy (JDict d))) eqn:Eempty;
        [cbn; intros ->; right; left; apply Hstop; reflexivity|].
      cbn [get_of res_bind].
      destruct (truthy (get d "error" JNull)) eqn:Eerr;
        [cbn; intros ->; right; left; apply Hstop; reflexivity|].
      rewrite run_from_mbind, run_from_lift. cbn [fst snd get_of].
      destruct (get d "data" (JDict [])) as [| | | |l|dd] eqn:Edata;
        try (cbn; intros H; right; left; apply Hstop; exact H).
      rewrite run_from_mbind, run_from_lift. cbn [fst snd get_of].
      destruct (truthy (get dd "id" JNull)) eqn:Enew; cbn [negb].
      * destruct (submit_answer_run srv self input
                    (get input "root_cause" (JStr ""))
                    (get input "fix_approach" (JStr ""))
                    (get dd "id" JNull) [rq1])
          as (rq2 & r & -> & Hpath & Hacc).
        cbn [fst snd app]. intros Ht. right. right. right.
        exists rq1, rq2, (get dd "id" JNull).
        split; [reflexivity|]. split; [reflexivity|].
        split; [rewrite Eresp; unfold new_question_id; rewrite Edata, Enew;
                reflexivity|].
        split; [exact Hpath|].
        destruct r as [t'|e]; [subst t'; apply Hacc; reflexivity|].
        intros Hs. congruence.
      * cbn. intros ->. right. left. apply Hstop. reflexivity.
Qed.

(** The tool's [submit_solution]: [execute] returns a result, raises
    nothing, and has issued the requests of a submission: the question
    before the answer, no answer without an ID, success only when the
    answer was accepted. *)
Lemma submit_solution_order srv self input :
  operation_is input "submit_solution" ->
  exists t,
    (run srv (execute self input)).1 = Ok t
    /\ submission srv input t
         (run srv (execute self input)).2.
Proof.
  intros Hop. unfold run, Tool.execute.
  rewrite (operation_get _ _ Hop).
  change (py_eq (JStr "submit_solution") (JStr "search_errors"))
    with false.
  change (py_eq (JStr "submit_solution") (JStr "submit_solution"))
    with true.
  cbv iota. rewrite run_from_catch.
  pose proof (tool_submit_run srv self input) as H. unfold run in H.
  destruct (run_from srv [] (_submit py_str environment self input)).1
    as [t|e].
  - exists t. split; [reflexivity|]. apply H. reflexivity.
  - eexists. split; [reflexivity|]. apply H. reflexivity.
Qed.

(** *** The claims *)



(** C7: when a constraint of the operation is violated (the error
    message is absent or shorter than 3 characters, the root cause or
    the fix approach is absent or shorter than 20, the verification
    result is none of pass, fail, partial), [execute] returns a
    failure result, raises nothing and has issued no request. *)
Theorem validation_before_network srv self input :
  violates input ->
  exists t, run srv (execute self input) = (Ok t, []) /\ is_failure t.
Proof.
  unfold run, Tool.execute.
  assert (Hstr : forall a b, py_eq (JStr a) (JStr b) = bool_decide (a = b))
    by reflexivity.
  intros [[Hop H]|[[Hop H]|[Hop H]]];
    rewrite (operation_get _ _ Hop), !Hstr, run_from_catch.
  - rewrite !bool_decide_eq_true_2 by reflexivity.
    fold (run srv (_search self input)). rewrite search_run.
    unfold search_steps.
    rewrite (missing_or_short_short input "error_message" 3 3 eq_refl H).
    eexists. split; [reflexivity|]. repeat split. eauto.
  - rewrite bool_decide_eq_false_2 by discriminate.
    rewrite bool_decide_eq_true_2 by reflexivity.
    unfold Tool._submit.
    rewrite run_from_mbind, run_from_lift. cbn [fst snd].
    destruct H as [H|H].
    + rewrite (missing_or_short_short input "root_cause" 20 20 eq_refl H).
      eexists. split; [reflexivity|]. repeat split. eauto.
    + destruct (missing_or_short (get input "root_cause" (JStr "")) 20)
        as [[|]|e].
      * eexists. split; [reflexivity|]. repeat split. eauto.
      * rewrite run_from_mbind, run_from_lift. cbn [fst snd].
        rewrite (missing_or_short_short input "fix_approach" 20 20 eq_refl H).
        eexists. split; [reflexivity|]. repeat split. eauto.
      * eexists. split; [reflexivity|]. repeat split. eauto.
  - rewrite !bool_decide_eq_false_2 by discriminate.
    rewrite bool_decide_eq_true_2 by reflexivity.
    unfold Tool._verify.
    destruct (negb (truthy (get input "answer_id" (JStr "")))).
    + eexists. split; [reflexivity|]. repeat split. eauto.
    + rewrite (in_strs_false input "result" ["pass"; "fail"; "partial"])
        by (try exact H; simpl; intuition discriminate).
      eexists. split; [reflexivity|]. repeat split. eauto.
Qed.

(** C9 (amended): for a limit that is not negative, a search that
    returns results reports as [count] the number of formatted
    results, and this number does not exceed the limit. *)
Theorem results_within_limit srv self input limit t out formatted :
  operation_is input "search_errors" ->
  as_int (get input "limit" (JInt 5)) = Some limit ->
  (0 <= limit)%Z ->
  (run srv (execute self input)).1 = Ok t ->
  output t = Some (JDict out) ->
  lookup out "results" = Some (JList formatted) ->
  lookup out "count" = Some (JInt (Z.of_nat (length formatted)))
  /\ (Z.of_nat (length formatted) <= limit)%Z.
Proof.
  intros Hop Hlimit Hpos Hrun Hout Hres.
  unfold run, Tool.execute in Hrun.
  rewrite (operation_get _ _ Hop) in Hrun.
  change (py_eq (JStr "search_errors") (JStr "search_errors"))
    with true in Hrun.
  cbv iota in Hrun. rewrite run_from_catch in Hrun.
  fold (run srv (_search self input)) in Hrun.
  rewrite search_run in Hrun.
  destruct (search_steps srv self input).1 as [t'|e] eqn:E.
  - cbn [fst] in Hrun. injection Hrun as ->.
    destruct (search_steps_output srv self input limit t Hlimit E)
      as [-> | (results & questions & Hso)]; [discriminate Hout|].
    destruct (search_output_count _ _ _ _ _ _ Hso Hout Hres)
      as [Hcount Hlen].
    split; [exact Hcount|]. rewrite Hlen. apply take_upto_length, Hpos.
  - cbn in Hrun. injection Hrun as <-. discriminate Hout.
Qed.
End Tool.



Lemma validation_before_network_witness :
  violates Examples.short_root_cause
  /\ exists t,
       run Wire.unreachable
         (Tool.execute Wire.no_text JNull Wire.no_text_of_exn
            Examples.the_api Examples.short_root_cause)
       = (Ok t, [])
       /\ is_failure t.
Proof.
  assert (H : violates Examples.short_root_cause).
  { right. left. split; [reflexivity|]. left. simpl. lia. }
  split; [exact H|].
  apply (validation_before_network Wire.no_text JNull Wire.no_text_of_exn
           Wire.unreachable Examples.the_api Examples.short_root_cause H).
Defined.

(** C9, counterexample: with limit -1 and two questions from phase 1,
    the output holds one result. *)
Lemma negative_limit_exceeded :
  ~ AsClaimed.count_within_limit Wire.no_text JNull Wire.no_text_of_exn
      Examples.two_found Examples.the_api (Examples.search_input (-1)).
Proof.
  intros H.
  edestruct (H (-1)%Z) as [_ Hle];
    [reflexivity | reflexivity | vm_compute; reflexivity
    | reflexivity | reflexivity |].
  vm_compute in Hle. apply Hle. reflexivity.
Qed.

Lemma results_within_limit_witness :
  exists t out formatted,
    (run Examples.two_found
       (Tool.execute Wire.no_text JNull Wire.no_text_of_exn
          Examples.the_api (Examples.search_input 1))).1 = Ok t
    /\ output t = Some (JDict out)
    /\ lookup out "results" = Some (JList formatted)
    /\ lookup out "count" = Some (JInt (Z.of_nat (length formatted)))
    /\ (Z.of_nat (length formatted) <= 1)%Z.
Proof.
  eexists _, _, _.
  split; [vm_compute; reflexivity|].
  split; [reflexivity|]. split; [reflexivity|].
  eapply (results_within_limit Wire.no_text JNull Wire.no_text_of_exn
            Examples.two_found Examples.the_api
            (Examples.search_input 1) 1);
    [reflexivity | reflexivity | lia | vm_compute; reflexivity
    | reflexivity | reflexivity].
Defined.

End ToolFacts.

(** ** Configuration *)

Module ConfigFacts.
Import Py.

(** [_resolve_env] of the hook: a usable value wins, then the
    environment variable, then the default. *)
Lemma resolve_env_precedence (env : Hook.environ) value env_var dflt :
  Hook._resolve_env env value env_var dflt
  = match value with
    | JStr ((_ :: _) as s) =>
        if Re.found Hook._UNRESOLVED_VAR s
        then Ok (default dflt (env !! env_var))
        else Ok s
    | _ =>
        if truthy value then Raise TypeError
        else Ok (default dflt (env !! env_var))
    end.
Proof.
  destruct value as [| b | z | s | l | d].
  - reflexivity.
  - destruct b; reflexivity.
  - unfold Hook._resolve_env. simpl.
    destruct (negb (z =? 0)%Z); reflexivity.
  - destruct s; reflexivity.
  - destruct l; reflexivity.
  - destruct d; reflexivity.
Qed.

Lemma placeholder_unresolved :
  Re.found Hook._UNRESOLVED_VAR Examples.placeholder = true.
Proof. reflexivity. Qed.

(** C8, the failing input: the configuration value of [api_url] is the
    unresolved placeholder.  The hook falls through to the environment
    variable and the default; the tool, which reads neither, mounts its
    client on the placeholder itself. *)
Theorem tool_mount_keeps_placeholder :
  Tool.mount (Some Examples.unresolved_config)
  = Ok {| Tool.api_url := Examples.placeholder; Tool.api_key := JStr "" |}
  /\ forall env : Hook.environ,
       Hook.mount env (Some Examples.unresolved_config)
       = Ok (Hook.new_hook
               (Hook.new_client
                  (default "https://api.errorcache.com/api/v1"
                     (env !! "ERRORCACHE_API_URL"))
                  (default "" (env !! "ERRORCACHE_API_KEY")))
               (JBool true) (JBool true)).
Proof.
  split; [reflexivity|]. intros env. unfold Hook.mount.
  rewrite !resolve_env_precedence. reflexivity.
Qed.

End ConfigFacts.

(** ** Further properties of the two modules *)

Module SearchFacts.
Import Re Pattern.

Section Generic.
Context {A : Type}.
Implicit Types (k : str -> option A) (s : str).

Lemma star_some p s k : is_Some (k s) -> is_Some (star p s k).
Proof.
  intros H. destruct s as [|c s]; simpl; [exact H|].
  destruct (p c); [|exact H].
  destruct (star p s k); [eauto | exact H].
Qed.

(** The continuation succeeds after some run of [p]: so does the star,
    maybe after a longer run. *)
Lemma star_finds p d rest k :
  Forall (fun c => p c = true) d -> is_Some (k rest) ->
  is_Some (star p (d ++ rest) k).
Proof.
  intros Hd Hk. induction Hd as [|c d Hc _ IH]; simpl.
  - apply star_some, Hk.
  - rewrite Hc. destruct IH as [x ->]. eauto.
Qed.

(** What a successful star consumed is a run of [p]. *)
Lemma star_inv_all p s k x :
  star p s k = Some x ->
  exists m rest, s = m ++ rest /\ Forall (fun c => p c = true) m
                 /\ k rest = Some x.
Proof.
  induction s as [|c s IH]; simpl.
  - intros H. exists [], []. auto.
  - destruct (p c) eqn:Hc.
    + destruct (star p s k) as [y|] eqn:E.
      * intros [= ->]. destruct (IH eq_refl) as (m & rest & -> & Hm & Hk).
        exists (c :: m), rest. auto.
      * intros H. exists [], (c :: s). auto.
    + intros H. exists [], (c :: s). auto.
Qed.
End Generic.

(** *** [search] *)

Lemma search_from_inv r s : forall i x y,
  search_from r i s = Some (x, y) ->
  exists a t n,
    s = a ++ t /\ match_len r t = Some n
    /\ x = i + length a /\ y = x + n.
Proof.
  induction s as [|c s IH]; intros i x y; simpl.
  - destruct (match_len r []) as [n|] eqn:E; [|discriminate].
    intros [= <- <-]. exists [], [], n. simpl. auto with lia.
  - destruct (match_len r (c :: s)) as [n|] eqn:E.
    + intros [= <- <-]. exists [], (c :: s), n. simpl. auto with lia.
    + intros H. apply IH in H.
      destruct H as (a & t & n & -> & Hn & -> & ->).
      exists (c :: a), t, n. simpl. repeat split; auto; lia.
Qed.

Lemma search_from_finds r a t : forall i,
  is_Some (match_at r t) -> is_Some (search_from r i (a ++ t)).
Proof.
  induction a as [|c a IH]; intros i [rest H].
  - destruct t as [|c t]; simpl; unfold match_len; rewrite H; eauto.
  - simpl. destruct (match_len r (c :: a ++ t)); [eauto|].
    apply IH. eauto.
Qed.

(** [pattern.search(s)] succeeds exactly when the pattern matches at
    some position of [s]. *)
Lemma found_iff r s :
  found r s = true
  <-> exists a t, s = a ++ t /\ is_Some (match_at r t).
Proof.
  unfold found, search. split.
  - destruct (search_from r 0 s) as [[x y]|] eqn:E; [|discriminate].
    intros _. apply search_from_inv in E.
    destruct E as (a & t & n & -> & Hn & _).
    exists a, t. split; [reflexivity|].
    unfold match_len in Hn. destruct (match_at r t); [eauto | discriminate].
  - intros (a & t & -> & H).
    destruct (search_from_finds r a t 0 H) as [x ->]. reflexivity.
Qed.

End SearchFacts.

Module TextFacts.
Import Text.

Lemma drop_while_split p s :
  exists d, s = d ++ drop_while p s /\ Forall (fun c => p c = true) d.
Proof.
  induction s as [|c s (d & E & Hd)]; simpl.
  - exists []. auto.
  - destruct (p c) eqn:Hc.
    + exists (c :: d). simpl. rewrite <- E. auto.
    + exists []. auto.
Qed.

Lemma drop_while_head p s c s' : drop_while p s = c :: s' -> p c = false.
Proof.
  induction s as [|a s IH]; simpl; [discriminate|].
  destruct (p a) eqn:Ha; [exact IH|]. intros [= <- <-]. exact Ha.
Qed.

Lemma drop_while_fixed p s :
  (forall c s', s = c :: s' -> p c = false) -> drop_while p s = s.
Proof.
  destruct s as [|c s]; [reflexivity|]. intros H. simpl.
  rewrite (H c s eq_refl). reflexivity.
Qed.

Lemma drop_while_length p s : length (drop_while p s) <= length s.
Proof.
  induction s as [|c s IH]; simpl; [lia|].
  destruct (p c); simpl; lia.
Qed.

Lemma drop_while_map p (f : ascii -> ascii) s :
  (forall c, p (f c) = p c) ->
  drop_while p (map f s) = map f (drop_while p s).
Proof.
  intros H. induction s as [|c s IH]; simpl; [reflexivity|].
  rewrite H. destruct (p c); [exact IH | reflexivity].
Qed.

(** [rstrip] of a set of characters [p]: what is cut is a run of [p],
    what is left does not end in one. *)
Lemma rstrip_spec p s :
  (exists d, s = rev (drop_while p (rev s)) ++ d
             /\ Forall (fun c => p c = true) d)
  /\ forall pre c, rev (drop_while p (rev s)) = pre ++ [c] -> p c = false.
Proof.
  split.
  - destruct (drop_while_split p (rev s)) as (d & E & Hd).
    exists (rev d). split.
    + rewrite <- rev_app_distr, <- E, rev_involutive. reflexivity.
    + apply Forall_rev. exact Hd.
  - intros pre c E. apply (f_equal (@rev ascii)) in E.
    rewrite rev_involutive, rev_app_distr in E. simpl in E.
    eapply drop_while_head, E.
Qed.

Lemma strip_length s : length (strip s) <= length s.
Proof.
  unfold strip, rstrip, lstrip. rewrite length_rev.
  etransitivity; [apply drop_while_length|]. rewrite length_rev.
  apply drop_while_length.
Qed.

Lemma lower_char_idem c : lower_char (lower_char c) = lower_char c.
Proof. destruct c as [[] [] [] [] [] [] [] []]; reflexivity. Qed.

Lemma is_space_lower_char c : is_space (lower_char c) = is_space c.
Proof. destruct c as [[] [] [] [] [] [] [] []]; reflexivity. Qed.

Lemma strip_lower s : strip (lower s) = lower (strip s).
Proof.
  unfold strip, rstrip, lstrip, lower.
  rewrite drop_while_map by apply is_space_lower_char.
  rewrite <- map_rev, drop_while_map by apply is_space_lower_char.
  rewrite map_rev. reflexivity.
Qed.

Lemma strip_idem s : strip (strip s) = strip s.
Proof.
  unfold strip.
  assert (Hl : lstrip (rstrip (lstrip s)) = rstrip (lstrip s)).
  { unfold lstrip at 1. apply drop_while_fixed. intros c s' E.
    destruct (rstrip_spec is_space (lstrip s)) as [(d & Ed & _) _].
    fold (rstrip (lstrip s)) in Ed. rewrite E in Ed.
    eapply drop_while_head. unfold lstrip in Ed. exact Ed. }
  rewrite Hl. unfold rstrip. rewrite rev_involutive.
  f_equal. apply drop_while_fixed. intros c s' E.
  eapply drop_while_head, E.
Qed.

End TextFacts.

Module ResolveFacts.
Import Py Re Hook Config SearchFacts.

Lemma match_at_UNRESOLVED_VAR t :
  is_Some (match_at _UNRESOLVED_VAR t)
  <-> exists b c, t = "${" ++ b ++ "}" ++ c /\ b <> [] /\ newline_free b.
Proof.
  unfold match_at, _UNRESOLVED_VAR. cbn [seqs exec chr].
  split.
  - intros [x H].
    destruct t as [|c0 t]; [discriminate|].
    destruct (Text.is_char "$" c0) eqn:E0; [|discriminate].
    apply Ascii.eqb_eq in E0. subst c0.
    destruct t as [|c1 t]; [discriminate|].
    destruct (Text.is_char "{" c1) eqn:E1; [|discriminate].
    apply Ascii.eqb_eq in E1. subst c1.
    destruct t as [|c2 t]; [discriminate|].
    destruct (dot c2) eqn:E2; [|discriminate].
    apply star_inv_all in H. destruct H as (m & rest & -> & Hm & H).
    destruct rest as [|c3 rest]; [discriminate|].
    destruct (Text.is_char "}" c3) eqn:E3; [|discriminate].
    apply Ascii.eqb_eq in E3. subst c3.
    exists (c2 :: m), rest.
    split; [reflexivity|]. split; [discriminate|].
    constructor; assumption.
  - intros (b & c & -> & Hb & Hfree).
    destruct b as [|c2 b]; [congruence|].
    inversion Hfree as [|? ? H2 Hrest]; subst.
    cbn [app Text.is_char Ascii.eqb]. simpl.
    rewrite H2.
    apply (star_finds dot b ("}"%char :: c)); [exact Hrest|].
    simpl. eauto.
Qed.

Lemma found_UNRESOLVED_VAR s :
  found _UNRESOLVED_VAR s = true <-> unresolved s.
Proof.
  rewrite found_iff. unfold unresolved. split.
  - intros (a & t & -> & H). apply match_at_UNRESOLVED_VAR in H.
    destruct H as (b & c & -> & Hb & Hfree). exists a, b, c. auto.
  - intros (a & b & c & -> & Hb & Hfree).
    exists a, ("${" ++ b ++ "}" ++ c). split; [reflexivity|].
    apply match_at_UNRESOLVED_VAR. exists b, c. auto.
Qed.

(** X1: a configuration value that is a non-empty string is returned as
    it is unless it holds a placeholder; with a placeholder the
    environment variable is read, and the default when it is not set. *)
Theorem resolve_env_string (env : environ) s env_var dflt :
  s <> [] ->
  (~ unresolved s -> _resolve_env env (JStr s) env_var dflt = Ok s)
  /\ (unresolved s ->
      _resolve_env env (JStr s) env_var dflt
      = Ok (default dflt (env !! env_var))).
Proof.
  intros Hs. unfold _resolve_env.
  destruct s as [|c s]; [congruence|]. cbn [truthy].
  split; intros H.
  - destruct (found _UNRESOLVED_VAR (c :: s)) eqn:E; [|reflexivity].
    apply found_UNRESOLVED_VAR in E. contradiction.
  - apply found_UNRESOLVED_VAR in H. rewrite H. reflexivity.
Qed.

Lemma resolve_env_string_witness :
  Examples.placeholder <> []
  /\ (~ unresolved Examples.placeholder ->
      _resolve_env ∅ (JStr Examples.placeholder) "ERRORCACHE_API_URL" ""
      = Ok Examples.placeholder)
  /\ (unresolved Examples.placeholder ->
      _resolve_env ∅ (JStr Examples.placeholder) "ERRORCACHE_API_URL" ""
      = Ok (default "" ((∅ : environ) !! "ERRORCACHE_API_URL"))).
Proof.
  split; [discriminate|].
  apply (resolve_env_string ∅ Examples.placeholder "ERRORCACHE_API_URL" "").
  discriminate.
Defined.

End ResolveFacts.

Module ShapeFacts.
Import Py Config TextFacts.

(** X2: a dedup key has at most 200 characters, is in lower case and
    has no whitespace at either end (texts are made of code points up
    to U+00FF, as everywhere in this development). *)
Theorem error_key_canonical text :
  length (Hook._error_key text) <= 200
  /\ Text.lower (Hook._error_key text) = Hook._error_key text
  /\ Text.strip (Hook._error_key text) = Hook._error_key text.
Proof.
  unfold Hook._error_key. cbv zeta.
  set (cleaned := Re.sub Hook.LINE_N _ _).
  split; [|split].
  - unfold Text.lower. rewrite length_map.
    etransitivity; [apply strip_length|]. apply firstn_le_length.
  - unfold Text.lower. rewrite map_map. apply map_ext, lower_char_idem.
  - rewrite strip_lower, strip_idem. reflexivity.
Qed.

Lemma rstrip_slashes url :
  without_trailing_slashes url
    (rev (Text.drop_while (Text.is_char "/") (rev url))).
Proof.
  destruct (rstrip_spec (Text.is_char "/") url) as [(d & E & Hd) Hend].
  split.
  - exists (length d). rewrite E at 1. f_equal.
    clear E. induction Hd as [|c d Hc _ IH]; [reflexivity|].
    apply Ascii.eqb_eq in Hc. subst c. simpl. f_equal. exact IH.
  - intros pre Epre. apply Hend in Epre. discriminate Epre.
Qed.

(** X3: both clients keep the base URL without its trailing slashes,
    and the key as given; the tool's client is not created from a URL
    that is not a string. *)
Theorem base_url_without_trailing_slashes url key :
  without_trailing_slashes url (Hook.api_url (Hook.new_client url key))
  /\ Hook.api_key (Hook.new_client url key) = key
  /\ (forall k, exists a,
        Tool.new_api (JStr url) k = Ok a
        /\ without_trailing_slashes url (Tool.api_url a)
        /\ Tool.api_key a = k)
  /\ (forall v k,
        match v with
        | JStr _ => True
        | _ => Tool.new_api v k = Raise AttributeError
        end).
Proof.
  split; [apply rstrip_slashes|]. split; [reflexivity|]. split.
  - intros k. eexists. split; [reflexivity|].
    split; [apply rstrip_slashes | reflexivity].
  - intros v k. destruct v; first [reflexivity | exact I].
Qed.

End ShapeFacts.

Module DetectFacts.
Import Re Pattern Hook SearchFacts TextFacts.

Section Extend.
Context {A : Type}.
Implicit Types (k : str -> option A) (s t : str).

Lemma star_extend p t k k' :
  (forall u, is_Some (k u) -> is_Some (k' (u ++ t))) ->
  forall s, is_Some (star p s k) -> is_Some (star p (s ++ t) k').
Proof.
  intros Hk s. induction s as [|c s IH]; simpl.
  - intros H. apply star_some, (Hk []), H.
  - destruct (p c); [|apply (Hk (c :: s))].
    destruct (star p s k) as [x|].
    + intros _. destruct IH as [y ->]; eauto.
    + intros H. destruct (star p (s ++ t) k'); [eauto|].
      apply (Hk (c :: s)), H.
Qed.

(** A match is still found when the input goes on after it. *)
Lemma exec_extend r t : forall s k k',
  (forall u, is_Some (k u) -> is_Some (k' (u ++ t))) ->
  is_Some (exec r s k) -> is_Some (exec r (s ++ t) k').
Proof.
  induction r as [|p|r1 IH1 r2 IH2|r1 IH1 r2 IH2|p|p|r1 IH1];
    intros s k k' Hk; simpl.
  - apply Hk.
  - destruct s as [|c s]; simpl; [intros [x H]; discriminate H|].
    destruct (p c); [apply Hk | intros [x H]; discriminate H].
  - apply IH1. intros u. apply IH2, Hk.
  - destruct (exec r1 s k) as [x|] eqn:E.
    + intros _. destruct (IH1 s k k' Hk) as [y ->]; [rewrite E|]; eauto.
    + intros H. destruct (exec r1 (s ++ t) k'); [eauto|].
      apply (IH2 s k k' Hk), H.
  - apply star_extend, Hk.
  - destruct s as [|c s]; simpl; [intros [x H]; discriminate H|].
    destruct (p c); [apply star_extend, Hk | intros [x H]; discriminate H].
  - destruct (exec r1 s k) as [x|] eqn:E.
    + intros _. destruct (IH1 s k k' Hk) as [y ->]; [rewrite E|]; eauto.
    + intros H. destruct (exec r1 (s ++ t) k'); [eauto|].
      apply Hk, H.
Qed.
End Extend.

Lemma match_at_extend r s t :
  is_Some (match_at r s) -> is_Some (match_at r (s ++ t)).
Proof. apply exec_extend. intros u _. eauto. Qed.

(** A pattern found in a part of a text is found in the text. *)
Lemma found_contains r whole part :
  Text.contains whole part -> found r part = true -> found r whole = true.
Proof.
  intros (before & after & ->) H. apply found_iff in H.
  destruct H as (a & t & -> & Ht). apply found_iff.
  exists (before ++ a), (t ++ after). split.
  - rewrite <- !app_assoc. reflexivity.
  - apply match_at_extend, Ht.
Qed.

Lemma contains_refl (s : str) : Text.contains s s.
Proof. exists [], []. rewrite app_nil_r. reflexivity. Qed.

Lemma contains_trans (s t u : str) :
  Text.contains s t -> Text.contains t u -> Text.contains s u.
Proof.
  intros (b1 & a1 & ->) (b2 & a2 & ->).
  exists (b1 ++ b2), (a2 ++ a1). rewrite <- !app_assoc. reflexivity.
Qed.

Lemma strip_contains s : Text.contains s (Text.strip s).
Proof.
  unfold Text.strip, Text.lstrip.
  destruct (drop_while_split Text.is_space s) as (d & E & _).
  destruct (rstrip_spec Text.is_space (Text.drop_while Text.is_space s))
    as [(d' & E' & _) _].
  exists d, d'. unfold Text.rstrip. rewrite <- E'. exact E.
Qed.

Lemma splitlines_contains s : forall cur line,
  In line (Text.splitlines_from cur s) ->
  Text.contains (rev cur ++ s) line.
Proof.
  remember (length s) as n eqn:En. revert s En.
  induction n as [n IH] using lt_wf_ind. intros s En cur line.
  destruct s as [|c s]; simpl.
  - destruct cur as [|x cur]; [intros []|].
    intros [<-|[]]. rewrite app_nil_r. apply contains_refl.
  - destruct (Text.is_linebreak c).
    + intros [<-|Hin].
      * exists [], (c :: s). reflexivity.
      * assert (Hs : Text.contains s line).
        { destruct s as [|c' s'']; [destruct Hin|].
          destruct (Text.is_char "013" c && Text.is_char "010" c').
          - apply (IH (length s'')) in Hin; [|subst n; simpl; lia | reflexivity].
            destruct Hin as (b & a & E). simpl in E.
            exists (c' :: b), a. rewrite E. reflexivity.
          - apply (IH (length (c' :: s''))) in Hin;
              [exact Hin | subst n; simpl; lia | reflexivity]. }
        destruct Hs as (b & a & ->).
        exists (rev cur ++ c :: b), a. rewrite <- app_assoc. reflexivity.
    + intros Hin. apply (IH (length s)) in Hin;
        [|subst n; simpl; lia | reflexivity].
      simpl in Hin. rewrite <- app_assoc in Hin. exact Hin.
Qed.

(** Every line the extractor looks at is a part of the output. *)
Lemma line_contained output line :
  In line (Text.splitlines (Text.strip output)) ->
  Text.contains output line.
Proof.
  intros H. apply splitlines_contains in H. simpl in H.
  eapply contains_trans; [apply strip_contains | exact H].
Qed.

Lemma match_window_none patterns output :
  match_window patterns output = None
  <-> forall p, In p patterns -> found p output = false.
Proof.
  induction patterns as [|p ps IH]; simpl.
  - split; [intros _ p [] | reflexivity].
  - unfold found at 1. destruct (Re.search p output) as [[i j]|] eqn:E.
    + split; [discriminate|]. intros H.
      specialize (H p (or_introl eq_refl)). unfold found in H.
      rewrite E in H. discriminate H.
    + rewrite IH. split.
      * intros H q [<-|Hq]; [unfold found; rewrite E; reflexivity|].
        apply H, Hq.
      * intros H q Hq. apply H. right. exact Hq.
Qed.

Lemma capture_lines_none lines :
  Forall (fun l => is_error_line l = false) lines ->
  capture_lines lines false [] = [].
Proof.
  intros H. rewrite <- (app_nil_r lines).
  rewrite ExtractFacts.capture_lines_skip by exact H. reflexivity.
Qed.

Lemma extract_none_not_found output :
  _extract_error_text output = None ->
  forall p, In p ERROR_PATTERNS -> found p output = false.
Proof.
  unfold _extract_error_text.
  destruct (capture_lines _ false []); [|discriminate].
  apply match_window_none.
Qed.

(** X4: the extractor returns no signature exactly when no pattern
    matches anywhere in the output. *)
Theorem extract_none_iff output :
  _extract_error_text output = None
  <-> forall p, In p ERROR_PATTERNS -> found p output = false.
Proof.
  split; [apply extract_none_not_found|].
  intros H. unfold _extract_error_text. rewrite capture_lines_none.
  - apply match_window_none, H.
  - apply List.Forall_forall. intros line Hin.
    unfold is_error_line.
    destruct (existsb _ ERROR_PATTERNS) eqn:E; [|reflexivity].
    apply existsb_exists in E. destruct E as (p & Hp & Hfound).
    pose proof (found_contains p output line (line_contained _ _ Hin)
                  Hfound) as Hf.
    rewrite (H p Hp) in Hf. discriminate Hf.
Qed.

End DetectFacts.

Module MatchFacts.
Import Re Pattern Match SearchFacts.

(** The matcher is sound: what it consumed is a match. *)
Lemma exec_sound {A} r : forall s (k : str -> option A) x,
  exec r s k = Some x ->
  exists m rest, s = m ++ rest /\ matches r m /\ k rest = Some x.
Proof.
  induction r as [|p|r1 IH1 r2 IH2|r1 IH1 r2 IH2|p|p|r1 IH1];
    intros s k x; simpl.
  - intros H. exists [], s. split; [reflexivity|]. split; [constructor|exact H].
  - destruct s as [|c s]; [discriminate|].
    destruct (p c) eqn:Hc; [|discriminate].
    intros H. exists [c], s. split; [reflexivity|].
    split; [constructor; exact Hc | exact H].
  - intros H. apply IH1 in H. destruct H as (m1 & rest1 & -> & M1 & H).
    apply IH2 in H. destruct H as (m2 & rest2 & -> & M2 & H).
    exists (m1 ++ m2), rest2. rewrite <- app_assoc.
    split; [reflexivity|]. split; [constructor; assumption | exact H].
  - destruct (exec r1 s k) as [y|] eqn:E.
    + intros [= ->]. apply IH1 in E. destruct E as (m & rest & -> & M & H).
      exists m, rest. split; [reflexivity|].
      split; [apply matches_alt_l, M | exact H].
    + intros H. apply IH2 in H. destruct H as (m & rest & -> & M & H).
      exists m, rest. split; [reflexivity|].
      split; [apply matches_alt_r, M | exact H].
  - intros H. apply star_inv_all in H.
    destruct H as (m & rest & -> & Hm & H).
    exists m, rest. split; [reflexivity|].
    split; [constructor; exact Hm | exact H].
  - destruct s as [|c s]; [discriminate|].
    destruct (p c) eqn:Hc; [|discriminate].
    intros H. apply star_inv_all in H.
    destruct H as (m & rest & -> & Hm & H).
    exists (c :: m), rest. split; [reflexivity|].
    split; [constructor; assumption | exact H].
  - destruct (exec r1 s k) as [y|] eqn:E.
    + intros [= ->]. apply IH1 in E. destruct E as (m & rest & -> & M & H).
      exists m, rest. split; [reflexivity|].
      split; [apply matches_opt_some, M | exact H].
    + intros H. exists [], s. split; [reflexivity|].
      split; [constructor | exact H].
Qed.

(** The matcher is complete: where a match is followed by an input the
    continuation accepts, it succeeds. *)
Lemma exec_complete {A} r m :
  matches r m -> forall rest (k : str -> option A),
  is_Some (k rest) -> is_Some (exec r (m ++ rest) k).
Proof.
  induction 1 as [|p c Hc|r1 r2 m1 m2 _ IH1 _ IH2|r1 r2 m _ IH|r1 r2 m _ IH
                  |p m Hm|p c m Hc Hm|r|r m _ IH];
    intros rest k Hk; simpl.
  - exact Hk.
  - rewrite Hc. exact Hk.
  - rewrite <- app_assoc. apply IH1, IH2, Hk.
  - destruct (IH rest k Hk) as [x ->]. eauto.
  - destruct (exec r1 (m ++ rest) k); [eauto | apply IH, Hk].
  - apply star_finds; assumption.
  - rewrite Hc. apply star_finds; assumption.
  - destruct (exec r (rest) k); [eauto | exact Hk].
  - destruct (IH rest k Hk) as [x ->]. eauto.
Qed.

(** [pattern.search(s)] succeeds exactly when a part of [s] is a
    match. *)
Lemma found_spec r s :
  found r s = true <-> exists a m b, s = a ++ m ++ b /\ matches r m.
Proof.
  rewrite found_iff. split.
  - intros (a & t & -> & [x H]). apply exec_sound in H.
    destruct H as (m & rest & -> & M & _). exists a, m, rest. auto.
  - intros (a & m & b & -> & M). exists a, (m ++ b).
    split; [reflexivity|]. apply exec_complete; [exact M | eauto].
Qed.

Lemma matches_nil r : matches r [] -> nullable r = true.
Proof.
  remember [] as m eqn:Em. induction 1; simpl; try reflexivity;
    try discriminate.
  - apply app_eq_nil in Em. destruct Em as [-> ->].
    rewrite IHmatches1, IHmatches2; reflexivity.
  - rewrite IHmatches by exact Em. reflexivity.
  - rewrite IHmatches by exact Em. apply orb_true_r.
Qed.

Lemma matches_first r c m :
  matches r (c :: m) -> cannot_start r c = false.
Proof.
  intros M. destruct (cannot_start r c) eqn:E; [|reflexivity].
  destruct (exec_complete r (c :: m) M [] Some) as [x H]; [eauto|].
  simpl in H. rewrite (ReFacts.exec_cannot_start r c E) in H.
  discriminate H.
Qed.

Lemma matches_last r m l :
  matches r (m ++ [l]) -> cannot_end r l = false.
Proof.
  remember (m ++ [l]) as s eqn:Es. intros H. revert m Es.
  induction H as [|p c0 Hc|r1 r2 m1 m2 H1 IH1 H2 IH2|r1 r2 m0 _ IH
                  |r1 r2 m0 _ IH|p m0 Hm|p c0 m0 Hc Hm|r|r m0 _ IH];
    intros m Es; simpl.
  - destruct m; discriminate.
  - destruct m as [|? [|? ?]]; try discriminate.
    injection Es as ->. rewrite Hc. reflexivity.
  - assert (Hm2 : m2 = [] \/ exists m2' l', m2 = m2' ++ [l']).
    { clear. induction m2 as [|x m2 _] using rev_ind; eauto. }
    destruct Hm2 as [Hnil|(m2' & l' & E2)].
    + subst m2. rewrite app_nil_r in Es.
      rewrite (matches_nil _ H2), (IH1 m Es). apply andb_false_r.
    + subst m2. rewrite app_assoc in Es. apply app_inj_tail in Es.
      destruct Es as [_ ->]. rewrite (IH2 m2' eq_refl). reflexivity.
  - rewrite (IH m Es). reflexivity.
  - rewrite (IH m Es). apply andb_false_r.
  - subst m0. apply Forall_app in Hm. destruct Hm as [_ Hl].
    apply Forall_inv in Hl. rewrite Hl. reflexivity.
  - assert (Hall : Forall (fun c => p c = true) (m ++ [l]))
      by (rewrite <- Es; constructor; assumption).
    apply Forall_app in Hall. destruct Hall as [_ Hl].
    apply Forall_inv in Hl. rewrite Hl. reflexivity.
  - destruct m; discriminate.
  - apply (IH m Es).
Qed.

End MatchFacts.

Module SignatureFacts.
Import Re Pattern Match Hook SearchFacts TextFacts MatchFacts DetectFacts.

Lemma drop_while_keeps p x c z :
  p c = false -> exists x', Text.drop_while p (x ++ c :: z) = x' ++ c :: z.
Proof.
  intros Hc. induction x as [|a x (x' & IH)]; simpl.
  - rewrite Hc. exists []. reflexivity.
  - destruct (p a); [exists x'; exact IH | exists (a :: x); reflexivity].
Qed.

(** Stripping keeps a part that neither starts nor ends with
    whitespace. *)
Lemma strip_keeps x c m1 m2 l y :
  Text.is_space c = false -> Text.is_space l = false ->
  c :: m1 = m2 ++ [l] ->
  Text.contains (Text.strip (x ++ (c :: m1) ++ y)) (c :: m1).
Proof.
  intros Hc Hl Elast. unfold Text.strip, Text.lstrip, Text.rstrip.
  simpl app at 2.
  destruct (drop_while_keeps Text.is_space x c (m1 ++ y) Hc) as (x' & ->).
  change (x' ++ c :: m1 ++ y) with (x' ++ (c :: m1) ++ y).
  rewrite Elast, !rev_app_distr. simpl rev at 2. rewrite <- !app_assoc.
  simpl app at 2.
  destruct (drop_while_keeps Text.is_space (rev y) l
              (rev m2 ++ rev x') Hl) as (y' & ->).
  rewrite rev_app_distr. simpl rev. rewrite rev_app_distr, !rev_involutive.
  exists x', (rev y'). rewrite <- !app_assoc. reflexivity.
Qed.

Lemma search_matched r s i j :
  Re.search r s = Some (i, j) ->
  exists a m b, s = a ++ m ++ b /\ i = length a
                /\ j = length a + length m /\ matches r m.
Proof.
  intros H. apply search_from_inv in H.
  destruct H as (a & t & n & -> & Hn & -> & ->).
  unfold match_len in Hn. destruct (match_at r t) as [rest|] eqn:E;
    [|discriminate].
  injection Hn as <-. apply exec_sound in E.
  destruct E as (m & rest' & -> & M & [= ->]).
  exists a, m, rest. rewrite length_app. repeat split; [lia | exact M].
Qed.

(** The window of the fallback holds the whole match. *)
Lemma window_holds_match (a m b : str) :
  let output := a ++ m ++ b in
  let start := Z.max 0 (Z.of_nat (length a) - 200) in
  let stop := Z.min (Z.of_nat (length output))
                    (Z.of_nat (length a + length m) + 500) in
  exists x y,
    Text.slice (Z.to_nat start) (Z.to_nat stop) output = x ++ m ++ y.
Proof.
  intros output start stop. unfold Text.slice, output.
  assert (Hs : Z.to_nat start <= length a) by lia.
  assert (He : length a + length m <= Z.to_nat stop).
  { unfold stop, output. rewrite !length_app. lia. }
  rewrite skipn_app.
  replace (Z.to_nat start - length a) with 0 by lia. rewrite skipn_O.
  rewrite firstn_app, length_skipn.
  rewrite firstn_all2 by (rewrite length_skipn; lia).
  rewrite firstn_app.
  rewrite firstn_all2 by lia.
  eexists _, _. reflexivity.
Qed.

Lemma patterns_not_nullable :
  Forall (fun p => nullable p = false) ERROR_PATTERNS.
Proof. repeat constructor. Qed.

Lemma patterns_edges :
  Forall (fun p => forall c, Text.is_space c = true ->
                     cannot_start p c = true /\ cannot_end p c = true)
         ERROR_PATTERNS.
Proof.
  unfold ERROR_PATTERNS.
  repeat (apply List.Forall_cons;
          [intros c; destruct c as [[] [] [] [] [] [] [] []]; vm_compute;
           intros H; first [discriminate H | split; reflexivity]|]).
  apply List.Forall_nil.
Qed.

(** A match of one of the patterns is not empty and has no whitespace
    at either end. *)
Lemma pattern_match_edges p m :
  In p ERROR_PATTERNS -> matches p m ->
  exists c m1 m2 l,
    m = c :: m1 /\ c :: m1 = m2 ++ [l]
    /\ Text.is_space c = false /\ Text.is_space l = false.
Proof.
  intros Hp M.
  pose proof (proj1 (List.Forall_forall _ _) patterns_not_nullable p Hp)
    as Hnull.
  pose proof (proj1 (List.Forall_forall _ _) patterns_edges p Hp) as Hedge.
  destruct m as [|c m'].
  { apply matches_nil in M. congruence. }
  assert (Hlast : c :: m' = List.removelast (c :: m') ++ [List.last (c :: m') c])
    by (apply app_removelast_last; discriminate).
  exists c, m', (List.removelast (c :: m')), (List.last (c :: m') c).
  split; [reflexivity|]. split; [exact Hlast|]. split.
  - destruct (Text.is_space c) eqn:E; [|reflexivity].
    apply matches_first in M. destruct (Hedge c E). congruence.
  - destruct (Text.is_space (List.last (c :: m') c)) eqn:E; [|reflexivity].
    rewrite Hlast in M. apply matches_last in M.
    destruct (Hedge _ E). congruence.
Qed.

Lemma match_window_recognised patterns output sig :
  (forall p, In p patterns -> In p ERROR_PATTERNS) ->
  match_window patterns output = Some sig ->
  exists p, In p patterns /\ found p sig = true.
Proof.
  intros Hsub. induction patterns as [|p ps IH]; simpl; [discriminate|].
  destruct (Re.search p output) as [[i j]|] eqn:E.
  - intros [= <-]. exists p. split; [left; reflexivity|].
    apply search_matched in E.
    destruct E as (a & m & b & -> & -> & -> & M).
    destruct (window_holds_match a m b) as (x & y & ->).
    destruct (pattern_match_edges p m (Hsub p (or_introl eq_refl)) M)
      as (c & m1 & m2 & l & -> & Hlast & Hc & Hl).
    eapply found_contains; [eapply strip_keeps; eassumption|].
    apply found_spec. exists [], (c :: m1), [].
    rewrite app_nil_r. auto.
  - intros H. destruct IH as (q & Hq & Hfound); [|exact H|].
    + intros q Hq. apply Hsub. right. exact Hq.
    + exists q. split; [right; exact Hq | exact Hfound].
Qed.

(** A signature the extractor returns matches one of the patterns. *)
Lemma signature_is_error_line output sig :
  _extract_error_text output = Some sig -> is_error_line sig = true.
Proof.
  intros H. unfold _extract_error_text in H.
  destruct (capture_lines _ false []) as [|l ls] eqn:Ecap.
  - apply match_window_recognised in H; [|auto].
    destruct H as (p & Hp & Hfound).
    apply existsb_exists. exists p. auto.
  - destruct (existsb is_error_line
                (Text.splitlines (Text.strip output))) eqn:Eany.
    + apply existsb_exists in Eany.
      destruct (ExtractFacts.first_error_line _ Eany)
        as (before & first & after & Elines & Hb & Hf).
      rewrite Elines, ExtractFacts.capture_lines_skip in Ecap by exact Hb.
      rewrite ExtractFacts.capture_lines_first in Ecap by exact Hf.
      rewrite <- Ecap in H.
      assert (Es : sig = Text.join NL (firstn 10 (first :: after)))
        by congruence.
      rewrite Es.
      unfold is_error_line in Hf. apply existsb_exists in Hf.
      destruct Hf as (p & Hp & Hfound).
      apply existsb_exists. exists p. split; [exact Hp|].
      eapply found_contains; [|exact Hfound].
      apply ExtractFacts.join_contains. left. reflexivity.
    + rewrite capture_lines_none in Ecap; [discriminate Ecap|].
      apply List.Forall_forall. intros line Hin.
      destruct (is_error_line line) eqn:El; [|reflexivity].
      assert (existsb is_error_line
                (Text.splitlines (Text.strip output)) = true)
        by (apply existsb_exists; eauto).
      congruence.
Qed.

Lemma signature_not_empty output sig :
  _extract_error_text output = Some sig -> sig <> [].
Proof.
  intros H ->. apply signature_is_error_line in H. discriminate H.
Qed.

(** X5: a signature the extractor returns matches one of the patterns
    itself, so that extracting from it gives a signature again; in
    particular it is not empty. *)
Theorem extract_signature_recognised output sig :
  _extract_error_text output = Some sig ->
  is_error_line sig = true
  /\ sig <> []
  /\ exists again, _extract_error_text sig = Some again.
Proof.
  intros H. pose proof (signature_is_error_line _ _ H) as Hrec.
  split; [exact Hrec|]. split; [eapply signature_not_empty, H|].
  destruct (_extract_error_text sig) as [again|] eqn:E; [eauto|].
  exfalso. unfold is_error_line in Hrec. apply existsb_exists in Hrec.
  destruct Hrec as (p & Hp & Hfound).
  rewrite (extract_none_not_found _ E p Hp) in Hfound.
  discriminate Hfound.
Qed.

Lemma extract_signature_recognised_witness :
  _extract_error_text Examples.eleven_lines
  = Some (Text.join NL ["Error: first"; "1"; "2"; "3"; "4"; "5"; "6";
                        "7"; "8"; "9"])
  /\ is_error_line (Text.join NL ["Error: first"; "1"; "2"; "3"; "4";
                                  "5"; "6"; "7"; "8"; "9"]) = true
  /\ Text.join NL ["Error: first"; "1"; "2"; "3"; "4"; "5"; "6"; "7";
                   "8"; "9"] <> []
  /\ exists again,
       _extract_error_text
         (Text.join NL ["Error: first"; "1"; "2"; "3"; "4"; "5"; "6";
                        "7"; "8"; "9"]) = Some again.
Proof.
  assert (H : _extract_error_text Examples.eleven_lines
              = Some (Text.join NL ["Error: first"; "1"; "2"; "3"; "4";
                                    "5"; "6"; "7"; "8"; "9"]))
    by (vm_compute; reflexivity).
  split; [exact H|].
  apply (extract_signature_recognised Examples.eleven_lines _ H).
Defined.

End SignatureFacts.

Module HandlerFacts.
Import Py Net Hook Wire Watch WatcherFacts.

Section Handlers.
Variable py_str : json -> str.

Lemma drop_resolved_settings self tool result :
  same_settings self (drop_resolved self tool result).
Proof.
  unfold drop_resolved, same_settings.
  destruct (truthy (auto_submit self) && _); [|auto].
  destruct (truthy _); auto.
Qed.

Lemma completed_ok_truthy result :
  truthy match result with
         | JDict d => get d "success" (JBool true)
         | _ => JBool true
         end = completed_ok result.
Proof. destruct result; reflexivity. Qed.

(** The resolution step when it applies, entry by entry. *)
Lemma drop_resolved_on self tool result key :
  truthy (auto_submit self) = true -> completed_ok result = true ->
  tracked_errors (drop_resolved self tool result) !! key
  = after_resolution tool (tracked_errors self !! key).
Proof.
  intros Hon Hok. unfold drop_resolved.
  rewrite Hon, completed_ok_truthy, Hok. cbn [andb].
  destruct (bool_decide (tracked_errors self = ∅)) eqn:Hempty; cbn [negb].
  - apply bool_decide_eq_true in Hempty. rewrite Hempty, lookup_empty.
    reflexivity.
  - cbn [tracked_errors with_tracked].
    rewrite lookup_foldl_delete. unfold after_resolution.
    destruct (decide _) as [Hin|Hout].
    + apply list_elem_of_fmap in Hin. destruct Hin as ([k e] & -> & Hin).
      apply list_elem_of_filter in Hin. destruct Hin as [Hp Hin].
      apply elem_of_map_to_list in Hin. simpl in *. rewrite Hin, Hp.
      reflexivity.
    + destruct (tracked_errors self !! key) as [e|] eqn:E; [|reflexivity].
      destruct (py_eq (tool_name e) tool) eqn:P; [|reflexivity].
      destruct Hout. apply list_elem_of_fmap. exists (key, e).
      split; [reflexivity|]. apply list_elem_of_filter.
      split; [exact P | apply elem_of_map_to_list; exact E].
Qed.

(** The resolution step when it does not apply. *)
Lemma drop_resolved_off self tool result :
  truthy (auto_submit self) && completed_ok result = false ->
  drop_resolved self tool result = self.
Proof.
  intros H. unfold drop_resolved. rewrite completed_ok_truthy.
  destruct (truthy (auto_submit self)); [|reflexivity].
  cbn [andb] in H. rewrite H. destruct (negb _); reflexivity.
Qed.

Lemma search_and_inject_settings self text tool srv log :
  same_settings self
    (run_from srv log (_search_and_inject py_str self text tool)).1.2.
Proof.
  rewrite search_and_inject_run. unfold same_settings.
  destruct (decide _); cbn; auto.
Qed.

Lemma search_and_inject_requests self text tool srv :
  one_search_at_most self
    (run srv (_search_and_inject py_str self text tool)).2.
Proof.
  unfold run. rewrite search_and_inject_run.
  destruct (decide _); [left; reflexivity | right; eexists; reflexivity].
Qed.

(** What [handle_tool_post] does after the resolution step. *)
Lemma handle_tool_post_run self data srv :
  run srv (handle_tool_post py_str self data)
  = ((Ok continue, resolved self data), [])
  \/ exists text,
       truthy (auto_search self) = true
       /\ in_strs (completed_tool data) shell_tools = true
       /\ 20 <= length (output_text py_str data)
       /\ _extract_error_text (output_text py_str data) = Some text
       /\ run srv (handle_tool_post py_str self data)
          = run srv (_search_and_inject py_str (resolved self data) text
                       (completed_tool data)).
Proof.
  unfold handle_tool_post, resolved, output_text, completed_tool, reported,
    shell_tools.
  set (self1 := drop_resolved self _ _).
  destruct (drop_resolved_settings self (get data "tool_name" (JStr ""))
              (get data "result" (JDict []))) as (_ & Hs & _).
  fold self1 in Hs. rewrite Hs.
  destruct (truthy (auto_search self)) eqn:Eon; [|left; reflexivity].
  destruct (in_strs _ _) eqn:Etool; [|left; reflexivity].
  cbn [negb].
  destruct (Nat.ltb_spec (length (_get_output_text py_str
                                    (get data "result" (JDict [])))) 20)
    as [Hshort|Hlong]; [left; reflexivity|].
  destruct (_extract_error_text _) as [[|c text]|] eqn:Etext;
    [left; reflexivity | | left; reflexivity].
  right. exists (c :: text). auto.
Qed.

(** What [handle_tool_error] does. *)
Lemma handle_tool_error_run self data srv :
  (exists r, run srv (handle_tool_error py_str self data) = ((r, self), []))
  \/ exists text,
       run srv (handle_tool_error py_str self data)
       = run srv (_search_and_inject py_str self text
                    (get data "tool_name" (JStr "unknown"))).
Proof.
  unfold handle_tool_error.
  destruct (negb (truthy (auto_search self))); [left; eexists; reflexivity|].
  destruct (res_bind _ _) as [text|e];
    [right; exists text; reflexivity | left; eexists; reflexivity].
Qed.

(** Under the conditions of [looked_up], the one request. *)
Lemma looked_up_request self data srv text :
  looked_up py_str self data text ->
  (run srv (handle_tool_post py_str self data)).2
  = [search_request (hook_client self) text 3].
Proof.
  intros (Hon & Htool & Hlen & Htext & Hnew).
  destruct (drop_resolved_settings self (completed_tool data)
              (reported data)) as (Hc & _).
  destruct (handle_tool_post_run self data srv)
    as [Hrun|(text' & _ & _ & _ & Htext' & ->)].
  - exfalso. revert Hrun.
    unfold run, handle_tool_post.
    change (get data "tool_name" (JStr "")) with (completed_tool data).
    change (get data "result" (JDict [])) with (reported data).
    change (_get_output_text py_str (reported data))
      with (output_text py_str data).
    change (drop_resolved self (completed_tool data) (reported data))
      with (resolved self data).
    destruct (drop_resolved_settings self (completed_tool data)
                (reported data)) as (_ & Hs & _).
    fold (resolved self data) in Hs. rewrite Hs, Hon.
    change ["bash"; "Bash"; "shell"; "run_command"] with shell_tools.
    rewrite Htool. cbn [negb].
    destruct (Nat.ltb_spec (length (output_text py_str data)) 20)
      as [Hshort|_]; [lia|].
    rewrite Htext.
    pose proof (SignatureFacts.signature_not_empty _ _ Htext) as Hne.
    destruct text as [|c text]; [congruence|].
    rewrite search_and_inject_run.
    destruct (decide _) as [Hs'|_];
      [rewrite Hnew in Hs'; destruct Hs'; discriminate|].
    intros E. discriminate E.
  - rewrite Htext in Htext'. injection Htext' as <-.
    unfold run. rewrite search_and_inject_run.
    destruct (decide _) as [Hs|_];
      [rewrite Hnew in Hs; destruct Hs; discriminate|].
    fold (resolved self data) in Hc. rewrite Hc. reflexivity.
Qed.

Lemma keyed_drop_resolved self tool result :
  keyed self -> keyed (drop_resolved self tool result).
Proof.
  intros H k e.
  destruct (truthy (auto_submit self) && completed_ok result) eqn:E.
  - apply andb_true_iff in E. destruct E as [Hon Hok].
    rewrite drop_resolved_on by assumption.
    unfold after_resolution.
    destruct (tracked_errors self !! k) as [e'|] eqn:Ek; [|discriminate].
    destruct (py_eq _ _); [discriminate|].
    intros [= <-]. apply H, Ek.
  - rewrite drop_resolved_off by exact E. apply H.
Qed.

Lemma keyed_search_and_inject self text tool srv log :
  keyed self ->
  keyed (run_from srv log (_search_and_inject py_str self text tool)).1.2.
Proof.
  intros H. rewrite search_and_inject_run.
  destruct (decide _); [exact H|]. cbn [fst snd]. intros k e.
  cbn [tracked_errors with_tracked].
  destruct (decide (k = _error_key text)) as [->|Hne].
  - rewrite lookup_insert_eq. intros [= <-]. reflexivity.
  - rewrite lookup_insert_ne by congruence. apply H.
Qed.

End Handlers.

(** X6: a handler of the hook issues at most one request, a search
    with limit 3 on the hook's own client, and never a submission; it
    changes nothing of the hook but the tracked errors. *)
Theorem handlers_search_only py_str self data srv :
  (one_search_at_most self (run srv (handle_tool_post py_str self data)).2
   /\ same_settings self (run srv (handle_tool_post py_str self data)).1.2)
  /\ (one_search_at_most self
        (run srv (handle_tool_error py_str self data)).2
      /\ same_settings self
           (run srv (handle_tool_error py_str self data)).1.2).
Proof.
  split.
  - pose proof (drop_resolved_settings self (completed_tool data)
                  (reported data)) as Hs.
    fold (resolved self data) in Hs.
    destruct (handle_tool_post_run py_str self data srv)
      as [->|(text & _ & _ & _ & _ & ->)].
    + split; [left; reflexivity | exact Hs].
    + pose proof (search_and_inject_requests py_str (resolved self data)
                    text (completed_tool data) srv) as Hr.
      pose proof (search_and_inject_settings py_str (resolved self data)
                    text (completed_tool data) srv []) as Hk.
      unfold one_search_at_most, same_settings in *.
      destruct Hs as (Hs1 & Hs2 & Hs3 & Hs4).
      rewrite Hs1 in Hr. rewrite Hs1, Hs2, Hs3, Hs4 in Hk.
      split; assumption.
  - destruct (handle_tool_error_run py_str self data srv)
      as [(r & ->)|(text & ->)].
    + split; [left; reflexivity | unfold same_settings; auto].
    + split; [apply search_and_inject_requests
             | apply search_and_inject_settings].
Qed.

(** X7: [tool:post] looks an output up when the search is on, the tool
    is a shell tool, the text of the result has 20 characters or more
    and holds a signature whose key is not tracked after the resolution
    step; the request is the search for that signature.  In every other
    case it issues no request. *)
Theorem tool_post_lookup py_str self data srv :
  (forall text,
     looked_up py_str self data text ->
     (run srv (handle_tool_post py_str self data)).2
     = [search_request (hook_client self) text 3])
  /\ ((run srv (handle_tool_post py_str self data)).2 = []
      \/ exists text, looked_up py_str self data text).
Proof.
  split; [intros text; apply looked_up_request|].
  destruct (handle_tool_post_run py_str self data srv)
    as [->|(text & Hon & Htool & Hlen & Htext & ->)];
    [left; reflexivity|].
  unfold run. rewrite search_and_inject_run.
  destruct (decide _) as [Hs|Hn]; [left; reflexivity|].
  right. exists text. repeat split; try assumption.
  destruct (tracked_errors _ !! _error_key text) eqn:E;
    [destruct Hn; eauto | reflexivity].
Qed.

(** X8: the resolution step of [tool:post], entry by entry: when
    [auto_submit] is on and the completion counts as successful, the
    entries of the completed tool are dropped and the others kept; in
    every other case nothing changes. *)
Theorem resolution_by_entry self tool result key :
  tracked_errors (drop_resolved self tool result) !! key
  = if truthy (auto_submit self) && completed_ok result
    then after_resolution tool (tracked_errors self !! key)
    else tracked_errors self !! key.
Proof.
  destruct (truthy (auto_submit self) && completed_ok result) eqn:E.
  - apply andb_true_iff in E. destruct E as [Hon Hok].
    apply drop_resolved_on; assumption.
  - rewrite drop_resolved_off by exact E. reflexivity.
Qed.

(** X9: once the shared procedure has run, the key of the text is
    tracked, whether the procedure returned or raised; an earlier
    record of the key is kept as it was. *)
Theorem search_and_inject_tracks py_str self text tool srv log :
  tracked_errors
    (run_from srv log (_search_and_inject py_str self text tool)).1.2
  !! _error_key text
  = Some (default {| error_text := text; tool_name := tool |}
            (tracked_errors self !! _error_key text)).
Proof.
  rewrite search_and_inject_run.
  destruct (decide _) as [[e He]|Hn]; cbn [fst snd].
  - rewrite He. reflexivity.
  - cbn [tracked_errors with_tracked]. rewrite lookup_insert_eq.
    destruct (tracked_errors self !! _error_key text);
      [destruct Hn; eauto | reflexivity].
Qed.

(** X10: the handlers keep the tracked errors keyed: every key is the
    dedup key of the text recorded under it. *)
Theorem handlers_keep_keyed py_str self data srv :
  keyed self ->
  keyed (run srv (handle_tool_post py_str self data)).1.2
  /\ keyed (run srv (handle_tool_error py_str self data)).1.2.
Proof.
  intros H. split.
  - destruct (handle_tool_post_run py_str self data srv)
      as [->|(text & _ & _ & _ & _ & ->)].
    + apply keyed_drop_resolved, H.
    + apply keyed_search_and_inject, keyed_drop_resolved, H.
  - destruct (handle_tool_error_run py_str self data srv)
      as [(r & ->)|(text & ->)].
    + exact H.
    + apply keyed_search_and_inject, H.
Qed.

Lemma handlers_keep_keyed_witness :
  keyed (Examples.tracking_hook true)
  /\ keyed (run unreachable
              (handle_tool_post no_text (Examples.tracking_hook true)
                 Examples.bash_done)).1.2
  /\ keyed (run unreachable
              (handle_tool_error no_text (Examples.tracking_hook true)
                 Examples.bash_done)).1.2.
Proof.
  assert (H : keyed (Examples.tracking_hook true)).
  { intros k e. unfold Examples.tracking_hook.
    cbn [tracked_errors with_tracked].
    intros Hk. apply lookup_singleton_Some in Hk.
    destruct Hk as [<- <-]. reflexivity. }
  split; [exact H|].
  apply (handlers_keep_keyed no_text (Examples.tracking_hook true)
           Examples.bash_done unreachable H).
Defined.

(** X11: when the first solution of a search is not a mapping, the
    shared procedure raises [AttributeError]; the search has been
    issued and the error is tracked all the same. *)
Theorem malformed_solution_raises py_str self text tool srv log q rest :
  tracked_errors self !! _error_key text = None ->
  question_list (srv log (search_request (hook_client self) text 3))
  = Some (q :: rest) ->
  (forall d, q <> JDict d) ->
  run_from srv log (_search_and_inject py_str self text tool)
  = ((Raise AttributeError,
      with_tracked self
        (<[_error_key text := {| error_text := text; tool_name := tool |}]>
           (tracked_errors self))),
     log ++ [search_request (hook_client self) text 3]).
Proof.
  intros Hnew Hq Hbad. rewrite search_and_inject_run.
  destruct (decide _) as [Hs|_];
    [rewrite Hnew in Hs; destruct Hs; discriminate|].
  rewrite Hq. cbn [default]. f_equal. f_equal.
  unfold inject. cbn [firstn all_solution_lines].
  unfold solution_lines at 1.
  destruct q as [| | | | |d]; try reflexivity.
  destruct (Hbad d eq_refl).
Qed.

Lemma malformed_solution_raises_witness :
  tracked_errors Examples.fresh_hook !! _error_key "Error: x" = None
  /\ run_from garbled []
       (_search_and_inject no_text Examples.fresh_hook "Error: x"
          (JStr "bash"))
     = ((Raise AttributeError,
         with_tracked Examples.fresh_hook
           (<[_error_key "Error: x" :=
                {| error_text := "Error: x"; tool_name := JStr "bash" |}]>
              (tracked_errors Examples.fresh_hook))),
        [] ++ [search_request (hook_client Examples.fresh_hook)
                 "Error: x" 3]).
Proof.
  split; [apply lookup_empty|].
  apply (malformed_solution_raises no_text Examples.fresh_hook "Error: x"
           (JStr "bash") garbled [] (JStr "oops") []);
    [apply lookup_empty | reflexivity | discriminate].
Defined.

(** X12: with [auto_submit] on, a shell tool that completes
    successfully with an error in its output is looked up again even
    when the key of the error was tracked for that tool: the resolution
    step has dropped the record before the output is examined. *)
Theorem resolved_error_searched_again py_str self data srv text :
  truthy (auto_search self) = true ->
  truthy (auto_submit self) = true ->
  completed_ok (reported data) = true ->
  in_strs (completed_tool data) shell_tools = true ->
  20 <= length (output_text py_str data) ->
  _extract_error_text (output_text py_str data) = Some text ->
  (forall e, tracked_errors self !! _error_key text = Some e ->
             py_eq (tool_name e) (completed_tool data) = true) ->
  (run srv (handle_tool_post py_str self data)).2
  = [search_request (hook_client self) text 3].
Proof.
  intros Hon Hsub Hok Htool Hlen Htext Hsame.
  apply looked_up_request. repeat split; try assumption.
  unfold resolved. rewrite drop_resolved_on by assumption.
  unfold after_resolution.
  destruct (tracked_errors self !! _error_key text) as [e|] eqn:E;
    [|reflexivity].
  rewrite (Hsame e eq_refl). reflexivity.
Qed.

Lemma resolved_error_searched_again_witness :
  is_Some (tracked_errors (Examples.tracking_hook true)
             !! _error_key "Error: broken")
  /\ (run unreachable
        (handle_tool_post no_text (Examples.tracking_hook true)
           bash_failed_again)).2
     = [search_request (hook_client (Examples.tracking_hook true))
          "Error: broken" 3].
Proof.
  assert (Hkey : _error_key "Error: broken" = "error: broken")
    by (vm_compute; reflexivity).
  split.
  - rewrite Hkey. unfold Examples.tracking_hook.
    cbn [tracked_errors with_tracked]. rewrite lookup_singleton_eq. eauto.
  - apply (resolved_error_searched_again no_text
             (Examples.tracking_hook true) bash_failed_again unreachable
             "Error: broken");
      [reflexivity | reflexivity | reflexivity | reflexivity
      | vm_compute; lia | vm_compute; reflexivity |].
    intros e. rewrite Hkey. unfold Examples.tracking_hook.
    cbn [tracked_errors with_tracked]. intros He.
    apply lookup_singleton_Some in He. destruct He as [_ <-]. reflexivity.
Defined.

End HandlerFacts.

Module TraceFacts.
Import Py Net Trace.

Lemma within_mono {A} P (Q : A -> Prop) (m : io A) : forall n n',
  n <= n' -> within n P Q m -> within n' P Q m.
Proof.
  induction m as [a|rq k IH]; intros n n' Hle; cbn [within]; [auto|].
  destruct n as [|n]; [intros []|].
  destruct n' as [|n']; [lia|].
  intros [Hrq Hk]. split; [exact Hrq|].
  intros o. apply (IH o n n'); [lia | apply Hk].
Qed.

Lemma within_weaken {A} P (Q Q' : A -> Prop) (m : io A) : forall n,
  (forall a, Q a -> Q' a) -> within n P Q m -> within n P Q' m.
Proof.
  induction m as [a|rq k IH]; intros n HQ; cbn [within]; [apply HQ|].
  destruct n as [|n]; [intros []|].
  intros [Hrq Hk]. split; [exact Hrq|].
  intros o. apply IH; [exact HQ | apply Hk].
Qed.

Lemma within_bind {A B} P (Q' : A -> Prop) (Q : B -> Prop)
  (m : io A) (f : A -> io B) n' : forall n,
  within n P Q' m -> (forall a, Q' a -> within n' P Q (f a)) ->
  within (n + n') P Q (bind m f).
Proof.
  induction m as [a|rq k IH]; intros n; simpl.
  - intros Ha Hf. eapply within_mono; [|apply Hf, Ha]. lia.
  - destruct n as [|n]; [intros []|].
    intros [Hrq Hk] Hf. split; [exact Hrq|].
    intros o. apply IH; [apply Hk | exact Hf].
Qed.

(** What [within] says of a run. *)
Lemma within_run {A} P (Q : A -> Prop) (m : io A) srv : forall n log,
  within n P Q m ->
  Q (run_from srv log m).1
  /\ exists new, (run_from srv log m).2 = log ++ new
                 /\ length new <= n /\ Forall P new.
Proof.
  induction m as [a|rq k IH]; intros n log; simpl.
  - intros Ha. split; [exact Ha|]. exists []. rewrite app_nil_r.
    repeat split; [simpl; lia | constructor].
  - destruct n as [|n]; [intros []|]. intros [Hrq Hk].
    destruct (IH (srv log rq) n (log ++ [rq]) (Hk _))
      as (HQ & new & E & Hlen & Hall).
    split; [exact HQ|]. exists (rq :: new). rewrite E, <- app_assoc.
    repeat split; [simpl; lia | constructor; assumption].
Qed.

End TraceFacts.

Module ConductFacts.
Import Py Net Tool ToolWire Trace Conduct TraceFacts ToolFacts.

Section Tool.
Variable py_str : json -> str.
Variable environment : json.
Variable exn_str : exn -> str.
Variable self : api.

Local Abbreviation P := (sent_by py_str self).

Lemma sent_get p q :
  match p with SearchSimilar | Search => True | _ => False end ->
  P {| meth := GET; base := api_url self; path := p; query := q;
       headers := _headers py_str self; body := None; timeout := 10 |}.
Proof.
  intros Hp. unfold sent_by, routed. cbn.
  destruct p; try destruct Hp; repeat split.
Qed.

Lemma sent_post p b :
  match p with SearchSimilar | Search => False | _ => True end ->
  P {| meth := POST; base := api_url self; path := p; query := [];
       headers := _headers py_str self; body := Some b; timeout := 10 |}.
Proof.
  intros Hp. unfold sent_by, routed. cbn.
  destruct p; try destruct Hp; repeat split; eauto.
Qed.

Lemma settled_failure msg : settled (failure msg).
Proof. right. split; [reflexivity | eauto]. Qed.

Lemma settled_succeed out : settled (succeed out).
Proof. left. repeat split. eauto. Qed.

Lemma search_output_settled results lim questions :
  returning settled (search_output py_str results lim questions).
Proof.
  unfold search_output. destruct questions as [|q qs].
  - apply settled_succeed.
  - destruct (format_all _ _); simpl; [apply settled_succeed | exact I].
Qed.

Lemma search_within input :
  within 2 P (returning settled) (_search py_str self input).
Proof.
  unfold _search. cbn [mbind bind lift].
  destruct (missing_or_short _ 3) as [[|]|e]; cbn [within returning];
    [apply settled_failure | | exact I].
  destruct (quotable _) as [msg|e]; cbn [mbind bind lift within returning];
    [|exact I].
  unfold _get. cbn [mbind bind ret within].
  split; [apply sent_get; exact I|]. intros o.
  destruct (as_int _) as [lim|]; cbn [within returning]; [|exact I].
  unfold merged_questions.
  destruct (_ <? lim)%Z.
  - unfold _get. cbn [mbind bind ret lift within].
    split; [apply sent_get; exact I|]. intros o'.
    destruct (merge_fts _ _); cbn [within returning];
      [apply search_output_settled | exact I].
  - cbn [mbind bind ret lift within]. apply search_output_settled.
Qed.

Lemma submit_answer_within input rc fa id :
  within 1 P (returning settled)
    (submit_answer py_str self input rc fa id).
Proof.
  unfold submit_answer, _post. cbn [mbind bind ret lift within].
  split; [apply sent_post; exact I|]. intros o.
  destruct (failed_response _) as [[|]|e]; cbn [within returning];
    [apply settled_failure | | exact I].
  destruct (get_of _ "data" _) as [a_data|e]; cbn [within returning];
    [|exact I].
  destruct (get_of a_data "id" _); cbn [within returning];
    [apply settled_succeed | exact I].
Qed.

Lemma submit_within input :
  within 2 P (returning settled) (_submit py_str environment self input).
Proof.
  unfold _submit. cbn [mbind bind lift].
  destruct (missing_or_short _ 20) as [[|]|e]; cbn [within returning];
    [apply settled_failure | | exact I].
  destruct (missing_or_short _ 20) as [[|]|e]; cbn [within returning];
    [apply settled_failure | | exact I].
  destruct (negb (truthy (get input "question_id" JNull)));
    [|eapply within_mono; [|apply submit_answer_within]; lia].
  destruct (_ || _); [apply settled_failure|].
  cbn [mbind bind lift].
  destruct (prefix 300 _) as [short_title|e]; cbn [within returning];
    [|exact I].
  unfold _post at 1. cbn [mbind bind ret lift within].
  split; [apply sent_post; exact I|]. intros o.
  destruct (failed_response _) as [[|]|e]; cbn [within returning];
    [apply settled_failure | | exact I].
  destruct (get_of _ "data" _) as [q_data|e]; cbn [within returning];
    [|exact I].
  destruct (get_of q_data "id" _) as [question_id|e];
    cbn [within returning]; [|exact I].
  destruct (negb (truthy question_id)); [apply settled_failure|].
  apply submit_answer_within.
Qed.

Lemma verify_within input :
  within 1 P (returning settled) (_verify py_str environment self input).
Proof.
  unfold _verify.
  destruct (negb (truthy _)); [apply settled_failure|].
  destruct (negb (in_strs _ _)); [apply settled_failure|].
  unfold _post. cbn [mbind bind ret lift within].
  split; [apply sent_post; exact I|]. intros o.
  destruct (failed_response _) as [[|]|e]; cbn [within returning];
    [apply settled_failure | apply settled_succeed | exact I].
Qed.

Lemma execute_within input :
  within 2 P (fun r => exists t, r = Ok t /\ settled t)
    (execute py_str environment exn_str self input).
Proof.
  unfold execute, catch.
  change 2 with (2 + 0).
  apply within_bind with (Q' := returning settled).
  - destruct (py_eq _ (JStr "search_errors")); [apply search_within|].
    destruct (py_eq _ (JStr "submit_solution")); [apply submit_within|].
    destruct (py_eq _ (JStr "verify_solution"));
      [eapply within_mono; [|apply verify_within]; lia|].
    apply settled_failure.
  - intros [t|e] H; cbn [within ret].
    + eauto.
    + eexists. split; [reflexivity|]. right. split; [reflexivity | eauto].
Qed.

End Tool.

(** X13: [execute] returns a result for every input and every service,
    and raises nothing, whatever is raised on the way: the result is
    built as a success with an output and without an error, or as a
    failure with an error. *)
Theorem execute_total py_str environment exn_str srv self input :
  exists t,
    (run srv (execute py_str environment exn_str self input)).1 = Ok t
    /\ settled t.
Proof.
  destruct (within_run _ _ _ srv 2 []
              (execute_within py_str environment exn_str self input))
    as ((t & Ht & Hsettled) & _).
  exists t. split; [exact Ht | exact Hsettled].
Qed.

(** X14: an operation of the tool issues two requests at most; each
    goes to the base URL of the client with the client's headers and a
    timeout of 10 seconds, a search as a GET without a body, the others
    as POSTs with one. *)
Theorem execute_requests py_str environment exn_str srv self input :
  length (run srv (execute py_str environment exn_str self input)).2 <= 2
  /\ Forall (sent_by py_str self)
       (run srv (execute py_str environment exn_str self input)).2.
Proof.
  destruct (within_run _ _ _ srv 2 []
              (execute_within py_str environment exn_str self input))
    as (_ & new & E & Hlen & Hall).
  unfold run. rewrite E. auto.
Qed.

End ConductFacts.

Module OperationFacts.
Import Py Net Tool ToolWire Conduct ToolFacts.

Section Tool.
Variable py_str : json -> str.
Variable environment : json.
Variable exn_str : exn -> str.

Local Abbreviation execute := (Tool.execute py_str environment exn_str).

Lemma operation_branch input name :
  operation_is input name ->
  forall other, py_eq (get input "operation" JNull) (JStr other)
                = bool_decide (name = other).
Proof. intros Hop other. rewrite (operation_get _ _ Hop). reflexivity. Qed.

Lemma long_text_ok n z input key :
  z = Z.of_nat n -> 0 < n -> long_text n input key ->
  exists s, get input key (JStr "") = JStr s
            /\ missing_or_short (JStr s) z = Ok false.
Proof.
  intros -> Hn (s & Hs & Hlen). exists s. unfold get. rewrite Hs.
  split; [reflexivity|]. unfold missing_or_short.
  destruct s as [|c s]; [simpl in Hlen; lia|].
  cbn [truthy negb len res_bind]. f_equal. apply Z.ltb_ge. lia.
Qed.

Lemma run_execute srv self input :
  run srv (execute self input)
  = let op := get input "operation" JNull in
    let m :=
      if py_eq op (JStr "search_errors") then _search py_str self input
      else if py_eq op (JStr "submit_solution")
           then _submit py_str environment self input
           else if py_eq op (JStr "verify_solution")
                then _verify py_str environment self input
                else ret (failure ("Unknown operation: "
                                     ++ str_of py_str op)) in
    match (run srv m).1 with
    | Ok t => (Ok t, (run srv m).2)
    | Raise e =>
        (Ok (raised exn_str e (exn_name e)), (run srv m).2)
    end.
Proof.
  unfold run, Tool.execute. rewrite run_from_catch. cbv zeta.
  destruct (run_from srv [] _).1; reflexivity.
Qed.

(** The run of [_verify] on a complete input. *)
Lemma verify_run srv self input :
  truthy (get input "answer_id" (JStr "")) = true ->
  in_strs (get input "result" (JStr "")) ["pass"; "fail"; "partial"]
  = true ->
  run srv (_verify py_str environment self input)
  = (res_bind
       (failed_response
          (decoded (srv [] (verify_request py_str environment self
                              input))))
       (fun bad =>
          Ok (if bad : bool
              then failure
                     ("Verification failed: "
                        ++ str_of py_str
                             (decoded
                                (srv [] (verify_request py_str
                                           environment self input))))
              else succeed
                     (JDict [("message",
                              JStr ("Verification recorded: "
                                      ++ str_of py_str
                                           (get input "result"
                                              (JStr ""))));
                             ("answer_id",
                              get input "answer_id" (JStr ""))]))),
     [verify_request py_str environment self input]).
Proof.
  intros Hid Hres. unfold run, _verify. rewrite Hid, Hres. cbn [negb].
  rewrite run_from_mbind, run_from_post. cbn [fst snd app].
  unfold verify_request.
  destruct (truthy (get input "evidence" JNull));
    cbn [app]; rewrite run_from_mbind, run_from_lift; cbn [fst snd];
    (destruct (failed_response _) as [[|]|e]; reflexivity).
Qed.

(** The run of the second half of [_submit]. *)
Lemma submit_answer_steps srv self input id log :
  run_from srv log
    (submit_answer py_str self input
       (get input "root_cause" (JStr ""))
       (get input "fix_approach" (JStr "")) id)
  = (let a_resp :=
       decoded (srv log (answer_request py_str self input id)) in
     res_bind (failed_response a_resp) (fun bad =>
       if bad : bool
       then Ok (failure ("Failed to submit answer: "
                           ++ str_of py_str a_resp))
       else
         res_bind (get_of a_resp "data" (JDict [])) (fun a_data =>
         res_bind (get_of a_data "id" (JStr "unknown")) (fun answer_id =>
         Ok (succeed
               (JDict [("message",
                        JStr "Solution submitted to ErrorCache");
                       ("question_id", id);
                       ("answer_id", answer_id);
                       ("link",
                        JStr ("https://errorcache.com/questions/"
                                ++ str_of py_str id))]))))),
     log ++ [answer_request py_str self input id]).
Proof.
  unfold submit_answer, answer_request.
  destruct (truthy (get input "commands" JNull)); cbn [app];
    rewrite run_from_mbind, run_from_post; cbn [fst snd];
    rewrite run_from_mbind, run_from_lift; cbn [fst snd];
    (destruct (failed_response _) as [[|]|e]; [reflexivity | | reflexivity]);
    rewrite run_from_mbind, run_from_lift; cbn [fst snd res_bind];
    (destruct (get_of _ "data" _) as [a_data|e]; [|reflexivity]);
    rewrite run_from_mbind, run_from_lift; cbn [fst snd res_bind];
    (destruct (get_of a_data "id" _); reflexivity).
Qed.

End Tool.

(** X15: an operation that is none of the three known ones, or no
    operation at all, gives the failure that names it, and no request
    is issued. *)
Theorem unknown_operation_fails py_str environment exn_str srv self input :
  unknown_operation input ->
  run srv (Tool.execute py_str environment exn_str self input)
  = (Ok (failure ("Unknown operation: "
                    ++ str_of py_str (get input "operation" JNull))),
     []).
Proof.
  intros H. rewrite run_execute. cbv zeta.
  assert (Hne : forall name,
            In name ["search_errors"; "submit_solution";
                     "verify_solution"] ->
            py_eq (get input "operation" JNull) (JStr name) = false).
  { intros name Hin.
    destruct (py_eq (get input "operation" JNull) (JStr name)) eqn:E;
      [|reflexivity].
    apply py_eq_str in E. destruct (H name Hin).
    unfold get in E. destruct (lookup input "operation");
      [congruence | discriminate E]. }
  rewrite !Hne by (simpl; auto). reflexivity.
Qed.

Lemma unknown_operation_fails_witness :
  unknown_operation [("operation", JStr "delete_solution")]
  /\ run Wire.unreachable
       (Tool.execute Wire.no_text JNull Wire.no_text_of_exn
          Examples.the_api [("operation", JStr "delete_solution")])
     = (Ok (failure ("Unknown operation: "
                       ++ str_of Wire.no_text
                            (get [("operation", JStr "delete_solution")]
                               "operation" JNull))),
        []).
Proof.
  assert (H : unknown_operation [("operation", JStr "delete_solution")]).
  { intros name [<-|[<-|[<-|[]]]]; discriminate. }
  split; [exact H|].
  apply (unknown_operation_fails Wire.no_text JNull Wire.no_text_of_exn
           Wire.unreachable Examples.the_api
           [("operation", JStr "delete_solution")] H).
Defined.

(** X16: a verification without an answer id, and a solution for a new
    question without a title or an error signature, end in a failure
    result; nothing is raised and no request is issued. *)
Theorem required_before_network py_str environment exn_str srv self input :
  lacks_required input ->
  exists t,
    run srv (Tool.execute py_str environment exn_str self input)
    = (Ok t, [])
    /\ is_failure t.
Proof.
  intros [[Hop Hid]|(Hop & Hid & Hfields)];
    rewrite run_execute; cbv zeta;
    rewrite !(operation_branch _ _ Hop); cbn [bool_decide decide_rel].
  - rewrite !bool_decide_eq_false_2 by discriminate.
    rewrite bool_decide_eq_true_2 by reflexivity.
    unfold run, _verify. rewrite Hid. cbn.
    eexists. split; [reflexivity|]. repeat split. eauto.
  - rewrite bool_decide_eq_false_2 by discriminate.
    rewrite bool_decide_eq_true_2 by reflexivity.
    unfold run, _submit.
    rewrite run_from_mbind, run_from_lift. cbn [fst snd].
    destruct (missing_or_short _ 20) as [[|]|e];
      [cbn; eexists; split; [reflexivity|]; repeat split; eauto | |
       cbn; eexists; split; [reflexivity|]; repeat split; eauto].
    rewrite run_from_mbind, run_from_lift. cbn [fst snd].
    destruct (missing_or_short _ 20) as [[|]|e];
      [cbn; eexists; split; [reflexivity|]; repeat split; eauto | |
       cbn; eexists; split; [reflexivity|]; repeat split; eauto].
    rewrite Hid. cbn [negb].
    replace (negb (truthy (get input "title" (JStr "")))
             || negb (truthy (get input "error_signature" (JStr ""))))
      with true
      by (destruct Hfields as [-> | ->]; [|rewrite orb_true_r];
          reflexivity).
    cbn. eexists. split; [reflexivity|]. repeat split. eauto.
Qed.

Lemma required_before_network_witness :
  lacks_required [("operation", JStr "verify_solution");
                  ("result", JStr "pass")]
  /\ exists t,
       run Wire.unreachable
         (Tool.execute Wire.no_text JNull Wire.no_text_of_exn
            Examples.the_api
            [("operation", JStr "verify_solution");
             ("result", JStr "pass")])
       = (Ok t, [])
       /\ is_failure t.
Proof.
  assert (H : lacks_required [("operation", JStr "verify_solution");
                              ("result", JStr "pass")]).
  { left. split; reflexivity. }
  split; [exact H|].
  apply (required_before_network Wire.no_text JNull Wire.no_text_of_exn
           Wire.unreachable Examples.the_api _ H).
Defined.

(** X17: a verification with an answer id and a result among pass,
    fail and partial issues one request, the POST of the result (and of
    the evidence, if any) under the answer; it succeeds exactly when the
    service acknowledges it. *)
Theorem verify_posts_once py_str environment exn_str srv self input :
  operation_is input "verify_solution" ->
  truthy (get input "answer_id" (JStr "")) = true ->
  in_strs (get input "result" (JStr "")) ["pass"; "fail"; "partial"]
  = true ->
  exists t,
    run srv (Tool.execute py_str environment exn_str self input)
    = (Ok t, [verify_request py_str environment self input])
    /\ (success t = true
        <-> acknowledged
              (decoded (srv [] (verify_request py_str environment self
                                  input)))).
Proof.
  intros Hop Hid Hres. rewrite run_execute. cbv zeta.
  rewrite !(operation_branch _ _ Hop).
  rewrite !bool_decide_eq_false_2 by discriminate.
  rewrite bool_decide_eq_true_2 by reflexivity.
  rewrite verify_run by assumption. cbn [fst snd].
  unfold acknowledged.
  destruct (failed_response _) as [[|]|e]; cbn [res_bind];
    eexists; (split; [reflexivity|]); cbn;
    split; intros H; first [discriminate H | reflexivity].
Qed.

Lemma verify_posts_once_witness :
  operation_is [("operation", JStr "verify_solution");
                ("answer_id", JStr "a1"); ("result", JStr "pass")]
    "verify_solution"
  /\ exists t,
       run Wire.unreachable
         (Tool.execute Wire.no_text JNull Wire.no_text_of_exn
            Examples.the_api
            [("operation", JStr "verify_solution");
             ("answer_id", JStr "a1"); ("result", JStr "pass")])
       = (Ok t,
          [verify_request Wire.no_text JNull Examples.the_api
             [("operation", JStr "verify_solution");
              ("answer_id", JStr "a1"); ("result", JStr "pass")]])
       /\ (success t = true
           <-> acknowledged
                 (decoded
                    (Wire.unreachable []
                       (verify_request Wire.no_text JNull Examples.the_api
                          [("operation", JStr "verify_solution");
                           ("answer_id", JStr "a1");
                           ("result", JStr "pass")])))).
Proof.
  split; [reflexivity|].
  apply (verify_posts_once Wire.no_text JNull Wire.no_text_of_exn
           Wire.unreachable Examples.the_api
           [("operation", JStr "verify_solution");
            ("answer_id", JStr "a1"); ("result", JStr "pass")]);
    reflexivity.
Defined.

(** X18: a solution for an existing question (a question id is given,
    root cause and fix approach have 20 characters or more) issues one
    request, the POST of the answer under that question, whatever title
    or signature comes with it; it succeeds exactly when the service
    acknowledges the answer with a mapping as its data. *)
Theorem submit_to_existing_question py_str environment exn_str srv self
  input :
  operation_is input "submit_solution" ->
  long_text 20 input "root_cause" ->
  long_text 20 input "fix_approach" ->
  truthy (get input "question_id" JNull) = true ->
  exists t,
    run srv (Tool.execute py_str environment exn_str self input)
    = (Ok t,
       [answer_request py_str self input (get input "question_id" JNull)])
    /\ (success t = true
        <-> acknowledged
              (decoded
                 (srv [] (answer_request py_str self input
                            (get input "question_id" JNull))))
            /\ exists data,
                 get_of
                   (decoded
                      (srv [] (answer_request py_str self input
                                 (get input "question_id" JNull))))
                   "data" (JDict [])
                 = Ok (JDict data)).
Proof.
  intros Hop Hrc Hfa Hid. rewrite run_execute. cbv zeta.
  rewrite !(operation_branch _ _ Hop).
  rewrite bool_decide_eq_false_2 by discriminate.
  rewrite bool_decide_eq_true_2 by reflexivity.
  unfold run, _submit.
  destruct (long_text_ok 20 20 input "root_cause" eq_refl ltac:(lia) Hrc)
    as (rc & Erc & Hrc').
  destruct (long_text_ok 20 20 input "fix_approach" eq_refl ltac:(lia) Hfa)
    as (fa & Efa & Hfa').
  rewrite run_from_mbind, run_from_lift. cbn [fst snd].
  rewrite Erc, Hrc'.
  rewrite run_from_mbind, run_from_lift. cbn [fst snd].
  rewrite Efa, Hfa', Hid. cbn [negb].
  rewrite <- Erc, <- Efa, submit_answer_steps. cbn [fst snd app].
  unfold acknowledged. cbv zeta.
  set (resp := decoded _).
  destruct (failed_response resp) as [[|]|e]; cbn [res_bind].
  - eexists. split; [reflexivity|]. cbn.
    split; [discriminate | intros [H _]; discriminate H].
  - destruct (get_of resp "data" (JDict [])) as [a_data|e]; cbn [res_bind].
    + destruct a_data as [| | | | |dd]; cbn [get_of res_bind];
        eexists; (split; [reflexivity|]); cbn;
        (split; [try discriminate; eauto
                | intros [_ [data H]]; first [discriminate H | reflexivity]]).
    + eexists. split; [reflexivity|]. cbn.
      split; [discriminate | intros [_ [data H]]; discriminate H].
  - eexists. split; [reflexivity|]. cbn.
    split; [discriminate | intros [H _]; discriminate H].
Qed.

Lemma submit_to_existing_question_witness :
  operation_is existing_question "submit_solution"
  /\ exists t,
       run Wire.unreachable
         (Tool.execute Wire.no_text JNull Wire.no_text_of_exn
            Examples.the_api existing_question)
       = (Ok t,
          [answer_request Wire.no_text Examples.the_api existing_question
             (get existing_question "question_id" JNull)])
       /\ (success t = true
           <-> acknowledged
                 (decoded
                    (Wire.unreachable []
                       (answer_request Wire.no_text Examples.the_api
                          existing_question
                          (get existing_question "question_id" JNull))))
               /\ exists data,
                    get_of
                      (decoded
                         (Wire.unreachable []
                            (answer_request Wire.no_text Examples.the_api
                               existing_question
                               (get existing_question "question_id"
                                  JNull))))
                      "data" (JDict [])
                    = Ok (JDict data)).
Proof.
  split; [reflexivity|].
  apply (submit_to_existing_question Wire.no_text JNull
           Wire.no_text_of_exn Wire.unreachable Examples.the_api
           existing_question);
    [reflexivity
    | eexists; split; [reflexivity | simpl; lia]
    | eexists; split; [reflexivity | simpl; lia]
    | reflexivity].
Defined.

End OperationFacts.

Module SearchOutcomeFacts.
Import Py Net Tool ToolWire Conduct ToolFacts OperationFacts.

Section Tool.
Variable py_str : json -> str.
Variable environment : json.
Variable exn_str : exn -> str.

Lemma search_steps_valid srv self input msg :
  lookup input "error_message" = Some (JStr msg) ->
  3 <= length msg ->
  search_steps py_str srv self input
  = let rq1 := first_request py_str self input msg in
    let results := first_response py_str srv self input msg in
    let questions := first_questions py_str srv self input msg in
    match as_int (get input "limit" (JInt 5)) with
    | None => (Raise TypeError, [rq1])
    | Some lim =>
        if (Z.of_nat (length questions) <? lim)%Z then
          (res_bind
             (merge_fts questions
                (second_response py_str srv self input msg lim))
             (search_output py_str results lim),
           [rq1; second_request py_str srv self input msg lim])
        else (search_output py_str results lim questions, [rq1])
    end.
Proof.
  intros Hmsg Hlen. unfold search_steps, get. rewrite Hmsg.
  assert (Hshort : missing_or_short (JStr msg) 3 = Ok false).
  { unfold missing_or_short. destruct msg as [|c msg]; [simpl in Hlen; lia|].
    cbn [truthy negb len res_bind]. f_equal. apply Z.ltb_ge. lia. }
  rewrite Hshort. reflexivity.
Qed.


Lemma format_entry_of q e :
  format_entry py_str q = Ok e -> entry_of q e.
Proof.
  unfold format_entry. destruct q as [| | | | |d]; try discriminate.
  cbn [get_of res_bind].
  destruct (truthy (get d "best_answer" JNull)).
  - destruct (get d "best_answer" JNull) as [| | | | |ba];
      try discriminate.
    cbn [get_of res_bind]. intros [= <-].
    exists d. eexists. repeat split.
  - intros [= <-]. exists d. eexists. repeat split.
Qed.

Lemma format_all_entries qs : forall formatted,
  format_all py_str qs = Ok formatted -> Forall2 entry_of qs formatted.
Proof.
  induction qs as [|q qs IH]; intros formatted; simpl.
  - intros [= <-]. constructor.
  - destruct (format_entry py_str q) as [e|] eqn:Ee; simpl; [|discriminate].
    destruct (format_all py_str qs) as [es|]; simpl; [|discriminate].
    intros [= <-]. constructor; [apply format_entry_of, Ee | apply IH].
    reflexivity.
Qed.

End Tool.



(** X20: when the first phase yields as many questions as the limit, or
    more, the search stops there: the one request is the signature
    search and the result is built from its questions alone. *)
Theorem full_first_phase_skips_second py_str srv self input msg limit :
  lookup input "error_message" = Some (JStr msg) ->
  3 <= length msg ->
  as_int (get input "limit" (JInt 5)) = Some limit ->
  (limit <= Z.of_nat (length (first_questions py_str srv self input msg)))%Z
  ->
  run srv (_search py_str self input)
  = (search_output py_str (first_response py_str srv self input msg) limit
       (first_questions py_str srv self input msg),
     [first_request py_str self input msg]).
Proof.
  intros Hmsg Hlen Hlimit Hfull.
  rewrite search_run, (search_steps_valid py_str srv self input msg)
    by assumption.
  cbv zeta. rewrite Hlimit.
  apply Z.ltb_ge in Hfull. rewrite Hfull. reflexivity.
Qed.

Lemma full_first_phase_skips_second_witness :
  lookup (Examples.search_input 2) "error_message"
  = Some (JStr Examples.import_error)
  /\ run Examples.two_found
       (_search Wire.no_text Examples.the_api (Examples.search_input 2))
     = (search_output Wire.no_text
          (first_response Wire.no_text Examples.two_found Examples.the_api
             (Examples.search_input 2) Examples.import_error)
          2
          (first_questions Wire.no_text Examples.two_found
             Examples.the_api (Examples.search_input 2)
             Examples.import_error),
        [first_request Wire.no_text Examples.the_api
           (Examples.search_input 2) Examples.import_error]).
Proof.
  split; [reflexivity|].
  apply (full_first_phase_skips_second Wire.no_text Examples.two_found
           Examples.the_api (Examples.search_input 2)
           Examples.import_error 2);
    [reflexivity | simpl; lia | reflexivity | vm_compute; discriminate].
Defined.



(** X22: the results of a search are the first questions of the merged
    list, as many as the limit lets through, in their order; each entry
    carries the id and the title of its question. *)
Theorem results_follow_questions py_str results limit questions t out
  formatted :
  search_output py_str results limit questions = Ok t ->
  output t = Some (JDict out) ->
  lookup out "results" = Some (JList formatted) ->
  Forall2 entry_of (take_upto limit questions) formatted.
Proof.
  unfold search_output. destruct questions as [|q qs].
  - intros [= <-] [= <-]. vm_compute. discriminate.
  - destruct (format_all py_str (take_upto limit (q :: qs)))
      as [fs|e] eqn:E; simpl; [|discriminate].
    intros [= <-] [= <-]. cbn. intros [= <-].
    apply (format_all_entries py_str), E.
Qed.

Lemma results_follow_questions_witness :
  exists t out formatted,
    search_output Wire.no_text (JDict []) 1
      [Examples.question 1 "a"; Examples.question 2 "b"] = Ok t
    /\ output t = Some (JDict out)
    /\ lookup out "results" = Some (JList formatted)
    /\ Forall2 entry_of
         (take_upto 1 [Examples.question 1 "a"; Examples.question 2 "b"])
         formatted.
Proof.
  eexists _, _, _.
  split; [vm_compute; reflexivity|].
  split; [reflexivity|]. split; [reflexivity|].
  eapply (results_follow_questions Wire.no_text (JDict []) 1
            [Examples.question 1 "a"; Examples.question 2 "b"]);
    reflexivity.
Defined.

End SearchOutcomeFacts.

Module MountFacts.
Import Py Net Hook Config Watch TextFacts.

Lemma resolve_env_outcome (env : environ) value env_var dflt :
  match _resolve_env env value env_var dflt with
  | Ok _ => text_or_unset value
  | Raise e => e = TypeError /\ ~ text_or_unset value
  end.
Proof.
  unfold _resolve_env, text_or_unset.
  destruct (truthy value) eqn:T; [|left; reflexivity].
  destruct value as [|b|z|s|l|d];
    try (split; [reflexivity|];
         intros [H|[s' H]]; [congruence | discriminate H]).
  destruct (Re.found _ s); right; eauto.
Qed.

(** X23: [mount] of the hook creates a hook that tracks nothing yet,
    with the two switches as configured (on by default) and a base URL
    that does not end in a slash; it fails, with [TypeError], exactly
    when the URL or the key of the configuration is a value that is
    neither a text nor left out. *)
Theorem hook_mount_outcome (env : environ) config :
  match mount env config with
  | Ok h =>
      text_or_unset (get (default [] config) "api_url" JNull)
      /\ text_or_unset (get (default [] config) "api_key" JNull)
      /\ tracked_errors h = ∅ /\ applied_solutions h = ∅
      /\ auto_search h = get (default [] config) "auto_search" (JBool true)
      /\ auto_submit h = get (default [] config) "auto_submit" (JBool true)
      /\ forall pre, api_url (hook_client h) <> pre ++ "/"
  | Raise e =>
      e = TypeError
      /\ ~ (text_or_unset (get (default [] config) "api_url" JNull)
            /\ text_or_unset (get (default [] config) "api_key" JNull))
  end.
Proof.
  unfold mount.
  replace (match config with Some c => c | None => [] end)
    with (default [] config) by (destruct config; reflexivity).
  pose proof (resolve_env_outcome env
                (get (default [] config) "api_url" JNull)
                "ERRORCACHE_API_URL" "https://api.errorcache.com/api/v1")
    as Hurl.
  destruct (_resolve_env env (get (default [] config) "api_url" JNull) _ _)
    as [url|e]; cbn [res_bind].
  - pose proof (resolve_env_outcome env
                  (get (default [] config) "api_key" JNull)
                  "ERRORCACHE_API_KEY" "") as Hkey.
    destruct (_resolve_env env (get (default [] config) "api_key" JNull)
                _ _) as [key|e]; cbn [res_bind].
    + repeat split; try assumption.
      intros pre E.
      destruct (rstrip_spec (Text.is_char "/") url) as [_ Hend].
      apply Hend in E. discriminate E.
    + destruct Hkey as [-> Hkey]. split; [reflexivity|].
      intros [_ H]. exact (Hkey H).
  - destruct Hurl as [-> Hurl]. split; [reflexivity|].
    intros [H _]. exact (Hurl H).
Qed.

End MountFacts.

Module MessageFacts.
Import Py Net Tool ToolWire Conduct ToolFacts OperationFacts.

(** X24: a search whose error message is not a text ends in a failure
    result and issues no request, whatever the value is: a number, a
    list or a mapping of any length. *)
Theorem non_text_message_rejected py_str environment exn_str srv self
  input :
  operation_is input "search_errors" ->
  (forall s, lookup input "error_message" <> Some (JStr s)) ->
  exists t,
    run srv (Tool.execute py_str environment exn_str self input)
    = (Ok t, [])
    /\ is_failure t.
Proof.
  intros Hop Hmsg. rewrite run_execute. cbv zeta.
  rewrite !(operation_branch _ _ Hop).
  rewrite bool_decide_eq_true_2 by reflexivity.
  rewrite search_run. unfold search_steps, get.
  destruct (lookup input "error_message") as [v|] eqn:E.
  - destruct (missing_or_short v 3) as [[|]|e]; cbn [fst snd].
    + eexists. split; [reflexivity|]. repeat split. eauto.
    + destruct v as [|b|z|s|l|d]; cbn [quotable fst snd];
        try (eexists; split; [reflexivity|]; repeat split; eauto).
      destruct (Hmsg s eq_refl).
    + eexists. split; [reflexivity|]. repeat split. eauto.
  - cbn. eexists. split; [reflexivity|]. repeat split. eauto.
Qed.

Lemma non_text_message_rejected_witness :
  operation_is [("operation", JStr "search_errors");
                ("error_message", JList [JInt 1; JInt 2; JInt 3])]
    "search_errors"
  /\ exists t,
       run Wire.unreachable
         (Tool.execute Wire.no_text JNull Wire.no_text_of_exn
            Examples.the_api
            [("operation", JStr "search_errors");
             ("error_message", JList [JInt 1; JInt 2; JInt 3])])
       = (Ok t, [])
       /\ is_failure t.
Proof.
  split; [reflexivity|].
  apply (non_text_message_rejected Wire.no_text JNull Wire.no_text_of_exn
           Wire.unreachable Examples.the_api
           [("operation", JStr "search_errors");
            ("error_message", JList [JInt 1; JInt 2; JInt 3])]);
    [reflexivity | intros s; discriminate].
Defined.

End MessageFacts.

Module ErrorEventFacts.
Import Py Net Hook Wire Watch WatcherFacts.

(** X25: with the search on, [tool:error] looks up the text
    [<type>: <msg>] of the error information ([Error] and the empty
    text by default) unless its key is tracked; when the error
    information is not a mapping it raises [AttributeError] before any
    request, and nothing is tracked. *)
Theorem tool_error_lookup py_str self data srv :
  truthy (auto_search self) = true ->
  match get data "error" (JDict []) with
  | JDict info =>
      (run srv (handle_tool_error py_str self data)).2
      = if decide (is_Some (tracked_errors self
                              !! _error_key (error_text_of py_str info)))
        then []
        else [search_request (hook_client self)
                (error_text_of py_str info) 3]
  | _ =>
      run srv (handle_tool_error py_str self data)
      = ((Raise AttributeError, self), [])
  end.
Proof.
  intros Hon. unfold handle_tool_error. rewrite Hon. cbn [negb].
  destruct (get data "error" (JDict [])) as [|b|z|s|l|info];
    try reflexivity.
  cbn [get_of res_bind]. fold (error_text_of py_str info).
  unfold run. rewrite search_and_inject_run.
  destruct (decide _); reflexivity.
Qed.

Lemma tool_error_lookup_witness :
  truthy (auto_search Examples.fresh_hook) = true
  /\ run unreachable
       (handle_tool_error no_text Examples.fresh_hook plain_error)
     = ((Raise AttributeError, Examples.fresh_hook), []).
Proof.
  split; [reflexivity|].
  exact (tool_error_lookup no_text Examples.fresh_hook plain_error
           unreachable eq_refl).
Defined.

End ErrorEventFacts.

Module NewQuestionFacts.
Import Py Net Tool ToolWire Conduct ToolFacts OperationFacts.

(** X26: a solution for a new question (no question id; a title, an
    error signature, a root cause and a fix approach of 20 characters
    or more) posts the question first, with the title cut to 300
    characters; the answer is posted next, under the id of the response,
    only when the response is acknowledged and carries a truthy
    [data.id]; without such an id the result is a failure. *)
Theorem submit_creates_question_first py_str environment exn_str srv self
  input title :
  operation_is input "submit_solution" ->
  long_text 20 input "root_cause" ->
  long_text 20 input "fix_approach" ->
  truthy (get input "question_id" JNull) = false ->
  lookup input "title" = Some (JStr title) ->
  title <> [] ->
  truthy (get input "error_signature" (JStr "")) = true ->
  exists t,
    (run srv (Tool.execute py_str environment exn_str self input)).1 = Ok t
    /\ match question_created
               (decoded (srv [] (question_request py_str environment self
                                   input title)))
       with
       | Some id =>
           (run srv (Tool.execute py_str environment exn_str self input)).2
           = [question_request py_str environment self input title;
              answer_request py_str self input id]
       | None =>
           (run srv (Tool.execute py_str environment exn_str self input)).2
           = [question_request py_str environment self input title]
           /\ success t = false
       end.
Proof.
  intros Hop Hrc Hfa Hid Htitle Hne Hsig. rewrite run_execute. cbv zeta.
  rewrite !(operation_branch _ _ Hop).
  rewrite bool_decide_eq_false_2 by discriminate.
  rewrite bool_decide_eq_true_2 by reflexivity.
  unfold run, _submit.
  destruct (long_text_ok 20 20 input "root_cause" eq_refl ltac:(lia) Hrc)
    as (rc & Erc & Hrc').
  destruct (long_text_ok 20 20 input "fix_approach" eq_refl ltac:(lia) Hfa)
    as (fa & Efa & Hfa').
  rewrite run_from_mbind, run_from_lift. cbn [fst snd].
  rewrite Erc, Hrc'.
  rewrite run_from_mbind, run_from_lift. cbn [fst snd].
  rewrite Efa, Hfa', Hid. cbn [negb].
  assert (Et : get input "title" (JStr "") = JStr title)
    by (unfold get; rewrite Htitle; reflexivity).
  rewrite Et, Hsig.
  destruct title as [|c title]; [congruence|]. cbn [truthy negb orb].
  rewrite run_from_mbind, run_from_lift. cbn [fst snd prefix].
  rewrite run_from_mbind, run_from_post. cbn [fst snd app].
  fold (question_request py_str environment self input (c :: title)).
  set (rq1 := question_request py_str environment self input (c :: title)).
  unfold question_created.
  rewrite run_from_mbind, run_from_lift. cbn [fst snd].
  destruct (failed_response (decoded (srv [] rq1))) as [[|]|e] eqn:Ebad;
    cbn [fst snd];
    [eexists; split; [reflexivity|]; split; reflexivity | |
     eexists; split; [reflexivity|]; split; reflexivity].
  unfold new_question_id.
  destruct (decoded (srv [] rq1)) as [|b|z|s|l|d] eqn:Eresp;
    try (unfold failed_response in Ebad;
         destruct (negb (truthy _)); discriminate Ebad).
  rewrite run_from_mbind, run_from_lift. cbn [fst snd get_of].
  destruct (get d "data" (JDict [])) as [|b|z|s|l|dd] eqn:Edata;
    try (cbn; eexists; split; [reflexivity|]; split; reflexivity).
  rewrite run_from_mbind, run_from_lift. cbn [fst snd get_of].
  destruct (truthy (get dd "id" JNull)) eqn:Enew; cbn [negb].
  - rewrite <- Erc, <- Efa, submit_answer_steps. cbn [fst snd app].
    cbv zeta.
    destruct (res_bind _ _) as [t|e]; eexists; split; reflexivity.
  - cbn. eexists. split; [reflexivity|]. split; reflexivity.
Qed.

Lemma submit_creates_question_first_witness :
  operation_is new_question "submit_solution"
  /\ exists t,
       (run Wire.unreachable
          (Tool.execute Wire.no_text JNull Wire.no_text_of_exn
             Examples.the_api new_question)).1 = Ok t
       /\ match question_created
                  (decoded
                     (Wire.unreachable []
                        (question_request Wire.no_text JNull
                           Examples.the_api new_question "ImportError")))
          with
          | Some id =>
              (run Wire.unreachable
                 (Tool.execute Wire.no_text JNull Wire.no_text_of_exn
                    Examples.the_api new_question)).2
              = [question_request Wire.no_text JNull Examples.the_api
                   new_question "ImportError";
                 answer_request Wire.no_text Examples.the_api
                   new_question id]
          | None =>
              (run Wire.unreachable
                 (Tool.execute Wire.no_text JNull Wire.no_text_of_exn
                    Examples.the_api new_question)).2
              = [question_request Wire.no_text JNull Examples.the_api
                   new_question "ImportError"]
              /\ success t = false
          end.
Proof.
  split; [reflexivity|].
  apply (submit_creates_question_first Wire.no_text JNull
           Wire.no_text_of_exn Wire.unreachable Examples.the_api
           new_question "ImportError");
    [reflexivity
    | eexists; split; [reflexivity | simpl; lia]
    | eexists; split; [reflexivity | simpl; lia]
    | reflexivity | reflexivity | discriminate | reflexivity].
Defined.

End NewQuestionFacts.
